(** * Implicit member synthesis (lib/Sema/CodeSynthesis.cpp)

    A shallow embedding of the declaration-synthesis routines of the
    semantic-analysis phase: accessor prototypes, storage references,
    trivial / observing / lazy accessor bodies, memberwise and
    override initializers.

    Conventions of the embedding:
    - source locations are dropped, and so are the [implicit] bits of
      expressions and of functions (whatever is synthesized is implicit);
    - a pointer to a declaration is the declaration's [DeclID]; a null
      pointer is [None];
    - what the routines mutate outside of their arguments (the
      diagnostics, the external-definition list, the member list of the
      owning context, the requests sent to the type checker) is the
      [SemaState] threaded by the [Sema] monad; the arguments they mutate
      are returned updated;
    - [assert] aborts only when assertions are compiled in. *)

From Stdlib Require Import List String Bool Arith Lia.
Import ListNotations.
Local Open Scope string_scope.
Local Open Scope list_scope.
Set Warnings "-register-all".

(** ** Types *)

Definition Identifier := string.
Definition DeclID := nat.

Definition identEmpty (i : Identifier) : bool :=
  match i with EmptyString => true | _ => false end.

(** The empty identifier: no argument label. *)
Definition noLabel : Identifier := EmptyString.

Inductive Ty : Type :=
| TyNominal (name : Identifier)
| TyProtocol (name : Identifier)
| TyArchetypeSelf (proto : Identifier)
| TyOptional (object : Ty)
| TyImplicitlyUnwrappedOptional (object : Ty)
| TyInOut (object : Ty)
| TyTuple (elts : list Ty)
| TyFunction (input result : Ty) (thin : bool)
| TyMetatype (instance : Ty) (thick : bool)
| TyRawPointer
| TyUnsafeValueBuffer
| TyError.

Definition TupleType_getEmpty : Ty := TyTuple [].

Definition isInOutType (t : Ty) : bool :=
  match t with TyInOut _ => true | _ => false end.

Definition isErrorType (t : Ty) : bool :=
  match t with TyError => true | _ => false end.

Definition isProtocolType (t : Ty) : bool :=
  match t with TyProtocol _ => true | _ => false end.

Definition getAnyOptionalObjectType (t : Ty) : option Ty :=
  match t with
  | TyOptional o => Some o
  | TyImplicitlyUnwrappedOptional o => Some o
  | _ => None
  end.

(** Accessibility levels, ordered as the enumeration declares them. *)
Inductive Accessibility := Private | Internal | Public.

Definition accessRank (a : Accessibility) : nat :=
  match a with Private => 0 | Internal => 1 | Public => 2 end.

Definition accessMin (a b : Accessibility) : Accessibility :=
  if Nat.leb (accessRank a) (accessRank b) then a else b.

(** ** Parameters *)

Record ParamDecl := mkParam {
  pdArgumentName : Identifier;
  pdName : Identifier;
  pdType : Ty;
  pdIsLet : bool;
  pdIsVariadic : bool;
  pdIsImplicit : bool;
  pdIsInherited : bool
}.

Definition ParameterList := list ParamDecl.

(** [buildArgument]: an implicit parameter with no argument label. *)
Definition buildArgument (name : Identifier) (type : Ty) (isLet : bool)
  : ParamDecl :=
  mkParam noLabel name type isLet false true false.

Definition buildLetArgument (name : Identifier) (type : Ty) : ParamDecl :=
  buildArgument name type true.

Definition buildInOutArgument (name : Identifier) (type : Ty) : ParamDecl :=
  buildArgument name (TyInOut type) false.

(** ** Expressions and statements *)

Inductive AccessSemantics := Ordinary | DirectToStorage | DirectToAccessor.

Inductive AccessorKind :=
| NotAccessor | IsGetter | IsSetter | IsWillSet | IsDidSet
| IsMaterializeForSet | IsAddressor | IsMutableAddressor.

Definition AccessorKind_eqb (a b : AccessorKind) : bool :=
  match a, b with
  | NotAccessor, NotAccessor | IsGetter, IsGetter | IsSetter, IsSetter
  | IsWillSet, IsWillSet | IsDidSet, IsDidSet
  | IsMaterializeForSet, IsMaterializeForSet
  | IsAddressor, IsAddressor | IsMutableAddressor, IsMutableAddressor => true
  | _, _ => false
  end.

(** What a [DeclRefExpr] can point at. *)
Inductive ValueRef :=
| VRDecl (d : DeclID)            (* a storage entity or a function *)
| VRParam (p : ParamDecl)        (* a parameter, [self] included *)
| VRLocal (name : Identifier).   (* a temporary declared in the body *)

(** A simple name, or a compound name with its argument labels. *)
Inductive DeclName :=
| SimpleName (base : Identifier)
| CompoundName (base : Identifier) (argumentNames : list Identifier).

(** The parent context recorded in a closure. *)
Inductive ClosureParent :=
| ParentOriginal
| ParentFunc (fn : DeclID).

Inductive Expr : Type :=
| DeclRefExpr (d : ValueRef) (semantics : AccessSemantics)
| SuperRefExpr (self : ParamDecl)
| MemberRefExpr (base : Expr) (member : DeclID) (semantics : AccessSemantics)
| SubscriptExpr (base : Expr) (index : option Expr) (decl : DeclID)
                (semantics : AccessSemantics)
| InOutExpr (sub : Expr)
| TupleExpr (elts : list Expr) (labels : list Identifier)
| ParenExpr (sub : Expr)
| CallExpr (fn arg : Expr)
| DotSyntaxCallExpr (fn base : Expr)
| UnresolvedDotExpr (base : Expr) (name : DeclName)
| AssignExpr (dest src : Expr)
| BindOptionalExpr (sub : Expr) (depth : nat)
| OptionalEvaluationExpr (sub : Expr)
| ForceValueExpr (sub : Expr)
| ForcedCheckedCastExpr (sub : Expr) (castTy : Ty)
| ConditionalCheckedCastExpr (sub : Expr) (castTy : Ty)
| NilLiteralExpr
| StringLiteralExpr (s : string)
| TryExpr (sub : Expr)
| OptionalToBoolExpr (sub : Expr)
| ClosureExpr (id : nat) (parent : ClosureParent)
| CaptureListExpr (captures : list (Identifier * ClosureParent * ClosureParent))
                  (closure : Expr)
| UserExpr (id : nat) (children : list Expr).

Inductive Pattern :=
| NamedPattern (var : Identifier)
| TypedPattern (sub : Pattern) (ty : Ty).

(** A local [VarDecl] made by a synthesized body. *)
Record LocalVarDecl := mkLocal {
  lvName : Identifier;
  lvIsLet : bool;
  lvType : option Ty
}.

Inductive ASTNode : Type :=
| NodeExpr (e : Expr)
| NodeReturnStmt (result : Expr)
| NodeIfStmt (cond : Expr) (thenStmt : ASTNode) (elseStmt : option ASTNode)
| NodePatternBindingDecl (pat : Pattern) (init : option Expr)
| NodeVarDecl (v : LocalVarDecl).

(** A [BraceStmt] is the list of its elements. *)
Definition BraceStmt := list ASTNode.

(** ** Declarations *)

Inductive DeclAttr :=
| FinalAttr | DynamicAttr | TransparentAttr | OverrideAttr | RequiredAttr
| NonMutatingAttr | LazyAttr | NSCopyingAttr | NSManagedAttr
| ObjCAttr (name : option Identifier).

Definition DeclAttr_same (a b : DeclAttr) : bool :=
  match a, b with
  | FinalAttr, FinalAttr | DynamicAttr, DynamicAttr
  | TransparentAttr, TransparentAttr | OverrideAttr, OverrideAttr
  | RequiredAttr, RequiredAttr | NonMutatingAttr, NonMutatingAttr
  | LazyAttr, LazyAttr | NSCopyingAttr, NSCopyingAttr
  | NSManagedAttr, NSManagedAttr | ObjCAttr _, ObjCAttr _ => true
  | _, _ => false
  end.

Definition hasAttribute (k : DeclAttr) (attrs : list DeclAttr) : bool :=
  existsb (DeclAttr_same k) attrs.

Inductive NominalKind := StructDecl | ClassDecl | EnumDecl | ProtocolDecl.

Record NominalTypeDecl := mkNominal {
  ntdName : Identifier;
  ntdKind : NominalKind;
  ntdHasClangNode : bool;
  ntdHasFixedLayout : bool;
  ntdIsObjC : bool;
  ntdIsGeneric : bool;
  ntdIsErroneous : bool;
  ntdModuleName : Identifier;
  ntdFormalAccess : Accessibility;
  ntdHasSuperclass : bool
}.

Inductive SourceFileKind := SFLibrary | SFMain | SFREPL | SFSIL.

Inductive DeclContext :=
| NominalDC (n : NominalTypeDecl)
| ExtensionDC (n : NominalTypeDecl)
| SourceFileDC (kind : SourceFileKind)
| FunctionDC
| FileUnitDC.

(** Modelled from the spec: the [DeclContext] queries are declared
    outside this file; "the declaring scope is a type" is a nominal type
    or an extension of one, and the scope of an extension is the
    nominal type it extends. *)
Definition isTypeContext (dc : DeclContext) : bool :=
  match dc with NominalDC _ | ExtensionDC _ => true | _ => false end.

Definition isNominalTypeOrNominalTypeExtensionContext (dc : DeclContext)
  : option NominalTypeDecl :=
  match dc with NominalDC n | ExtensionDC n => Some n | _ => None end.

Definition isClassOrClassExtensionContext (dc : DeclContext) : bool :=
  match isNominalTypeOrNominalTypeExtensionContext dc with
  | Some n => match ntdKind n with ClassDecl => true | _ => false end
  | None => false
  end.

Definition isProtocolExtensionContext (dc : DeclContext) : bool :=
  match dc with
  | ExtensionDC n => match ntdKind n with ProtocolDecl => true | _ => false end
  | _ => false
  end.

Definition isProtocolOrProtocolExtensionContext (dc : DeclContext) : bool :=
  match isNominalTypeOrNominalTypeExtensionContext dc with
  | Some n => match ntdKind n with ProtocolDecl => true | _ => false end
  | None => false
  end.

Definition isLocalContext (dc : DeclContext) : bool :=
  match dc with FunctionDC => true | _ => false end.

Definition isGenericContext (dc : DeclContext) : bool :=
  match isNominalTypeOrNominalTypeExtensionContext dc with
  | Some n => ntdIsGeneric n
  | None => false
  end.

Definition getDeclaredTypeInContext (dc : DeclContext) : option Ty :=
  match isNominalTypeOrNominalTypeExtensionContext dc with
  | Some n =>
      if ntdIsErroneous n then Some TyError
      else match ntdKind n with
           | ProtocolDecl => Some (TyProtocol (ntdName n))
           | _ => Some (TyNominal (ntdName n))
           end
  | None => None
  end.

(** The source file a context is in: itself for a source file, none for
    another file unit; for a type, an extension or a function it is the
    file they are declared in, [enclosingFile], which the contexts of this
    model do not record. *)
Definition getParentSourceFile (enclosingFile : option SourceFileKind)
    (dc : DeclContext) : option SourceFileKind :=
  match dc with
  | SourceFileDC k => Some k
  | FileUnitDC => None
  | _ => enclosingFile
  end.

Record FuncDecl := mkFunc {
  fnID : DeclID;
  fnAccessorKind : AccessorKind;
  fnParameterLists : list ParameterList;
  fnResultType : Ty;
  fnDeclContext : DeclContext;
  fnIsMutating : bool;
  fnIsStatic : bool;
  fnForcedStaticDispatch : bool;
  fnAccessibility : option Accessibility;
  fnAttrs : list DeclAttr;
  fnAvailableAs : list DeclID;
  fnBody : option BraceStmt
}.

Definition fnSetAccessorKind (f : FuncDecl) (k : AccessorKind) : FuncDecl :=
  mkFunc (fnID f) k (fnParameterLists f) (fnResultType f) (fnDeclContext f)
    (fnIsMutating f) (fnIsStatic f) (fnForcedStaticDispatch f)
    (fnAccessibility f) (fnAttrs f) (fnAvailableAs f) (fnBody f).

Definition fnSetMutating (f : FuncDecl) (b : bool) : FuncDecl :=
  mkFunc (fnID f) (fnAccessorKind f) (fnParameterLists f) (fnResultType f)
    (fnDeclContext f) b (fnIsStatic f) (fnForcedStaticDispatch f)
    (fnAccessibility f) (fnAttrs f) (fnAvailableAs f) (fnBody f).

Definition fnSetStatic (f : FuncDecl) (b : bool) : FuncDecl :=
  mkFunc (fnID f) (fnAccessorKind f) (fnParameterLists f) (fnResultType f)
    (fnDeclContext f) (fnIsMutating f) b (fnForcedStaticDispatch f)
    (fnAccessibility f) (fnAttrs f) (fnAvailableAs f) (fnBody f).

Definition fnSetForcedStaticDispatch (f : FuncDecl) (b : bool) : FuncDecl :=
  mkFunc (fnID f) (fnAccessorKind f) (fnParameterLists f) (fnResultType f)
    (fnDeclContext f) (fnIsMutating f) (fnIsStatic f) b
    (fnAccessibility f) (fnAttrs f) (fnAvailableAs f) (fnBody f).

Definition fnSetAccessibility (f : FuncDecl) (a : Accessibility) : FuncDecl :=
  mkFunc (fnID f) (fnAccessorKind f) (fnParameterLists f) (fnResultType f)
    (fnDeclContext f) (fnIsMutating f) (fnIsStatic f)
    (fnForcedStaticDispatch f) (Some a) (fnAttrs f) (fnAvailableAs f)
    (fnBody f).

Definition fnAddAttr (f : FuncDecl) (a : DeclAttr) : FuncDecl :=
  mkFunc (fnID f) (fnAccessorKind f) (fnParameterLists f) (fnResultType f)
    (fnDeclContext f) (fnIsMutating f) (fnIsStatic f)
    (fnForcedStaticDispatch f) (fnAccessibility f) (a :: fnAttrs f)
    (fnAvailableAs f) (fnBody f).

Definition fnSetAvailableAs (f : FuncDecl) (ds : list DeclID) : FuncDecl :=
  mkFunc (fnID f) (fnAccessorKind f) (fnParameterLists f) (fnResultType f)
    (fnDeclContext f) (fnIsMutating f) (fnIsStatic f)
    (fnForcedStaticDispatch f) (fnAccessibility f) (fnAttrs f) ds (fnBody f).

Definition fnSetBody (f : FuncDecl) (b : BraceStmt) : FuncDecl :=
  mkFunc (fnID f) (fnAccessorKind f) (fnParameterLists f) (fnResultType f)
    (fnDeclContext f) (fnIsMutating f) (fnIsStatic f)
    (fnForcedStaticDispatch f) (fnAccessibility f) (fnAttrs f)
    (fnAvailableAs f) (Some b).

Definition fnIsFinal (f : FuncDecl) : bool := hasAttribute FinalAttr (fnAttrs f).

(** [makeFinal]: add the attribute unless the declaration is final already. *)
Definition makeFinalFunc (f : FuncDecl) : FuncDecl :=
  if fnIsFinal f then f else fnAddAttr f FinalAttr.

(** Modelled from the spec: [getImplicitSelfDecl] is declared outside this
    file; a function has an implicit "self" parameter if it lives in a type
    scope, and it is the parameter of its first parameter list. *)
Definition getImplicitSelfDecl (f : FuncDecl) : option ParamDecl :=
  if isTypeContext (fnDeclContext f) then
    match fnParameterLists f with
    | (self :: _) :: _ => Some self
    | _ => None
    end
  else None.

(** ** Storage entities *)

Inductive StorageKind :=
| Stored | StoredWithTrivialAccessors | StoredWithObservers
| InheritedWithObservers | Addressed | AddressedWithTrivialAccessors
| AddressedWithObservers | ComputedWithMutableAddress | Computed.

(** A [VarDecl] or a [SubscriptDecl] (with its index parameters and its
    element type). *)
Inductive StorageDeclKind :=
| IsVarDecl
| IsSubscriptDecl (indices : ParameterList) (elementType : Ty).

(** What synthesis reads of a storage entity and never writes.  [sdIsLet]
    is the [isLet] bit of a [VarDecl]. *)
Record StorageInfo := mkInfo {
  sdID : DeclID;
  sdName : Identifier;
  sdDeclKind : StorageDeclKind;
  sdType : Ty;
  sdDeclContext : DeclContext;
  sdIsLet : bool;
  sdIsStatic : bool;
  sdIsObjC : bool;
  sdHasClangNode : bool;
  sdIsInvalid : bool;
  sdIsGetterMutating : bool;
  sdIsSetterNonMutating : bool;
  sdHasFixedLayout : bool
}.

Inductive AbstractStorageDecl : Type := mkStorage {
  sdInfo : StorageInfo;
  sdOverriddenDecl : option AbstractStorageDecl;
  sdStorageKind : StorageKind;
  sdAttrs : list DeclAttr;
  sdIsImplicit : bool;
  sdIsBeingTypeChecked : bool;
  sdUserAccessible : bool;
  sdAccessibility : option Accessibility;
  sdSetterAccessibility : option Accessibility;
  sdParentInitializer : option Expr;
  sdGetter : option FuncDecl;
  sdSetter : option FuncDecl;
  sdMaterializeForSetFunc : option FuncDecl;
  sdWillSetFunc : option FuncDecl;
  sdDidSetFunc : option FuncDecl;
  sdMutableAddressor : option FuncDecl
}.

Definition sdSetStorageKind (s : AbstractStorageDecl) (x : StorageKind) :
    AbstractStorageDecl :=
  mkStorage (sdInfo s) (sdOverriddenDecl s) x (sdAttrs s) (sdIsImplicit s)
    (sdIsBeingTypeChecked s) (sdUserAccessible s) (sdAccessibility s)
    (sdSetterAccessibility s) (sdParentInitializer s) (sdGetter s) (sdSetter
    s) (sdMaterializeForSetFunc s) (sdWillSetFunc s) (sdDidSetFunc s)
    (sdMutableAddressor s).

Definition sdSetAttrs (s : AbstractStorageDecl) (x : list DeclAttr) :
    AbstractStorageDecl :=
  mkStorage (sdInfo s) (sdOverriddenDecl s) (sdStorageKind s) x
    (sdIsImplicit s) (sdIsBeingTypeChecked s) (sdUserAccessible s)
    (sdAccessibility s) (sdSetterAccessibility s) (sdParentInitializer s)
    (sdGetter s) (sdSetter s) (sdMaterializeForSetFunc s) (sdWillSetFunc s)
    (sdDidSetFunc s) (sdMutableAddressor s).

Definition sdSetImplicit (s : AbstractStorageDecl) (x : bool) :
    AbstractStorageDecl :=
  mkStorage (sdInfo s) (sdOverriddenDecl s) (sdStorageKind s) (sdAttrs s) x
    (sdIsBeingTypeChecked s) (sdUserAccessible s) (sdAccessibility s)
    (sdSetterAccessibility s) (sdParentInitializer s) (sdGetter s) (sdSetter
    s) (sdMaterializeForSetFunc s) (sdWillSetFunc s) (sdDidSetFunc s)
    (sdMutableAddressor s).

Definition sdSetIsBeingTypeChecked (s : AbstractStorageDecl) (x : bool) :
    AbstractStorageDecl :=
  mkStorage (sdInfo s) (sdOverriddenDecl s) (sdStorageKind s) (sdAttrs s)
    (sdIsImplicit s) x (sdUserAccessible s) (sdAccessibility s)
    (sdSetterAccessibility s) (sdParentInitializer s) (sdGetter s) (sdSetter
    s) (sdMaterializeForSetFunc s) (sdWillSetFunc s) (sdDidSetFunc s)
    (sdMutableAddressor s).

Definition sdSetUserAccessible (s : AbstractStorageDecl) (x : bool) :
    AbstractStorageDecl :=
  mkStorage (sdInfo s) (sdOverriddenDecl s) (sdStorageKind s) (sdAttrs s)
    (sdIsImplicit s) (sdIsBeingTypeChecked s) x (sdAccessibility s)
    (sdSetterAccessibility s) (sdParentInitializer s) (sdGetter s) (sdSetter
    s) (sdMaterializeForSetFunc s) (sdWillSetFunc s) (sdDidSetFunc s)
    (sdMutableAddressor s).

Definition sdSetAccessibility (s : AbstractStorageDecl) (x : option
    Accessibility) : AbstractStorageDecl :=
  mkStorage (sdInfo s) (sdOverriddenDecl s) (sdStorageKind s) (sdAttrs s)
    (sdIsImplicit s) (sdIsBeingTypeChecked s) (sdUserAccessible s) x
    (sdSetterAccessibility s) (sdParentInitializer s) (sdGetter s) (sdSetter
    s) (sdMaterializeForSetFunc s) (sdWillSetFunc s) (sdDidSetFunc s)
    (sdMutableAddressor s).

Definition sdSetSetterAccessibility (s : AbstractStorageDecl) (x : option
    Accessibility) : AbstractStorageDecl :=
  mkStorage (sdInfo s) (sdOverriddenDecl s) (sdStorageKind s) (sdAttrs s)
    (sdIsImplicit s) (sdIsBeingTypeChecked s) (sdUserAccessible s)
    (sdAccessibility s) x (sdParentInitializer s) (sdGetter s) (sdSetter s)
    (sdMaterializeForSetFunc s) (sdWillSetFunc s) (sdDidSetFunc s)
    (sdMutableAddressor s).

Definition sdSetParentInitializer (s : AbstractStorageDecl) (x : option
    Expr) : AbstractStorageDecl :=
  mkStorage (sdInfo s) (sdOverriddenDecl s) (sdStorageKind s) (sdAttrs s)
    (sdIsImplicit s) (sdIsBeingTypeChecked s) (sdUserAccessible s)
    (sdAccessibility s) (sdSetterAccessibility s) x (sdGetter s) (sdSetter
    s) (sdMaterializeForSetFunc s) (sdWillSetFunc s) (sdDidSetFunc s)
    (sdMutableAddressor s).

Definition sdSetGetter (s : AbstractStorageDecl) (x : option FuncDecl) :
    AbstractStorageDecl :=
  mkStorage (sdInfo s) (sdOverriddenDecl s) (sdStorageKind s) (sdAttrs s)
    (sdIsImplicit s) (sdIsBeingTypeChecked s) (sdUserAccessible s)
    (sdAccessibility s) (sdSetterAccessibility s) (sdParentInitializer s) x
    (sdSetter s) (sdMaterializeForSetFunc s) (sdWillSetFunc s) (sdDidSetFunc
    s) (sdMutableAddressor s).

Definition sdSetSetter (s : AbstractStorageDecl) (x : option FuncDecl) :
    AbstractStorageDecl :=
  mkStorage (sdInfo s) (sdOverriddenDecl s) (sdStorageKind s) (sdAttrs s)
    (sdIsImplicit s) (sdIsBeingTypeChecked s) (sdUserAccessible s)
    (sdAccessibility s) (sdSetterAccessibility s) (sdParentInitializer s)
    (sdGetter s) x (sdMaterializeForSetFunc s) (sdWillSetFunc s)
    (sdDidSetFunc s) (sdMutableAddressor s).

Definition sdSetMaterializeForSetFunc (s : AbstractStorageDecl) (x : option
    FuncDecl) : AbstractStorageDecl :=
  mkStorage (sdInfo s) (sdOverriddenDecl s) (sdStorageKind s) (sdAttrs s)
    (sdIsImplicit s) (sdIsBeingTypeChecked s) (sdUserAccessible s)
    (sdAccessibility s) (sdSetterAccessibility s) (sdParentInitializer s)
    (sdGetter s) (sdSetter s) x (sdWillSetFunc s) (sdDidSetFunc s)
    (sdMutableAddressor s).

Definition sdSetWillSetFunc (s : AbstractStorageDecl) (x : option FuncDecl)
    : AbstractStorageDecl :=
  mkStorage (sdInfo s) (sdOverriddenDecl s) (sdStorageKind s) (sdAttrs s)
    (sdIsImplicit s) (sdIsBeingTypeChecked s) (sdUserAccessible s)
    (sdAccessibility s) (sdSetterAccessibility s) (sdParentInitializer s)
    (sdGetter s) (sdSetter s) (sdMaterializeForSetFunc s) x (sdDidSetFunc s)
    (sdMutableAddressor s).

Definition sdSetDidSetFunc (s : AbstractStorageDecl) (x : option FuncDecl) :
    AbstractStorageDecl :=
  mkStorage (sdInfo s) (sdOverriddenDecl s) (sdStorageKind s) (sdAttrs s)
    (sdIsImplicit s) (sdIsBeingTypeChecked s) (sdUserAccessible s)
    (sdAccessibility s) (sdSetterAccessibility s) (sdParentInitializer s)
    (sdGetter s) (sdSetter s) (sdMaterializeForSetFunc s) (sdWillSetFunc s)
    x (sdMutableAddressor s).

Definition sdIsFinal (s : AbstractStorageDecl) : bool :=
  hasAttribute FinalAttr (sdAttrs s).

Definition sdIsDynamic (s : AbstractStorageDecl) : bool :=
  hasAttribute DynamicAttr (sdAttrs s).

Definition makeFinalStorage (s : AbstractStorageDecl) : AbstractStorageDecl :=
  if sdIsFinal s then s else sdSetAttrs s (FinalAttr :: sdAttrs s).

Definition isSubscriptDecl (s : AbstractStorageDecl) : bool :=
  match sdDeclKind (sdInfo s) with IsSubscriptDecl _ _ => true | _ => false end.

(** Modelled from the spec: [hasAccessorFunctions] is declared outside
    this file; an entity "without explicit accessors" is plain stored or
    plain addressed storage. *)
Definition hasAccessorFunctions (s : AbstractStorageDecl) : bool :=
  match sdStorageKind s with
  | Stored | Addressed => false
  | _ => true
  end.

Definition hasObservers (s : AbstractStorageDecl) : bool :=
  match sdStorageKind s with
  | StoredWithObservers | InheritedWithObservers | AddressedWithObservers => true
  | _ => false
  end.

(** ** The state of semantic analysis and its monad *)

Inductive Diagnostic :=
| nscopying_doesnt_conform (var : DeclID)
| missing_unimplemented_init_runtime (cls : Identifier)
| unsupported_synthesize_init_variadic (cls : Identifier)
| variadic_superclass_init_here (ctor : DeclID).

Inductive TypeCheckRequest :=
| ReqTypeCheckDecl (d : DeclID) (isFirstPass : bool)
| ReqValidateDecl (d : DeclID)
| ReqComputeAccessibility (d : DeclID)
| ReqCheckOverrides (d : DeclID).

Record SemaState := mkState {
  stDiags : list Diagnostic;
  stExternalDecls : list DeclID;
  stMembers : list DeclID;
  stDerivedDecls : list DeclID;
  stRequests : list TypeCheckRequest;
  stNextID : DeclID
}.

Inductive Outcome (A : Type) : Type :=
| Done (a : A)
| Aborted (msg : string).
Arguments Done {A} a.
Arguments Aborted {A} msg.

Definition Sema (A : Type) : Type := SemaState -> Outcome (A * SemaState).

Definition ret {A} (a : A) : Sema A := fun st => Done (a, st).

Definition bind {A B} (m : Sema A) (k : A -> Sema B) : Sema B :=
  fun st =>
    match m st with
    | Done (a, st') => k a st'
    | Aborted msg => Aborted msg
    end.

Definition abort {A} (msg : string) : Sema A := fun _ => Aborted msg.

Declare Scope sema_scope.
Delimit Scope sema_scope with sema.
Notation "x <- m ;; k" := (bind m (fun x => k))
  (at level 61, m at next level, right associativity) : sema_scope.
Notation "m ;;; k" := (bind m (fun _ => k))
  (at level 61, right associativity) : sema_scope.
Local Open Scope sema_scope.

Definition diagnose (d : Diagnostic) : Sema unit :=
  fun st => Done (tt, mkState (stDiags st ++ [d]) (stExternalDecls st)
                        (stMembers st) (stDerivedDecls st) (stRequests st)
                        (stNextID st)).

Definition addExternalDecl (d : DeclID) : Sema unit :=
  fun st => Done (tt, mkState (stDiags st) (stExternalDecls st ++ [d])
                        (stMembers st) (stDerivedDecls st) (stRequests st)
                        (stNextID st)).

Definition request (r : TypeCheckRequest) : Sema unit :=
  fun st => Done (tt, mkState (stDiags st) (stExternalDecls st)
                        (stMembers st) (stDerivedDecls st)
                        (stRequests st ++ [r]) (stNextID st)).

Definition typeCheckDecl (d : DeclID) (isFirstPass : bool) : Sema unit :=
  request (ReqTypeCheckDecl d isFirstPass).

Definition validateDecl (d : DeclID) : Sema unit := request (ReqValidateDecl d).

(** Allocation of a declaration node: the next free identity. *)
Definition allocDecl : Sema DeclID :=
  fun st => Done (stNextID st,
                  mkState (stDiags st) (stExternalDecls st) (stMembers st)
                    (stDerivedDecls st) (stRequests st) (S (stNextID st))).

(** Modelled from the spec: [addMember] is a method of the owning scope,
    declared outside this file; the new declaration is "appended to the
    owning scope's member list, optionally positioned adjacent to a hint
    declaration". *)
Fixpoint insertAfter (hint d : DeclID) (l : list DeclID) : option (list DeclID) :=
  match l with
  | [] => None
  | x :: r =>
      if Nat.eqb x hint then Some (x :: d :: r)
      else match insertAfter hint d r with
           | Some r' => Some (x :: r')
           | None => None
           end
  end.

Definition addMember (d : DeclID) (hint : option DeclID) (l : list DeclID)
  : list DeclID :=
  match hint with
  | None => l ++ [d]
  | Some h => match insertAfter h d l with
              | Some l' => l'
              | None => l ++ [d]
              end
  end.

(** The oracles of the type checker and of the AST context: services
    this file calls and does not define. *)
Record TypeChecker := mkTC {
  tcGetTypeOfRValue : Ty -> Ty;
  tcGetOptionalType : Ty -> option Ty;
  tcFoundationLoaded : bool;
  (* results of the qualified lookup of NSCopying in Foundation: for each
     declaration found, its name and whether it is a protocol *)
  tcLookupNSCopying : list (Identifier * bool);
  tcConformsToProtocol : Ty -> Identifier -> bool;
  tcUnimplementedInitializerDecl : option DeclID
}.

Section Build.

(** Whether [assert] is compiled in. *)
Variable assertionsEnabled : bool.

Definition assert_ (cond : bool) (msg : string) : Sema unit :=
  if assertionsEnabled && negb cond then abort msg else ret tt.

(** [llvm_unreachable], and a [cast<>] of the wrong class. *)
Definition unreachable {A} (msg : string) : Sema A := abort msg.

(** A declaration as [addMemberToContextIfNeeded] receives it: its
    identity and its class, which the [cast<FuncDecl>] at file scope looks
    at.  The classes are the three this file hands over. *)
Inductive Decl :=
| AFuncDecl (d : DeclID)
| AVarDecl (d : DeclID)
| APatternBindingDecl (d : DeclID).

Definition declID (D : Decl) : DeclID :=
  match D with AFuncDecl d | AVarDecl d | APatternBindingDecl d => d end.

(** Insert the specified decl into the DeclContext's member list.  At
    file scope the declaration is cast to a function and added to the
    derived declarations. *)
Definition addMemberToContextIfNeeded (D : Decl) (dc : DeclContext)
    (hint : option DeclID) : Sema unit :=
  match dc with
  | NominalDC _ | ExtensionDC _ =>
      fun st => Done (tt, mkState (stDiags st) (stExternalDecls st)
                            (addMember (declID D) hint (stMembers st))
                            (stDerivedDecls st) (stRequests st) (stNextID st))
  | SourceFileDC _ =>
      match D with
      | AFuncDecl d =>
          fun st => Done (tt, mkState (stDiags st) (stExternalDecls st)
                                (stMembers st) (stDerivedDecls st ++ [d])
                                (stRequests st) (stNextID st))
      | AVarDecl _ | APatternBindingDecl _ => unreachable "cast<FuncDecl>"
      end
  | FunctionDC | FileUnitDC => ret tt
  end.

Definition getTypeOfStorage (TC : TypeChecker) (storage : AbstractStorageDecl)
  : Ty :=
  match sdDeclKind (sdInfo storage) with
  | IsVarDecl => tcGetTypeOfRValue TC (sdType (sdInfo storage))
  | IsSubscriptDecl _ elementType => elementType
  end.

(** Modelled from the spec: [ParameterList::clone] is declared outside
    this file; the list "is cloned ... with inherited/implicit flags set". *)
Definition cloneParam (implicit inherited : bool) (p : ParamDecl) : ParamDecl :=
  mkParam (pdArgumentName p) (pdName p) (pdType p) (pdIsLet p)
    (pdIsVariadic p) (pdIsImplicit p || implicit)
    (pdIsInherited p || inherited).

Definition cloneParameterList (implicit inherited : bool) (l : ParameterList)
  : ParameterList :=
  map (cloneParam implicit inherited) l.

(** Modelled from the spec: [createSelf] is declared outside this file;
    it is the "implicit self parameter" of the declaring type. *)
Definition createSelfParam (dc : DeclContext) (isInOut : bool) : ParamDecl :=
  let ty := match getDeclaredTypeInContext dc with
            | Some t => t
            | None => TyError
            end in
  mkParam noLabel "self" (if isInOut then TyInOut ty else ty) (negb isInOut)
    false true false.

Definition createSelf (dc : DeclContext) : ParameterList :=
  [createSelfParam dc false].

(** Build a parameter list which can forward the formal index parameters
    of a declaration. *)
Definition buildIndexForwardingParamList (storage : AbstractStorageDecl)
    (prefix : list ParamDecl) : ParameterList :=
  match sdDeclKind (sdInfo storage) with
  | IsVarDecl => prefix
  | IsSubscriptDecl subscriptIndices _ =>
      let indices := cloneParameterList true false subscriptIndices in
      match prefix with
      | [] => indices
      | _ => prefix ++ indices
      end
  end.

(** [FuncDecl::create]: a fresh function with the given signature. *)
Definition FuncDecl_create (params : list ParameterList) (resultTy : Ty)
    (dc : DeclContext) : Sema FuncDecl :=
  id <- allocDecl ;;
  ret (mkFunc id NotAccessor params resultTy dc false false false None
         [] [] None).

Definition createGetterPrototype (TC : TypeChecker)
    (storage : AbstractStorageDecl) : Sema FuncDecl :=
  let dc := sdDeclContext (sdInfo storage) in
  (* The implicit 'self' argument if in a type context. *)
  let getterParams :=
    (if isTypeContext dc then [createSelf dc] else [])
    (* Add an index-forwarding clause. *)
    ++ [buildIndexForwardingParamList storage []] in
  let storageType := getTypeOfStorage TC storage in
  getter <- FuncDecl_create getterParams storageType dc ;;
  let getter :=
    if sdIsGetterMutating (sdInfo storage) then fnSetMutating getter true
    else getter in
  (* If the var is marked final, then so is the getter. *)
  let getter := if sdIsFinal storage then makeFinalFunc getter else getter in
  let getter :=
    if sdIsStatic (sdInfo storage) then fnSetStatic getter true else getter in
  ret getter.

Definition createSetterPrototype (TC : TypeChecker)
    (storage : AbstractStorageDecl) : Sema (FuncDecl * ParamDecl) :=
  let dc := sdDeclContext (sdInfo storage) in
  let selfParams := if isTypeContext dc then [createSelf dc] else [] in
  (* Add a "(value : T, indices...)" argument list. *)
  let storageType := getTypeOfStorage TC storage in
  let valueDecl := buildLetArgument "value" storageType in
  let params :=
    selfParams ++ [buildIndexForwardingParamList storage [valueDecl]] in
  let setterRetTy := TupleType_getEmpty in
  setter <- FuncDecl_create params setterRetTy dc ;;
  let setter :=
    if negb (sdIsSetterNonMutating (sdInfo storage))
    then fnSetMutating setter true else setter in
  let setter := if sdIsFinal storage then makeFinalFunc setter else setter in
  let setter :=
    if sdIsStatic (sdInfo storage) then fnSetStatic setter true else setter in
  ret (setter, valueDecl).

(** Returns the type of the self argument of a materializeForSet
    callback. *)
Definition getSelfTypeForMaterializeForSetCallback (dc : DeclContext)
    (isStatic : bool) : Sema Ty :=
  match getDeclaredTypeInContext dc with
  | None =>
      assert_ (negb (isGenericContext dc))
        "no enclosing type for generic materializeForSet" ;;;
      ret TupleType_getEmpty
  | Some selfType =>
      (* If we're in a protocol, we want to actually use the Self type. *)
      let selfType :=
        match selfType with
        | TyProtocol p => TyArchetypeSelf p
        | t => t
        end in
      (* Use the metatype if this is a static member. *)
      if isStatic then ret (TyMetatype selfType false) else ret selfType
  end.

Definition needsDynamicMaterializeForSet (storage : AbstractStorageDecl) : bool :=
  sdIsDynamic storage || sdHasClangNode (sdInfo storage).

(** True if a generated accessor needs to be registered as an external
    decl. *)
Definition needsToBeRegisteredAsExternalDecl (storage : AbstractStorageDecl)
  : bool :=
  if sdHasClangNode (sdInfo storage) then true
  else match sdDeclContext (sdInfo storage) with
       | NominalDC nominal => ntdHasClangNode nominal
       | _ => false
       end.

Definition createMaterializeForSetReturnType (TC : TypeChecker)
    (storage : AbstractStorageDecl) : Sema Ty :=
  let dc := sdDeclContext (sdInfo storage) in
  if match getDeclaredTypeInContext dc with
     | Some t => isErrorType t
     | None => false
     end
  then ret TyError
  else
    callbackSelfType <-
      getSelfTypeForMaterializeForSetCallback dc (sdIsStatic (sdInfo storage)) ;;
    let callbackArgs :=
      [TyRawPointer; TyInOut TyUnsafeValueBuffer; TyInOut callbackSelfType;
       TyMetatype callbackSelfType true] in
    let callbackType :=
      TyFunction (TyTuple callbackArgs) TupleType_getEmpty true in
    (* Try to make the callback type optional. *)
    let optCallbackType :=
      match tcGetOptionalType TC callbackType with
      | Some t => t
      | None => callbackType
      end in
    ret (TyTuple [TyRawPointer; optCallbackType]).

Definition createMaterializeForSetPrototype (TC : TypeChecker)
    (storage : AbstractStorageDecl) : Sema FuncDecl :=
  let dc := sdDeclContext (sdInfo storage) in
  let selfParams := if isTypeContext dc then [createSelf dc] else [] in
  let bufferElements :=
    [buildLetArgument "buffer" TyRawPointer;
     buildInOutArgument "callbackStorage" TyUnsafeValueBuffer] in
  let params :=
    selfParams ++ [buildIndexForwardingParamList storage bufferElements] in
  retTy <- createMaterializeForSetReturnType TC storage ;;
  materializeForSet <- FuncDecl_create params retTy dc ;;
  (* materializeForSet is mutating and static if the setter is. *)
  match sdSetter storage with
  | None => unreachable "materializeForSet without a setter"
  | Some setter =>
      let materializeForSet :=
        fnSetMutating materializeForSet
          (isProtocolOrProtocolExtensionContext (fnDeclContext setter)
           || (negb (hasAttribute NonMutatingAttr (fnAttrs setter))
               && negb (sdIsSetterNonMutating (sdInfo storage)))) in
      let materializeForSet :=
        fnSetStatic materializeForSet (fnIsStatic setter) in
      (* materializeForSet is final if the storage is. *)
      let materializeForSet :=
        if sdIsFinal storage then makeFinalFunc materializeForSet
        else materializeForSet in
      let materializeForSet :=
        if needsDynamicMaterializeForSet storage
        then fnSetForcedStaticDispatch materializeForSet true
        else materializeForSet in
      (* Make sure materializeForSet is available enough to access the
         storage (and its getters/setters if it has them). *)
      let asAvailableAs :=
        [sdID (sdInfo storage)]
        ++ match sdGetter storage with Some g => [fnID g] | None => [] end
        ++ [fnID setter] in
      let materializeForSet :=
        fnSetAvailableAs materializeForSet asAvailableAs in
      (if needsToBeRegisteredAsExternalDecl storage
       then addExternalDecl (fnID materializeForSet) else ret tt) ;;;
      ret materializeForSet
  end.

(** Modelled from the spec: [makeComputed], [addTrivialAccessors] and
    [setMaterializeForSetFunc] are methods of the storage entity, declared
    outside this file; they install the accessors in the entity, and every
    "AccessorFunction" has "a kind" and an "owning StorageEntity". *)
Definition installAccessors (k : StorageKind) (get : FuncDecl)
    (set mat : option FuncDecl) (s : AbstractStorageDecl) : AbstractStorageDecl :=
  let tag kind := option_map (fun f => fnSetAccessorKind f kind) in
  sdSetMaterializeForSetFunc
    (sdSetSetter
       (sdSetGetter (sdSetStorageKind s k)
          (Some (fnSetAccessorKind get IsGetter)))
       (tag IsSetter set))
    (tag IsMaterializeForSet mat).

Definition makeComputed (s : AbstractStorageDecl) (get : FuncDecl)
    (set mat : option FuncDecl) : AbstractStorageDecl :=
  installAccessors Computed get set mat s.

Definition addTrivialAccessors (s : AbstractStorageDecl) (get : FuncDecl)
    (set mat : option FuncDecl) : AbstractStorageDecl :=
  installAccessors
    (match sdStorageKind s with
     | Addressed => AddressedWithTrivialAccessors
     | _ => StoredWithTrivialAccessors
     end) get set mat s.

Definition setMaterializeForSetFunc (s : AbstractStorageDecl) (mat : FuncDecl)
  : AbstractStorageDecl :=
  sdSetMaterializeForSetFunc s (Some (fnSetAccessorKind mat IsMaterializeForSet)).

(** ** Argument forwarding *)

(** The loop of [buildArgumentForwardingExpr]: [None] is its early
    [return nullptr]. *)
Fixpoint forwardParams (params : list ParamDecl) (labels : list Identifier)
    (args : list Expr) : option (list Identifier * list Expr) :=
  match params with
  | [] => Some (labels, args)
  | param :: rest =>
      (* We cannot express how to forward variadic parameters yet. *)
      if pdIsVariadic param then None
      else
        let ref := DeclRefExpr (VRParam param) Ordinary in
        let ref := if isInOutType (pdType param) then InOutExpr ref else ref in
        forwardParams rest (labels ++ [pdArgumentName param]) (args ++ [ref])
  end.

(** Build an expression that evaluates the specified parameter list as a
    tuple or paren expr, suitable for use in an applyexpr.  Returns null if
    a varargs parameter exists in the list. *)
Definition buildArgumentForwardingExpr (params : list ParamDecl) : option Expr :=
  match forwardParams params [] [] with
  | None => None
  | Some (labels, args) =>
      (* A single unlabelled value is not a tuple. *)
      match args, labels with
      | [a], l :: _ => if identEmpty l then Some a
                       else Some (TupleExpr args labels)
      | _, _ => Some (TupleExpr args labels)
      end
  end.

(** [ArrayRef::slice(1)]; slicing past the end is not defined. *)
Definition slice1 {A} (l : list A) : Sema (list A) :=
  match l with
  | [] => unreachable "ArrayRef::slice: invalid specifier"
  | _ :: r => ret r
  end.

(** Build a reference to the subscript index variables for this subscript
    accessor.  The result is the (possibly null) forwarding expression. *)
Definition buildSubscriptIndexReference (accessor : FuncDecl)
  : Sema (option Expr) :=
  let params := last (fnParameterLists accessor) [] in
  let accessorKind := fnAccessorKind accessor in
  (* Ignore the value/buffer parameter. *)
  params <- (if negb (AccessorKind_eqb accessorKind IsGetter)
             then slice1 params else ret params) ;;
  (* Ignore the materializeForSet callback storage parameter. *)
  params <- (if AccessorKind_eqb accessorKind IsMaterializeForSet
             then slice1 params else ret params) ;;
  (* Okay, everything else should be forwarded, build the expression. *)
  let result := buildArgumentForwardingExpr params in
  assert_ (match result with Some _ => true | None => false end)
    "FIXME: Cannot forward varargs" ;;;
  ret result.

(** ** Storage references *)

Inductive SelfAccessKind :=
| Peer    (* a derived accessor on top of whatever this class provides *)
| Super.  (* around an underlying implementation: storage, or inherited *)

Definition buildSelfReference (selfDecl : ParamDecl)
    (selfAccessKind : SelfAccessKind) : Expr :=
  match selfAccessKind with
  | Peer => DeclRefExpr (VRParam selfDecl) Ordinary
  | Super => SuperRefExpr selfDecl
  end.

(** A simple helper interface for buildStorageReference. *)
Record StorageReferenceContext := mkRefContext {
  (* the entity to use as the base of the access, or nil *)
  getSelfDecl : option ParamDecl;
  (* an expression producing the index value of a subscript *)
  getIndexRefExpr : Sema (option Expr)
}.

(** A reference to storage from within an accessor. *)
Definition AccessorStorageReferenceContext (accessor : FuncDecl)
  : StorageReferenceContext :=
  mkRefContext (getImplicitSelfDecl accessor)
               (buildSubscriptIndexReference accessor).

(** Build an l-value for the storage of a declaration. *)
Definition buildStorageReferenceIn (referenceContext : StorageReferenceContext)
    (storage : AbstractStorageDecl) (semantics : AccessSemantics)
    (selfAccessKind : SelfAccessKind) : Sema Expr :=
  match getSelfDecl referenceContext with
  | None => ret (DeclRefExpr (VRDecl (sdID (sdInfo storage))) semantics)
  | Some selfDecl =>
      (* If we should use a super access if applicable, and we have an
         overridden decl, then use ordinary access to it. *)
      let '(storage, semantics, selfAccessKind) :=
        match selfAccessKind with
        | Super =>
            match sdOverriddenDecl storage with
            | Some overridden => (overridden, Ordinary, Super)
            | None => (storage, semantics, Peer)
            end
        | Peer => (storage, semantics, Peer)
        end in
      let selfDRE := buildSelfReference selfDecl selfAccessKind in
      if isSubscriptDecl storage then
        indices <- getIndexRefExpr referenceContext ;;
        ret (SubscriptExpr selfDRE indices (sdID (sdInfo storage)) semantics)
      else
        ret (MemberRefExpr selfDRE (sdID (sdInfo storage)) semantics)
  end.

Definition buildStorageReference (accessor : FuncDecl)
    (storage : AbstractStorageDecl) (semantics : AccessSemantics)
    (selfAccessKind : SelfAccessKind) : Sema Expr :=
  buildStorageReferenceIn (AccessorStorageReferenceContext accessor)
    storage semantics selfAccessKind.

(** Load the value of VD.  If VD is an override of another value, we call
    the superclass getter.  Otherwise, we do a direct load of the value. *)
Definition createPropertyLoadOrCallSuperclassGetter (accessor : FuncDecl)
    (storage : AbstractStorageDecl) : Sema Expr :=
  buildStorageReference accessor storage DirectToStorage Super.

(** ** Trivial accessors *)

(** Look up the NSCopying protocol from the Foundation module, if present.
    Otherwise return null. *)
Definition getNSCopyingProtocol (TC : TypeChecker) : option Identifier :=
  if negb (tcFoundationLoaded TC) then None
  else
    match tcLookupNSCopying TC with
    | [(name, isProtocol)] => if isProtocol then Some name else None
    | _ => None
    end.

(** Synthesize the code to store 'Val' to 'VD', given that VD has an
    NSCopying attribute on it: "self.property = val.copyWithZone(nil)". *)
Definition synthesizeCopyWithZoneCall (TC : TypeChecker) (Val : Expr)
    (VD : AbstractStorageDecl) : Sema Expr :=
  let UnderlyingType := tcGetTypeOfRValue TC (sdType (sdInfo VD)) in
  let '(UnderlyingType, isOptional) :=
    match getAnyOptionalObjectType UnderlyingType with
    | Some optionalEltTy => (optionalEltTy, true)
    | None => (UnderlyingType, false)
    end in
  (* The element type must conform to NSCopying.  If not, emit an error and
     just recover by synthesizing without the copy call. *)
  if match getNSCopyingProtocol TC with
     | None => true
     | Some CopyingProto =>
         negb (tcConformsToProtocol TC UnderlyingType CopyingProto)
     end
  then
    diagnose (nscopying_doesnt_conform (sdID (sdInfo VD))) ;;;
    ret Val
  else
    (* If we have an optional type, we have to "?" the incoming value. *)
    let Val := if isOptional then BindOptionalExpr Val 0 else Val in
    let UDE := UnresolvedDotExpr Val (SimpleName "copyWithZone") in
    let Nil := ParenExpr NilLiteralExpr in
    let Call := CallExpr UDE Nil in
    (* If we're working with non-optional types, we're forcing the cast. *)
    if negb isOptional then ret (ForcedCheckedCastExpr Call UnderlyingType)
    else
      (* We're working with optional types, so perform a conditional
         checked downcast, and evaluate the "?". *)
      ret (OptionalEvaluationExpr
             (ConditionalCheckedCastExpr Call UnderlyingType)).

(** In a synthesized accessor body, store 'value' to the appropriate
    element: a call of the superclass setter if the property is an
    override, a direct store otherwise. *)
Definition createPropertyStoreOrCallSuperclassSetter (TC : TypeChecker)
    (accessor : FuncDecl) (value : Expr) (storage : AbstractStorageDecl)
    (body : list ASTNode) : Sema (list ASTNode) :=
  (* If the storage is an NSCopying property, then we store the result of
     a copyWithZone call on the value, not the value itself. *)
  value <- (if negb (isSubscriptDecl storage)
               && hasAttribute NSCopyingAttr (sdAttrs storage)
            then synthesizeCopyWithZoneCall TC value storage
            else ret value) ;;
  dest <- buildStorageReference accessor storage DirectToStorage Super ;;
  ret (body ++ [NodeExpr (AssignExpr dest value)]).

(** Mark the accessor as transparent if the storage is inside a
    fixed-layout nominal type. *)
Definition maybeMarkTransparent (accessor : FuncDecl)
    (storage : AbstractStorageDecl) : FuncDecl :=
  match isNominalTypeOrNominalTypeExtensionContext
          (sdDeclContext (sdInfo storage)) with
  | Some nominal =>
      if ntdHasFixedLayout nominal then fnAddAttr accessor TransparentAttr
      else accessor
  | None => accessor
  end.

(** Synthesize the body of a trivial getter. *)
Definition synthesizeTrivialGetter (getter : FuncDecl)
    (storage : AbstractStorageDecl) : Sema FuncDecl :=
  result <- createPropertyLoadOrCallSuperclassGetter getter storage ;;
  let returnStmt := NodeReturnStmt result in
  let getter := fnSetBody getter [returnStmt] in
  let getter := maybeMarkTransparent getter storage in
  (* Register the accessor as an external decl if the storage was
     imported. *)
  (if needsToBeRegisteredAsExternalDecl storage
   then addExternalDecl (fnID getter) else ret tt) ;;;
  ret getter.

(** Synthesize the body of a trivial setter. *)
Definition synthesizeTrivialSetter (TC : TypeChecker) (setter : FuncDecl)
    (storage : AbstractStorageDecl) (valueVar : ParamDecl) : Sema FuncDecl :=
  if sdIsInvalid (sdInfo storage) then ret setter
  else
    let valueDRE := DeclRefExpr (VRParam valueVar) Ordinary in
    setterBody <-
      createPropertyStoreOrCallSuperclassSetter TC setter valueDRE storage [] ;;
    let setter := fnSetBody setter setterBody in
    let setter := maybeMarkTransparent setter storage in
    (if needsToBeRegisteredAsExternalDecl storage
     then addExternalDecl (fnID setter) else ret tt) ;;;
    ret setter.

(** Does a storage decl currently lacking accessor functions require a
    setter to be synthesized? *)
Definition doesStorageNeedSetter (storage : AbstractStorageDecl) : Sema bool :=
  assert_ (negb (hasAccessorFunctions storage))
    "!storage->hasAccessorFunctions()" ;;;
  match sdStorageKind storage with
  (* Add a setter to a stored variable unless it's a let. *)
  | Stored =>
      if isSubscriptDecl storage then unreachable "cast<VarDecl>"
      else ret (negb (sdIsLet (sdInfo storage)))
  (* Addressed storage gets a setter if it has a mutable addressor. *)
  | Addressed =>
      ret (match sdMutableAddressor storage with
           | Some _ => true
           | None => false
           end)
  (* These should already have accessor functions. *)
  | StoredWithTrivialAccessors | StoredWithObservers
  | InheritedWithObservers | AddressedWithTrivialAccessors
  | AddressedWithObservers | ComputedWithMutableAddress =>
      unreachable "already has accessor functions"
  | Computed => unreachable "not stored"
  end.

(** The body of materializeForSet is actually emitted by SILGen. *)
Definition synthesizeMaterializeForSet (materializeForSet : FuncDecl)
    (storage : AbstractStorageDecl) : Sema FuncDecl :=
  let materializeForSet := maybeMarkTransparent materializeForSet storage in
  typeCheckDecl (fnID materializeForSet) true ;;;
  (if needsToBeRegisteredAsExternalDecl storage
   then addExternalDecl (fnID materializeForSet) else ret tt) ;;;
  ret materializeForSet.

(** Add a materializeForSet accessor to the given declaration. *)
Definition addMaterializeForSet (TC : TypeChecker)
    (storage : AbstractStorageDecl) : Sema (FuncDecl * AbstractStorageDecl) :=
  materializeForSet <- createMaterializeForSetPrototype TC storage ;;
  addMemberToContextIfNeeded (AFuncDecl (fnID materializeForSet))
    (sdDeclContext (sdInfo storage)) (option_map fnID (sdSetter storage)) ;;;
  let storage := setMaterializeForSetFunc storage materializeForSet in
  request (ReqComputeAccessibility (fnID materializeForSet)) ;;;
  validateDecl (fnID materializeForSet) ;;;
  match sdMaterializeForSetFunc storage with
  | Some materializeForSet => ret (materializeForSet, storage)
  | None => unreachable "materializeForSet was just set"
  end.

(** Add trivial accessors to a Stored or Addressed property. *)
Definition addTrivialAccessorsToStorage (TC : TypeChecker)
    (storage : AbstractStorageDecl) : Sema AbstractStorageDecl :=
  assert_ (negb (hasAccessorFunctions storage)) "already has accessors?" ;;;
  (* Create the getter. *)
  getter <- createGetterPrototype TC storage ;;
  (* Create the setter. *)
  needSetter <- doesStorageNeedSetter storage ;;
  setterAndValue <-
    (if needSetter
     then sv <- createSetterPrototype TC storage ;; ret (Some sv)
     else ret None) ;;
  (* Okay, we have both the getter and setter.  Set them in VD. *)
  let storage :=
    addTrivialAccessors storage getter (option_map fst setterAndValue) None in
  let isDynamic := sdIsDynamic storage && sdIsObjC (sdInfo storage) in
  let getter := fnSetAccessorKind getter IsGetter in
  let getter := if isDynamic then fnAddAttr getter DynamicAttr else getter in
  (* Synthesize and type-check the body of the getter. *)
  getter <- synthesizeTrivialGetter getter storage ;;
  typeCheckDecl (fnID getter) true ;;;
  typeCheckDecl (fnID getter) false ;;;
  let storage := sdSetGetter storage (Some getter) in
  storage <-
    match setterAndValue with
    | Some (setter, setterValueParam) =>
        let setter := fnSetAccessorKind setter IsSetter in
        let setter :=
          if isDynamic then fnAddAttr setter DynamicAttr else setter in
        (* Synthesize and type-check the body of the setter. *)
        setter <- synthesizeTrivialSetter TC setter storage setterValueParam ;;
        typeCheckDecl (fnID setter) true ;;;
        typeCheckDecl (fnID setter) false ;;;
        ret (sdSetSetter storage (Some setter))
    | None => ret storage
    end ;;
  let DC := sdDeclContext (sdInfo storage) in
  (* We've added some members to our containing context, add them to the
     right list. *)
  addMemberToContextIfNeeded (AFuncDecl (fnID getter)) DC None ;;;
  match sdSetter storage with
  | Some setter =>
      addMemberToContextIfNeeded (AFuncDecl (fnID setter)) DC None ;;;
      (* If we're creating trivial accessors for a stored property of a
         nominal type, we need to expose a materializeForSet.  Global
         stored properties don't get a materializeForSet. *)
      match isNominalTypeOrNominalTypeExtensionContext DC with
      | Some _ =>
          ms <- addMaterializeForSet TC storage ;;
          let '(materializeForSet, storage) := ms in
          materializeForSet <-
            synthesizeMaterializeForSet materializeForSet storage ;;
          typeCheckDecl (fnID materializeForSet) false ;;;
          ret (sdSetMaterializeForSetFunc storage (Some materializeForSet))
      | None => ret storage
      end
  | None => ret storage
  end.

(** Consider adding a materializeForSet accessor to the given storage
    decl (which has accessors). *)
Definition maybeAddMaterializeForSet (TC : TypeChecker)
    (storage : AbstractStorageDecl) : Sema AbstractStorageDecl :=
  assert_ (hasAccessorFunctions storage) "storage->hasAccessorFunctions()" ;;;
  (* Be idempotent. *)
  match sdMaterializeForSetFunc storage with
  | Some _ => ret storage
  | None =>
  (* Never add materializeForSet to readonly declarations. *)
  match sdSetter storage with
  | None => ret storage
  | Some _ =>
  (* Don't bother if the declaration is invalid. *)
  if sdIsInvalid (sdInfo storage) then ret storage else
  (* We only need materializeForSet in polymorphic contexts: *)
  match isNominalTypeOrNominalTypeExtensionContext
          (sdDeclContext (sdInfo storage)) with
  | None => ret storage
  | Some container =>
      let add := ms <- addMaterializeForSet TC storage ;; ret (snd ms) in
      match ntdKind container with
      (* - in non-ObjC protocols, but not protocol extensions. *)
      | ProtocolDecl =>
          if ntdIsObjC container then ret storage
          else if isProtocolExtensionContext (sdDeclContext (sdInfo storage))
          then ret storage
          else add
      (* - in classes when the storage decl is not final and does not
           override a decl that requires a materializeForSet *)
      | ClassDecl =>
          if sdIsFinal storage then
            match sdOverriddenDecl storage with
            | None => ret storage
            | Some overridden =>
                match sdMaterializeForSetFunc overridden with
                | None => ret storage
                | Some _ => add
                end
            end
          else add
      (* Enums don't need this. *)
      | EnumDecl => ret storage
      (* Structs imported by Clang don't need this, because we can
         synthesize it later. *)
      | StructDecl =>
          if ntdHasClangNode container then ret storage else add
      end
  end end end.

(** ** Observing accessors *)

(** [getParameterLists().back()->get(index)] *)
Definition getParamDeclAtIndex (fn : FuncDecl) (index : nat) : Sema ParamDecl :=
  match nth_error (last (fnParameterLists fn) []) index with
  | Some p => ret p
  | None => unreachable "ParameterList::get: index out of range"
  end.

Definition getFirstParamDecl (fn : FuncDecl) : Sema ParamDecl :=
  getParamDeclAtIndex fn 0.

(** The call of an observer: [willSet(arg)] or [self.willSet(arg)]. *)
Definition observerCall (observer : FuncDecl) (SelfDecl : option ParamDecl)
    (arg : Expr) : Expr :=
  let Callee := DeclRefExpr (VRDecl (fnID observer)) Ordinary in
  let Callee :=
    match SelfDecl with
    | Some self => DotSyntaxCallExpr Callee (DeclRefExpr (VRParam self) Ordinary)
    | None => Callee
    end in
  CallExpr Callee arg.

(** Make sure the didSet/willSet accessors are marked final if in a
    class. *)
Definition finalizeObserver (VD : AbstractStorageDecl) (observer : FuncDecl)
  : FuncDecl :=
  if negb (fnIsFinal observer)
     && isClassOrClassExtensionContext (sdDeclContext (sdInfo VD))
  then makeFinalFunc observer else observer.

(** Given a VarDecl with a willSet: and/or didSet: specifier, synthesize
    the (trivial) getter and the setter, which calls these. *)
Definition synthesizeObservingAccessors (TC : TypeChecker)
    (VD : AbstractStorageDecl) : Sema AbstractStorageDecl :=
  assert_ (hasObservers VD) "VD->hasObservers()" ;;;
  assert_ (match sdGetter VD, sdSetter VD with
           | Some g, Some s =>
               match fnBody g, fnBody s with
               | None, None => true
               | _, _ => false
               end
           | _, _ => false
           end) "willSet/didSet var already has a getter or setter" ;;;
  match sdGetter VD, sdSetter VD with
  | Some Get, Some Set_ =>
      (* The getter is always trivial: just perform a (direct!) load of
         storage, or a call of a superclass getter if this is an
         override. *)
      Get <- synthesizeTrivialGetter Get VD ;;
      let VD := sdSetGetter VD (Some Get) in
      (* Okay, the getter is done, create the setter now.  Start by
         finding the decls for 'self' and 'value'. *)
      let SelfDecl := getImplicitSelfDecl Set_ in
      ValueDecl <- getParamDeclAtIndex Set_ 0 ;;
      (* If there is a didSet, it will take the old value.  Load it into a
         temporary 'let' so we have it for later. *)
      let OldValue := mkLocal "tmp" true None in
      SetterBody <-
        match sdDidSetFunc VD with
        | Some _ =>
            OldValueExpr <- createPropertyLoadOrCallSuperclassGetter Set_ VD ;;
            let tmpPattern := NamedPattern (lvName OldValue) in
            let tmpPBD := NodePatternBindingDecl tmpPattern (Some OldValueExpr) in
            ret [tmpPBD; NodeVarDecl OldValue]
        | None => ret []
        end ;;
      (* Create: (call_expr (dot_syntax_call_expr willSet self) value) *)
      let '(SetterBody, VD) :=
        match sdWillSetFunc VD with
        | Some willSet =>
            let ValueDRE := DeclRefExpr (VRParam ValueDecl) Ordinary in
            (SetterBody ++ [NodeExpr (observerCall willSet SelfDecl ValueDRE)],
             sdSetWillSetFunc VD (Some (finalizeObserver VD willSet)))
        | None => (SetterBody, VD)
        end in
      (* Create an assignment into the storage or call to superclass
         setter. *)
      let ValueDRE := DeclRefExpr (VRParam ValueDecl) Ordinary in
      SetterBody <-
        createPropertyStoreOrCallSuperclassSetter TC Set_ ValueDRE VD
          SetterBody ;;
      (* Create: (call_expr (dot_syntax_call_expr didSet self) tmp) *)
      let '(SetterBody, VD) :=
        match sdDidSetFunc VD with
        | Some didSet =>
            let OldValueExpr := DeclRefExpr (VRLocal (lvName OldValue)) Ordinary in
            (SetterBody ++ [NodeExpr (observerCall didSet SelfDecl OldValueExpr)],
             sdSetDidSetFunc VD (Some (finalizeObserver VD didSet)))
        | None => (SetterBody, VD)
        end in
      let Set_ := fnSetBody Set_ SetterBody in
      let VD := sdSetSetter VD (Some Set_) in
      (* Type check the body of the getter and setter. *)
      typeCheckDecl (fnID Get) true ;;;
      typeCheckDecl (fnID Get) false ;;;
      typeCheckDecl (fnID Set_) true ;;;
      typeCheckDecl (fnID Set_) false ;;;
      ret VD
  | _, _ => unreachable "observing property without getter or setter"
  end.

Definition convertNSManagedStoredVarToComputed (TC : TypeChecker)
    (VD : AbstractStorageDecl) : Sema AbstractStorageDecl :=
  assert_ (match sdStorageKind VD with Stored => true | _ => false end)
    "VD->getStorageKind() == AbstractStorageDecl::Stored" ;;;
  Get <- createGetterPrototype TC VD ;;
  sv <- createSetterPrototype TC VD ;;
  let Set_ := fst sv in
  let VD := makeComputed VD Get (Some Set_) None in
  validateDecl (fnID Get) ;;;
  validateDecl (fnID Set_) ;;;
  addMemberToContextIfNeeded (AFuncDecl (fnID Get)) (sdDeclContext (sdInfo VD))
    None ;;;
  addMemberToContextIfNeeded (AFuncDecl (fnID Set_)) (sdDeclContext (sdInfo VD))
    None ;;;
  ret VD.

(** ** Lazy properties *)

(** [RecontextualizeClosures]: explore an expression tree looking for
    closures and change their parent to [NewDC]; a closure is not walked
    into, the declarations of a capture list are recontextualized as
    well. *)
Fixpoint recontextualizeClosures (NewDC : ClosureParent) (E : Expr) : Expr :=
  let walk := recontextualizeClosures NewDC in
  match E with
  | ClosureExpr id _ => ClosureExpr id NewDC
  | CaptureListExpr captures closure =>
      CaptureListExpr
        (map (fun c => (fst (fst c), NewDC, NewDC)) captures) (walk closure)
  | DeclRefExpr _ _ | SuperRefExpr _ | NilLiteralExpr
  | StringLiteralExpr _ => E
  | MemberRefExpr base m sem => MemberRefExpr (walk base) m sem
  | SubscriptExpr base index d sem =>
      SubscriptExpr (walk base) (option_map walk index) d sem
  | InOutExpr e => InOutExpr (walk e)
  | TupleExpr elts labels => TupleExpr (map walk elts) labels
  | ParenExpr e => ParenExpr (walk e)
  | CallExpr fn arg => CallExpr (walk fn) (walk arg)
  | DotSyntaxCallExpr fn base => DotSyntaxCallExpr (walk fn) (walk base)
  | UnresolvedDotExpr base n => UnresolvedDotExpr (walk base) n
  | AssignExpr dest src => AssignExpr (walk dest) (walk src)
  | BindOptionalExpr e d => BindOptionalExpr (walk e) d
  | OptionalEvaluationExpr e => OptionalEvaluationExpr (walk e)
  | ForceValueExpr e => ForceValueExpr (walk e)
  | ForcedCheckedCastExpr e t => ForcedCheckedCastExpr (walk e) t
  | ConditionalCheckedCastExpr e t => ConditionalCheckedCastExpr (walk e) t
  | TryExpr e => TryExpr (walk e)
  | OptionalToBoolExpr e => OptionalToBoolExpr (walk e)
  | UserExpr id children => UserExpr id (map walk children)
  end.

(** Synthesize the getter for a lazy property with the specified storage
    vardecl.  The pattern generated is:
<<
     get {
       let tmp1 = storage
       if tmp1 { return tmp1! }
       let tmp2 : Ty = <<initializer expression>>
       storage = tmp2
       return tmp2
     }
>>
    Returns the getter, and the property with its initializer taken
    away. *)
Definition completeLazyPropertyGetter (TC : TypeChecker)
    (VD Storage : AbstractStorageDecl) : Sema (FuncDecl * AbstractStorageDecl) :=
  match sdGetter VD with
  | None => unreachable "lazy property without a getter"
  | Some Get =>
      validateDecl (fnID Get) ;;;
      (* Load the existing storage and store it into the 'tmp1'
         temporary. *)
      let Tmp1VD := mkLocal "tmp1" true None in
      let Tmp1PBDPattern := NamedPattern (lvName Tmp1VD) in
      Tmp1Init <- createPropertyLoadOrCallSuperclassGetter Get Storage ;;
      let Tmp1PBD := NodePatternBindingDecl Tmp1PBDPattern (Some Tmp1Init) in
      let Body := [Tmp1PBD; NodeVarDecl Tmp1VD] in
      (* Build the early return inside the if. *)
      let Tmp1DRE := DeclRefExpr (VRLocal (lvName Tmp1VD)) DirectToStorage in
      let EarlyReturnVal := ForceValueExpr Tmp1DRE in
      let Return := NodeReturnStmt EarlyReturnVal in
      (* Build the "if" around the early return: call through "hasValue"
         on the decl ref.  The conversion of the optional to a condition
         is the constraint solver's; [OptionalToBoolExpr] stands for its
         result, "the temporary holds a value". *)
      let Tmp1DRE := DeclRefExpr (VRLocal (lvName Tmp1VD)) DirectToStorage in
      let HasValueExpr := OptionalToBoolExpr Tmp1DRE in
      let Body := Body ++ [NodeIfStmt HasValueExpr Return None] in
      let Tmp2VD := mkLocal "tmp2" true (Some (sdType (sdInfo VD))) in
      (* Take the initializer from the PatternBindingDecl for VD. *)
      match sdParentInitializer VD with
      | None => unreachable "lazy property without an initializer"
      | Some InitValue =>
          let VD := sdSetParentInitializer VD None in
          (* Recontextualize any closure declcontexts nested in the
             initializer to realize that they are in the getter
             function. *)
          let InitValue :=
            recontextualizeClosures (ParentFunc (fnID Get)) InitValue in
          let Tmp2PBDPattern :=
            TypedPattern (NamedPattern (lvName Tmp2VD)) (sdType (sdInfo VD)) in
          let Tmp2PBD := NodePatternBindingDecl Tmp2PBDPattern (Some InitValue) in
          let Body := Body ++ [Tmp2PBD; NodeVarDecl Tmp2VD] in
          (* Assign tmp2 into storage. *)
          let Tmp2DRE := DeclRefExpr (VRLocal (lvName Tmp2VD)) DirectToStorage in
          Body <-
            createPropertyStoreOrCallSuperclassSetter TC Get Tmp2DRE Storage
              Body ;;
          (* Return tmp2. *)
          let Tmp2DRE := DeclRefExpr (VRLocal (lvName Tmp2VD)) DirectToStorage in
          let Body := Body ++ [NodeReturnStmt Tmp2DRE] in
          let Get := fnSetBody Get Body in
          ret (Get, sdSetGetter VD (Some Get))
      end
  end.

(** [new VarDecl(isStatic false, isLet false, name, StorageTy, DC)] *)
Definition newStorageVarDecl (VD : AbstractStorageDecl) (id : DeclID)
    (name : Identifier) (ty : Ty) : AbstractStorageDecl :=
  mkStorage
    (mkInfo id name IsVarDecl ty (sdDeclContext (sdInfo VD)) false false false
       false false false false (sdHasFixedLayout (sdInfo VD)))
    None Stored [] false false true None None None None None None None None
    None.

Definition completeLazyVarImplementation (TC : TypeChecker)
    (VD : AbstractStorageDecl)
  : Sema (AbstractStorageDecl * AbstractStorageDecl) :=
  assert_ (hasAttribute LazyAttr (sdAttrs VD))
    "VD->getAttrs().hasAttribute<LazyAttr>()" ;;;
  assert_ (match sdStorageKind VD with Computed => true | _ => false end)
    "variable not validated yet" ;;;
  assert_ (negb (sdIsStatic (sdInfo VD)))
    "Static vars are already lazy on their own" ;;;
  (* Create the storage property as an optional of VD's type. *)
  let StorageName := (sdName (sdInfo VD) ++ ".storage")%string in
  let StorageTy := TyOptional (sdType (sdInfo VD)) in
  id <- allocDecl ;;
  let Storage := newStorageVarDecl VD id StorageName StorageTy in
  let Storage := sdSetUserAccessible Storage false in
  let DC := sdDeclContext (sdInfo VD) in
  addMemberToContextIfNeeded (AVarDecl (sdID (sdInfo Storage))) DC
    (Some (sdID (sdInfo VD))) ;;;
  (* Create the pattern binding decl for the storage decl.  This will get
     default initialized to nil. *)
  PBD <- allocDecl ;;
  addMemberToContextIfNeeded (APatternBindingDecl PBD) DC None ;;;
  (* Now that we've got the storage squared away, synthesize the
     getter. *)
  gv <- completeLazyPropertyGetter TC VD Storage ;;
  let '(Get, VD) := gv in
  (* The setter just forwards on to storage without materializing the
     initial value. *)
  match sdSetter VD with
  | None => unreachable "lazy property without a setter"
  | Some Set_ =>
      validateDecl (fnID Set_) ;;;
      SetValueDecl <- getFirstParamDecl Set_ ;;
      Set_ <- synthesizeTrivialSetter TC Set_ Storage SetValueDecl ;;
      let VD := sdSetSetter VD (Some Set_) in
      (* Mark the vardecl to be final, implicit, and private. *)
      let Storage :=
        if isClassOrClassExtensionContext DC then makeFinalStorage Storage
        else Storage in
      let Storage := sdSetImplicit Storage true in
      let Storage := sdSetAccessibility Storage (Some Private) in
      let Storage := sdSetSetterAccessibility Storage (Some Private) in
      typeCheckDecl (fnID Get) true ;;;
      typeCheckDecl (fnID Get) false ;;;
      typeCheckDecl (fnID Set_) true ;;;
      typeCheckDecl (fnID Set_) false ;;;
      ret (VD, Storage)
  end.

(** Modelled from the spec: [getFormalAccess] is declared outside this
    file; it is the entity's "accessibility level", once computed. *)
Definition getFormalAccess (s : AbstractStorageDecl) : Sema Accessibility :=
  match sdAccessibility s with
  | Some a => ret a
  | None => unreachable "accessibility not computed yet"
  end.

Definition maybeAddAccessorsToVariable (TC : TypeChecker)
    (enclosingFile : option SourceFileKind)
    (var : AbstractStorageDecl) : Sema AbstractStorageDecl :=
  (* If we've already synthesized accessors or are currently in the
     process of doing so, don't proceed. *)
  if match sdGetter var with Some _ => true | None => false end
     || sdIsBeingTypeChecked var
  then ret var
  (* Local variables don't get accessors. *)
  else if isLocalContext (sdDeclContext (sdInfo var)) then ret var
  else
    assert_ (negb (hasAccessorFunctions var)) "!var->hasAccessorFunctions()" ;;;
    (* Lazy properties require special handling. *)
    if hasAttribute LazyAttr (sdAttrs var) then
      let var := sdSetIsBeingTypeChecked var true in
      getter <- createGetterPrototype TC var ;;
      (* lazy getters are mutating on an enclosing value type. *)
      let getter :=
        if negb (isClassOrClassExtensionContext (sdDeclContext (sdInfo var)))
        then fnSetMutating getter true else getter in
      access <- getFormalAccess var ;;
      let getter := fnSetAccessibility getter access in
      sv <- createSetterPrototype TC var ;;
      let setter := fst sv in
      let var := makeComputed var getter (Some setter) None in
      let var := sdSetIsBeingTypeChecked var false in
      validateDecl (fnID getter) ;;;
      validateDecl (fnID setter) ;;;
      addMemberToContextIfNeeded (AFuncDecl (fnID getter))
        (sdDeclContext (sdInfo var))
        None ;;;
      addMemberToContextIfNeeded (AFuncDecl (fnID setter))
        (sdDeclContext (sdInfo var))
        None ;;;
      ret var
    (* Implicit properties don't get accessors. *)
    else if sdIsImplicit var then ret var
    else
      let addTrivial :=
        (* Stored properties in SIL mode don't get accessors. *)
        match getParentSourceFile enclosingFile (sdDeclContext (sdInfo var)) with
        | Some SFSIL => ret var
        | _ =>
            (* Everything else gets accessors. *)
            let var := sdSetIsBeingTypeChecked var true in
            var <- addTrivialAccessorsToStorage TC var ;;
            ret (sdSetIsBeingTypeChecked var false)
        end in
      match isNominalTypeOrNominalTypeExtensionContext
              (sdDeclContext (sdInfo var)) with
      | None =>
          (* Fixed-layout global variables don't get accessors. *)
          if sdHasFixedLayout (sdInfo var) then ret var else addTrivial
      | Some nominal =>
          match ntdKind nominal with
          (* Stored properties in protocols are converted to computed
             elsewhere. *)
          | ProtocolDecl => ret var
          (* NSManaged properties on classes require special handling. *)
          | ClassDecl =>
              if hasAttribute NSManagedAttr (sdAttrs var) then
                let var := sdSetIsBeingTypeChecked var true in
                var <- convertNSManagedStoredVarToComputed TC var ;;
                ret (sdSetIsBeingTypeChecked var false)
              else addTrivial
          (* Stored properties imported from Clang don't get accessors. *)
          | StructDecl =>
              if ntdHasClangNode nominal then ret var else addTrivial
          | EnumDecl => addTrivial
          end
      end.

(** ** Initializers *)

Inductive OptionalTypeKind :=
| OTK_None | OTK_Optional | OTK_ImplicitlyUnwrappedOptional.

Record ConstructorDecl := mkCtor {
  cdID : DeclID;
  cdFullName : DeclName;
  cdFailability : OptionalTypeKind;
  cdSelfParam : ParamDecl;
  cdParams : ParameterList;
  cdDeclContext : NominalTypeDecl;
  cdInitializerTypeIsGeneric : bool;
  cdAccessibility : option Accessibility;
  cdAttrs : list DeclAttr;
  cdIsMemberwiseInitializer : bool;
  cdIsBodyThrowing : bool;
  cdIsObjC : bool;
  cdForeignErrorConvention : option nat;
  cdAvailableAs : list DeclID;
  cdBody : option BraceStmt;
  cdIsStubImplementation : bool
}.

Definition cdSetAccessibility (c : ConstructorDecl) (x : Accessibility) :
    ConstructorDecl :=
  mkCtor (cdID c) (cdFullName c) (cdFailability c) (cdSelfParam c) (cdParams
    c) (cdDeclContext c) (cdInitializerTypeIsGeneric c) (Some x) (cdAttrs c)
    (cdIsMemberwiseInitializer c) (cdIsBodyThrowing c) (cdIsObjC c)
    (cdForeignErrorConvention c) (cdAvailableAs c) (cdBody c)
    (cdIsStubImplementation c).

Definition cdAddAttr (c : ConstructorDecl) (x : DeclAttr) : ConstructorDecl :=
  mkCtor (cdID c) (cdFullName c) (cdFailability c) (cdSelfParam c) (cdParams
    c) (cdDeclContext c) (cdInitializerTypeIsGeneric c) (cdAccessibility c)
    (x :: cdAttrs c) (cdIsMemberwiseInitializer c) (cdIsBodyThrowing c)
    (cdIsObjC c) (cdForeignErrorConvention c) (cdAvailableAs c) (cdBody c)
    (cdIsStubImplementation c).

Definition cdSetIsMemberwiseInitializer (c : ConstructorDecl) (x : bool) :
    ConstructorDecl :=
  mkCtor (cdID c) (cdFullName c) (cdFailability c) (cdSelfParam c) (cdParams
    c) (cdDeclContext c) (cdInitializerTypeIsGeneric c) (cdAccessibility c)
    (cdAttrs c) x (cdIsBodyThrowing c) (cdIsObjC c)
    (cdForeignErrorConvention c) (cdAvailableAs c) (cdBody c)
    (cdIsStubImplementation c).

Definition cdSetBodyThrowing (c : ConstructorDecl) (x : bool) :
    ConstructorDecl :=
  mkCtor (cdID c) (cdFullName c) (cdFailability c) (cdSelfParam c) (cdParams
    c) (cdDeclContext c) (cdInitializerTypeIsGeneric c) (cdAccessibility c)
    (cdAttrs c) (cdIsMemberwiseInitializer c) x (cdIsObjC c)
    (cdForeignErrorConvention c) (cdAvailableAs c) (cdBody c)
    (cdIsStubImplementation c).

Definition cdSetAvailableAs (c : ConstructorDecl) (x : list DeclID) :
    ConstructorDecl :=
  mkCtor (cdID c) (cdFullName c) (cdFailability c) (cdSelfParam c) (cdParams
    c) (cdDeclContext c) (cdInitializerTypeIsGeneric c) (cdAccessibility c)
    (cdAttrs c) (cdIsMemberwiseInitializer c) (cdIsBodyThrowing c) (cdIsObjC
    c) (cdForeignErrorConvention c) x (cdBody c) (cdIsStubImplementation c).

Definition cdSetBody (c : ConstructorDecl) (x : BraceStmt) : ConstructorDecl
    :=
  mkCtor (cdID c) (cdFullName c) (cdFailability c) (cdSelfParam c) (cdParams
    c) (cdDeclContext c) (cdInitializerTypeIsGeneric c) (cdAccessibility c)
    (cdAttrs c) (cdIsMemberwiseInitializer c) (cdIsBodyThrowing c) (cdIsObjC
    c) (cdForeignErrorConvention c) (cdAvailableAs c) (Some x)
    (cdIsStubImplementation c).

Definition cdSetStubImplementation (c : ConstructorDecl) (x : bool) :
    ConstructorDecl :=
  mkCtor (cdID c) (cdFullName c) (cdFailability c) (cdSelfParam c) (cdParams
    c) (cdDeclContext c) (cdInitializerTypeIsGeneric c) (cdAccessibility c)
    (cdAttrs c) (cdIsMemberwiseInitializer c) (cdIsBodyThrowing c) (cdIsObjC
    c) (cdForeignErrorConvention c) (cdAvailableAs c) (cdBody c) x.

(** [markAsObjC] with the foreign error convention of the overridden
    initializer. *)
Definition cdMarkAsObjC (c : ConstructorDecl) (errorConvention : option nat)
  : ConstructorDecl :=
  mkCtor (cdID c) (cdFullName c) (cdFailability c) (cdSelfParam c) (cdParams c)
    (cdDeclContext c) (cdInitializerTypeIsGeneric c) (cdAccessibility c)
    (cdAttrs c) (cdIsMemberwiseInitializer c) (cdIsBodyThrowing c) true
    errorConvention (cdAvailableAs c) (cdBody c) (cdIsStubImplementation c).

(** [new ConstructorDecl(name, failability, selfParam, paramList, decl)] *)
Definition ConstructorDecl_new (name : DeclName) (failability : OptionalTypeKind)
    (selfParam : ParamDecl) (paramList : ParameterList)
    (decl : NominalTypeDecl) : Sema ConstructorDecl :=
  id <- allocDecl ;;
  ret (mkCtor id name failability selfParam paramList decl false None []
         false false false None [] None false).

Inductive ImplicitConstructorKind := Default | Memberwise.

(** The parameters of the memberwise initializer: the loop over the
    stored properties, with the access level it narrows. *)
Fixpoint memberwiseParams (TC : TypeChecker) (vars : list AbstractStorageDecl)
    (accessLevel : Accessibility) (params : list ParamDecl)
  : Sema (Accessibility * list ParamDecl) :=
  match vars with
  | [] => ret (accessLevel, params)
  | var :: rest =>
      if sdIsImplicit var then memberwiseParams TC rest accessLevel params
      else
        validateDecl (sdID (sdInfo var)) ;;;
        (* Initialized 'let' properties have storage, but don't get an
           argument to the memberwise initializer since they already have
           an initial value that cannot be overridden. *)
        if sdIsLet (sdInfo var)
           && match sdParentInitializer var with
              | Some _ => true
              | None => false
              end
        then memberwiseParams TC rest accessLevel params
        else
          access <- getFormalAccess var ;;
          let accessLevel := accessMin accessLevel access in
          let varType := tcGetTypeOfRValue TC (sdType (sdInfo var)) in
          (* If var is a lazy property, its value is provided for the
             underlying storage.  We thus take an optional of the
             properties type. *)
          let varType :=
            if hasAttribute LazyAttr (sdAttrs var) then TyOptional varType
            else varType in
          (* Create the parameter. *)
          let arg :=
            mkParam (sdName (sdInfo var)) (sdName (sdInfo var)) varType true
              false true false in
          memberwiseParams TC rest accessLevel (params ++ [arg])
  end.

(** Create an implicit struct or class constructor. *)
Definition createImplicitConstructor (tc : TypeChecker)
    (decl : NominalTypeDecl) (storedProperties : list AbstractStorageDecl)
    (ICK : ImplicitConstructorKind) : Sema ConstructorDecl :=
  let accessLevel := ntdFormalAccess decl in
  let accessLevel :=
    if negb (ntdHasClangNode decl) then accessMin accessLevel Internal
    else accessLevel in
  (* Determine the parameter type of the implicit constructor. *)
  ap <-
    match ICK with
    | Memberwise =>
        assert_ (match ntdKind decl with StructDecl => true | _ => false end)
          "Only struct have memberwise constructor" ;;;
        memberwiseParams tc storedProperties accessLevel []
    | Default => ret (accessLevel, [])
    end ;;
  let '(accessLevel, paramList) := ap in
  (* Create the constructor. *)
  let name := CompoundName "init" (map pdArgumentName paramList) in
  let selfParam := createSelfParam (NominalDC decl) true in
  ctor <- ConstructorDecl_new name OTK_None selfParam paramList decl ;;
  let ctor := cdSetAccessibility ctor accessLevel in
  let ctor :=
    match ICK with
    | Memberwise => cdSetIsMemberwiseInitializer ctor true
    | Default => ctor
    end in
  (* If we are defining a default initializer for a class that has a
     superclass, it overrides the default initializer of its superclass. *)
  let ctor :=
    match ntdKind decl with
    | ClassDecl =>
        if ntdHasSuperclass decl then cdAddAttr ctor OverrideAttr else ctor
    | _ => ctor
    end in
  (* Type-check the constructor declaration. *)
  typeCheckDecl (cdID ctor) true ;;;
  (* If the struct in which this constructor is being added was imported,
     add it as an external definition. *)
  (if ntdHasClangNode decl then addExternalDecl (cdID ctor) else ret tt) ;;;
  ret ctor.

(** Create a stub body that emits a fatal error message. *)
Definition createStubBody (tc : TypeChecker) (ctor : ConstructorDecl)
  : Sema ConstructorDecl :=
  let classDecl := cdDeclContext ctor in
  match tcUnimplementedInitializerDecl tc with
  | None =>
      diagnose (missing_unimplemented_init_runtime (ntdName classDecl)) ;;;
      ret ctor
  | Some unimplementedInitDecl =>
      (* Create a call to Swift._unimplemented_initializer *)
      let fn := DeclRefExpr (VRDecl unimplementedInitDecl) Ordinary in
      let fullClassName :=
        (ntdModuleName classDecl ++ "." ++ ntdName classDecl)%string in
      let className := ParenExpr (StringLiteralExpr fullClassName) in
      let call := CallExpr fn className in
      let ctor := cdSetBody ctor [NodeExpr call] in
      (* Note that this is a stub implementation. *)
      ret (cdSetStubImplementation ctor true)
  end.

Inductive DesignatedInitKind := Stub | Chaining.

Definition getObjCAttrName (attrs : list DeclAttr) : option (option Identifier) :=
  match find (DeclAttr_same (ObjCAttr None)) attrs with
  | Some (ObjCAttr n) => Some n
  | _ => None
  end.

Definition createDesignatedInitOverride (tc : TypeChecker)
    (classDecl : NominalTypeDecl) (superclassCtor : ConstructorDecl)
    (kind : DesignatedInitKind) : Sema (option ConstructorDecl) :=
  (* Determine the initializer parameters. *)
  if cdInitializerTypeIsGeneric superclassCtor || ntdIsGeneric classDecl
  then
    (* FIXME: Handle generic initializers as well. *)
    ret None
  else
    (* Create the 'self' declaration and patterns. *)
    let selfDecl := createSelfParam (NominalDC classDecl) false in
    (* Create the initializer parameter patterns. *)
    let bodyParams := cloneParameterList true true (cdParams superclassCtor) in
    (* Create the initializer declaration. *)
    ctor <- ConstructorDecl_new (cdFullName superclassCtor)
              (cdFailability superclassCtor) selfDecl bodyParams classDecl ;;
    superAccess <-
      match cdAccessibility superclassCtor with
      | Some a => ret a
      | None => unreachable "accessibility not computed yet"
      end ;;
    let ctor :=
      cdSetAccessibility ctor (accessMin (ntdFormalAccess classDecl) superAccess) in
    (* Make sure the constructor is only as available as its superclass's
       constructor. *)
    let ctor := cdSetAvailableAs ctor [cdID superclassCtor] in
    (* Set the type of the initializer. *)
    let ctor := cdSetBodyThrowing ctor (cdIsBodyThrowing superclassCtor) in
    let ctor :=
      if cdIsObjC superclassCtor then
        let ctor := cdMarkAsObjC ctor (cdForeignErrorConvention superclassCtor) in
        (* Inherit the objc name from the superclass initializer, if it
           has one. *)
        match getObjCAttrName (cdAttrs superclassCtor) with
        | Some (Some n) => cdAddAttr ctor (ObjCAttr (Some n))
        | _ => ctor
        end
      else ctor in
    let ctor :=
      if hasAttribute RequiredAttr (cdAttrs superclassCtor)
      then cdAddAttr ctor RequiredAttr else ctor in
    (* Wire up the overrides. *)
    let ctor := cdAddAttr ctor OverrideAttr in
    request (ReqCheckOverrides (cdID ctor)) ;;;
    match kind with
    | Stub =>
        (* Make this a stub implementation. *)
        ctor <- createStubBody tc ctor ;;
        ret (Some ctor)
    | Chaining =>
        (* Form the body of a chaining designated initializer: reference
           to super.init. *)
        let superRef := SuperRefExpr selfDecl in
        let ctorRef := UnresolvedDotExpr superRef (cdFullName superclassCtor) in
        match buildArgumentForwardingExpr bodyParams with
        | None =>
            (* If buildArgumentForwardingExpr failed, then it was because
               we tried to forward varargs, which cannot be done yet. *)
            diagnose (unsupported_synthesize_init_variadic (ntdName classDecl)) ;;;
            diagnose (variadic_superclass_init_here (cdID superclassCtor)) ;;;
            ctor <- createStubBody tc ctor ;;
            ret (Some ctor)
        | Some ctorArgs =>
            let superCall := CallExpr ctorRef ctorArgs in
            let superCall :=
              if cdIsBodyThrowing superclassCtor then TryExpr superCall
              else superCall in
            ret (Some (cdSetBody ctor [NodeExpr superCall]))
        end
    end.

(** ** Protocol properties, addressed storage, witnesses *)

Definition convertStoredVarInProtocolToComputed (TC : TypeChecker)
    (VD : AbstractStorageDecl) : Sema AbstractStorageDecl :=
  Get <- createGetterPrototype TC VD ;;
  (* Okay, we have both the getter and setter.  Set them in VD. *)
  let VD := makeComputed VD Get None None in
  (* We've added some members to our containing class, add them to the
     members list. *)
  addMemberToContextIfNeeded (AFuncDecl (fnID Get)) (sdDeclContext (sdInfo VD))
    None ;;;
  (* Type check the getter declaration. *)
  match sdGetter VD with
  | Some getter =>
      typeCheckDecl (fnID getter) true ;;;
      typeCheckDecl (fnID getter) false ;;;
      ret VD
  | None => unreachable "VD->getGetter()"
  end.

(** Add a trivial setter and materializeForSet to a
    ComputedWithMutableAddress storage decl. *)
Definition synthesizeSetterForMutableAddressedStorage (TC : TypeChecker)
    (storage : AbstractStorageDecl) : Sema AbstractStorageDecl :=
  assert_ (match sdSetter storage with Some _ => true | None => false end)
    "setter" ;;;
  match sdSetter storage with
  | None => unreachable "storage->getSetter()"
  | Some setter =>
      assert_ (match fnBody setter with None => true | Some _ => false end)
        "!storage->getSetter()->getBody()" ;;;
      assert_ (match sdStorageKind storage with
               | ComputedWithMutableAddress => true
               | _ => false
               end)
        "storage->getStorageKind() == ComputedWithMutableAddress" ;;;
      (* Synthesize and type-check the body of the setter. *)
      valueParamDecl <- getFirstParamDecl setter ;;
      setter <- synthesizeTrivialSetter TC setter storage valueParamDecl ;;
      typeCheckDecl (fnID setter) true ;;;
      typeCheckDecl (fnID setter) false ;;;
      ret (sdSetSetter storage (Some setter))
  end.

(** The specified AbstractStorageDecl was just found to satisfy a
    protocol property requirement.  Ensure that it has the full complement
    of accessors. *)
Definition synthesizeWitnessAccessorsForStorage (TC : TypeChecker)
    (requirement storage : AbstractStorageDecl) : Sema AbstractStorageDecl :=
  (* If the decl is stored, convert it to StoredWithTrivialAccessors by
     synthesizing the full set of accessors. *)
  if negb (hasAccessorFunctions storage) then
    addTrivialAccessorsToStorage TC storage
  else
    (* Otherwise, if the requirement is settable, ensure that there's a
       materializeForSet function.  ObjC protocols don't need a
       materializeForSet since ObjC doesn't have that concept. *)
    if negb (sdIsObjC (sdInfo requirement))
       && match sdSetter requirement with Some _ => true | None => false end
       && match sdMaterializeForSetFunc storage with
          | Some _ => false
          | None => true
          end
    then
      ms <- addMaterializeForSet TC storage ;;
      let '(materializeForSet, storage) := ms in
      materializeForSet <- synthesizeMaterializeForSet materializeForSet storage ;;
      typeCheckDecl (fnID materializeForSet) false ;;;
      ret (sdSetMaterializeForSetFunc storage (Some materializeForSet))
    else ret storage.

(** ** The implicit destructor *)

Record DestructorDecl := mkDtor {
  ddID : DeclID;
  ddSelfParam : ParamDecl;
  ddBody : option BraceStmt
}.

(** What [addImplicitDestructor] reads and writes of a class: whether it
    has a destructor, whether it is invalid, and the implicit destructor
    among its members. *)
Record ClassState := mkClass {
  clsDecl : NominalTypeDecl;
  clsHasDestructor : bool;
  clsIsInvalid : bool;
  clsImplicitDestructor : option DestructorDecl
}.

Definition addImplicitDestructor (CD : ClassState) : Sema ClassState :=
  if clsHasDestructor CD || clsIsInvalid CD then ret CD
  else
    let selfDecl := createSelfParam (NominalDC (clsDecl CD)) false in
    id <- allocDecl ;;
    let DD := mkDtor id selfDecl None in
    (* Type-check the destructor declaration. *)
    typeCheckDecl (ddID DD) true ;;;
    (* Create an empty body for the destructor. *)
    let DD := mkDtor (ddID DD) (ddSelfParam DD) (Some []) in
    (fun st => Done (tt, mkState (stDiags st) (stExternalDecls st)
                           (addMember (ddID DD) None (stMembers st))
                           (stDerivedDecls st) (stRequests st) (stNextID st))) ;;;
    ret (mkClass (clsDecl CD) true (clsIsInvalid CD) (Some DD)).

End Build.

(** * Properties *)

(** ** Concrete declarations used by the examples below *)

Definition emptyState : SemaState := mkState [] [] [] [] [] 100.

(** A type checker with Foundation loaded and the runtime hook present. *)
Definition fullTC : TypeChecker :=
  mkTC (fun t => t) (fun t => Some (TyOptional t)) true
       [("NSCopying", true)]
       (fun t _ => match t with TyNominal "NSString" => true | _ => false end)
       (Some 7).

(** A type checker without Foundation and without the runtime hook. *)
Definition bareTC : TypeChecker :=
  mkTC (fun t => t) (fun t => Some (TyOptional t)) false [] (fun _ _ => false)
       None.

Definition structPoint : NominalTypeDecl :=
  mkNominal "Point" StructDecl false true false false false "Geo" Public false.

Definition enumShape : NominalTypeDecl :=
  mkNominal "Shape" EnumDecl false true false false false "Geo" Internal false.

Definition classBase : NominalTypeDecl :=
  mkNominal "Base" ClassDecl false false false false false "App" Public false.

Definition classDerived : NominalTypeDecl :=
  mkNominal "Derived" ClassDecl false false false false false "App" Internal true.

Definition classGenericBox : NominalTypeDecl :=
  mkNominal "Box" ClassDecl false false false true false "App" Internal true.

Definition paramInt (label name : Identifier) : ParamDecl :=
  mkParam label name (TyNominal "Int") true false false false.

Definition paramInOut (label name : Identifier) : ParamDecl :=
  mkParam label name (TyInOut (TyNominal "Int")) false false false false.

Definition paramVariadic (label name : Identifier) : ParamDecl :=
  mkParam label name (TyNominal "Int") true true false false.

(** ** Argument forwarding *)

(** How one parameter is forwarded: a reference to it, in/out parameters
    as in/out. *)
Definition forwardArg (p : ParamDecl) : Expr :=
  if isInOutType (pdType p) then InOutExpr (DeclRefExpr (VRParam p) Ordinary)
  else DeclRefExpr (VRParam p) Ordinary.

(** Every parameter forwarded by position, under its argument label; a
    single unlabelled parameter is forwarded bare. *)
Definition forwardedArguments (params : list ParamDecl) : Expr :=
  match params with
  | [p] => if identEmpty (pdArgumentName p) then forwardArg p
           else TupleExpr [forwardArg p] [pdArgumentName p]
  | _ => TupleExpr (map forwardArg params) (map pdArgumentName params)
  end.

Lemma forwardParams_fixed_arity :
  forall params labels args,
    existsb pdIsVariadic params = false ->
    forwardParams params labels args
    = Some (labels ++ map pdArgumentName params, args ++ map forwardArg params).
Proof.
  induction params as [|p rest IH]; intros labels args Hfixed; simpl.
  - now rewrite !app_nil_r.
  - simpl in Hfixed. apply orb_false_iff in Hfixed as [Hp Hrest].
    rewrite Hp, (IH _ _ Hrest), <- !app_assoc. reflexivity.
Qed.

Lemma forwardParams_variadic :
  forall params labels args,
    existsb pdIsVariadic params = true ->
    forwardParams params labels args = None.
Proof.
  induction params as [|p rest IH]; intros labels args Hvar; simpl in *.
  - discriminate.
  - destruct (pdIsVariadic p); [reflexivity|]. now apply IH.
Qed.

Lemma forwarding_variadic :
  forall params,
    existsb pdIsVariadic params = true ->
    buildArgumentForwardingExpr params = None.
Proof.
  intros params H. unfold buildArgumentForwardingExpr.
  now rewrite forwardParams_variadic.
Qed.

Lemma forwarding_fixed_arity :
  forall params,
    existsb pdIsVariadic params = false ->
    buildArgumentForwardingExpr params = Some (forwardedArguments params).
Proof.
  intros params H. unfold buildArgumentForwardingExpr.
  rewrite (forwardParams_fixed_arity _ [] [] H). simpl.
  destruct params as [|p [|q rest]]; simpl; try reflexivity.
  destruct (identEmpty (pdArgumentName p)); reflexivity.
Qed.

Lemma clone_keeps_variadic :
  forall implicit inherited params,
    existsb pdIsVariadic (cloneParameterList implicit inherited params)
    = existsb pdIsVariadic params.
Proof.
  intros implicit inherited params. unfold cloneParameterList.
  induction params as [|p rest IH]; simpl; [reflexivity|].
  now rewrite IH.
Qed.

Example forwarding_two_labelled :
  buildArgumentForwardingExpr [paramInt "x" "x"; paramInOut "into" "y"]
  = Some (TupleExpr
            [DeclRefExpr (VRParam (paramInt "x" "x")) Ordinary;
             InOutExpr (DeclRefExpr (VRParam (paramInOut "into" "y")) Ordinary)]
            ["x"; "into"]).
Proof. reflexivity. Qed.

Example forwarding_single_unlabelled :
  buildArgumentForwardingExpr [paramInt noLabel "x"]
  = Some (DeclRefExpr (VRParam (paramInt noLabel "x")) Ordinary).
Proof. reflexivity. Qed.

Example forwarding_varargs :
  buildArgumentForwardingExpr [paramInt "x" "x"; paramVariadic "rest" "rest"]
  = None.
Proof. reflexivity. Qed.

(** ** Override initializers *)

(** The stub body: one call of the unimplemented-initializer entry point
    with the qualified class name. *)
Definition stubBody (hook : DeclID) (classDecl : NominalTypeDecl) : BraceStmt :=
  [NodeExpr
     (CallExpr (DeclRefExpr (VRDecl hook) Ordinary)
        (ParenExpr
           (StringLiteralExpr
              (ntdModuleName classDecl ++ "." ++ ntdName classDecl))))].

(** The chaining body: one super-qualified call of the ancestor
    initializer, under [try] iff it can throw. *)
Definition chainingBody (classDecl : NominalTypeDecl)
    (superclassCtor : ConstructorDecl) (args : Expr) : BraceStmt :=
  let call :=
    CallExpr
      (UnresolvedDotExpr
         (SuperRefExpr (createSelfParam (NominalDC classDecl) false))
         (cdFullName superclassCtor))
      args in
  [NodeExpr (if cdIsBodyThrowing superclassCtor then TryExpr call else call)].

Definition ancestorInit (params : ParameterList) (throws generic : bool)
  : ConstructorDecl :=
  mkCtor 50 (CompoundName "init" (map pdArgumentName params)) OTK_None
    (createSelfParam (NominalDC classBase) false) params classBase generic
    (Some Public) [] false throws false None [] None false.

Ltac run_sema :=
  unfold bind, ret, abort, unreachable, diagnose, request, typeCheckDecl,
    validateDecl, allocDecl, addExternalDecl; simpl.

Lemma override_chaining_variadic :
  forall tc classDecl superclassCtor access st,
    cdInitializerTypeIsGeneric superclassCtor = false ->
    ntdIsGeneric classDecl = false ->
    cdAccessibility superclassCtor = Some access ->
    existsb pdIsVariadic (cdParams superclassCtor) = true ->
    exists ctor st',
      createDesignatedInitOverride tc classDecl superclassCtor Chaining st
      = Done (Some ctor, st') /\
      stDiags st' =
        stDiags st
        ++ [unsupported_synthesize_init_variadic (ntdName classDecl);
            variadic_superclass_init_here (cdID superclassCtor)]
        ++ match tcUnimplementedInitializerDecl tc with
           | Some _ => []
           | None => [missing_unimplemented_init_runtime (ntdName classDecl)]
           end /\
      match tcUnimplementedInitializerDecl tc with
      | Some hook =>
          cdIsStubImplementation ctor = true /\
          cdBody ctor = Some (stubBody hook classDecl)
      | None => cdIsStubImplementation ctor = false /\ cdBody ctor = None
      end.
Proof.
  intros tc classDecl superclassCtor access st Hgen Hcls Hacc Hvar.
  unfold createDesignatedInitOverride.
  rewrite Hgen, Hcls. simpl.
  unfold ConstructorDecl_new. run_sema. rewrite Hacc. simpl.
  rewrite forwarding_variadic by (now rewrite clone_keeps_variadic).
  unfold createStubBody. run_sema.
  destruct (tcUnimplementedInitializerDecl tc) as [hook|]; simpl;
    eexists; eexists; (split; [reflexivity|]); simpl;
    rewrite <- ?app_assoc; simpl; split; try reflexivity;
    destruct (cdIsObjC superclassCtor);
    try destruct (getObjCAttrName (cdAttrs superclassCtor)) as [[n|]|];
    destruct (hasAttribute RequiredAttr (cdAttrs superclassCtor));
    simpl; split; reflexivity.
Qed.

Lemma override_chaining_fixed_arity :
  forall tc classDecl superclassCtor access st,
    cdInitializerTypeIsGeneric superclassCtor = false ->
    ntdIsGeneric classDecl = false ->
    cdAccessibility superclassCtor = Some access ->
    existsb pdIsVariadic (cdParams superclassCtor) = false ->
    exists ctor st',
      createDesignatedInitOverride tc classDecl superclassCtor Chaining st
      = Done (Some ctor, st') /\
      stDiags st' = stDiags st /\
      cdIsStubImplementation ctor = false /\
      cdBody ctor =
        Some (chainingBody classDecl superclassCtor
                (forwardedArguments
                   (cloneParameterList true true (cdParams superclassCtor)))).
Proof.
  intros tc classDecl superclassCtor access st Hgen Hcls Hacc Hfixed.
  unfold createDesignatedInitOverride.
  rewrite Hgen, Hcls. simpl.
  unfold ConstructorDecl_new. run_sema. rewrite Hacc. simpl.
  rewrite forwarding_fixed_arity by (now rewrite clone_keeps_variadic).
  eexists; eexists; split; [reflexivity|]. simpl.
  repeat split.
  destruct (cdIsObjC superclassCtor);
    try destruct (getObjCAttrName (cdAttrs superclassCtor)) as [[n|]|];
    destruct (hasAttribute RequiredAttr (cdAttrs superclassCtor));
    reflexivity.
Qed.

(** C6, as the code has it.  For a non-generic ancestor initializer whose
    access level is computed, a non-generic subclass and a requested
    Chaining body: if an ancestor parameter is variadic, argument
    forwarding returns none, the two variadic diagnostics are emitted, and
    the result is the Stub body provided the unimplemented-initializer
    entry point is available (without it a third diagnostic is emitted and
    no body is set); if every parameter is fixed-arity, no diagnostic is
    emitted and the body is one super-qualified call of the ancestor
    initializer forwarding every parameter by position (in/out parameters
    as in/out), under [try] iff the ancestor initializer can throw. *)
Theorem override_init_chaining_body :
  forall tc classDecl superclassCtor access st,
    cdInitializerTypeIsGeneric superclassCtor = false ->
    ntdIsGeneric classDecl = false ->
    cdAccessibility superclassCtor = Some access ->
    let bodyParams := cloneParameterList true true (cdParams superclassCtor) in
    exists ctor st',
      createDesignatedInitOverride tc classDecl superclassCtor Chaining st
      = Done (Some ctor, st') /\
      if existsb pdIsVariadic (cdParams superclassCtor) then
        buildArgumentForwardingExpr bodyParams = None /\
        (exists more,
           stDiags st' =
             stDiags st
             ++ unsupported_synthesize_init_variadic (ntdName classDecl)
                :: variadic_superclass_init_here (cdID superclassCtor) :: more) /\
        (forall hook,
           tcUnimplementedInitializerDecl tc = Some hook ->
           cdIsStubImplementation ctor = true /\
           cdBody ctor = Some (stubBody hook classDecl))
      else
        buildArgumentForwardingExpr bodyParams
        = Some (forwardedArguments bodyParams) /\
        forwardedArguments bodyParams
        = match bodyParams with
          | [p] => if identEmpty (pdArgumentName p) then forwardArg p
                   else TupleExpr [forwardArg p] [pdArgumentName p]
          | _ => TupleExpr (map forwardArg bodyParams)
                           (map pdArgumentName bodyParams)
          end /\
        stDiags st' = stDiags st /\
        cdIsStubImplementation ctor = false /\
        cdBody ctor
        = Some (chainingBody classDecl superclassCtor
                  (forwardedArguments bodyParams)) /\
        chainingBody classDecl superclassCtor (forwardedArguments bodyParams)
        = [NodeExpr
             (let call :=
                CallExpr
                  (UnresolvedDotExpr
                     (SuperRefExpr (createSelfParam (NominalDC classDecl) false))
                     (cdFullName superclassCtor))
                  (forwardedArguments bodyParams) in
              if cdIsBodyThrowing superclassCtor then TryExpr call else call)].
Proof.
  intros tc classDecl superclassCtor access st Hgen Hcls Hacc bodyParams.
  destruct (existsb pdIsVariadic (cdParams superclassCtor)) eqn:Hvar.
  - destruct (override_chaining_variadic tc classDecl superclassCtor access st
                Hgen Hcls Hacc Hvar) as (ctor & st' & Hrun & Hdiags & Hbody).
    exists ctor, st'. split; [exact Hrun|]. split; [|split].
    + apply forwarding_variadic. subst bodyParams.
      now rewrite clone_keeps_variadic.
    + eexists. rewrite Hdiags. reflexivity.
    + intros hook Hhook. rewrite Hhook in Hbody. exact Hbody.
  - destruct (override_chaining_fixed_arity tc classDecl superclassCtor access
                st Hgen Hcls Hacc Hvar) as (ctor & st' & Hrun & Hdiags & Hstub & Hbody).
    exists ctor, st'. split; [exact Hrun|].
    repeat split; try assumption; try reflexivity.
    apply forwarding_fixed_arity. subst bodyParams.
    now rewrite clone_keeps_variadic.
Qed.

Lemma override_init_chaining_body_witness :
  (exists ctor st',
     createDesignatedInitOverride fullTC classDerived
       (ancestorInit [paramInt "x" "x"; paramVariadic "rest" "rest"] false false)
       Chaining emptyState = Done (Some ctor, st') /\
     List.length (stDiags st') = 2 /\
     cdBody ctor = Some (stubBody 7 classDerived)) /\
  (exists ctor st',
     createDesignatedInitOverride fullTC classDerived
       (ancestorInit [paramInt "x" "x"; paramInOut "into" "y"] true false)
       Chaining emptyState = Done (Some ctor, st') /\
     stDiags st' = [] /\
     cdBody ctor
     = Some (chainingBody classDerived
               (ancestorInit [paramInt "x" "x"; paramInOut "into" "y"] true false)
               (forwardedArguments
                  (cloneParameterList true true
                     [paramInt "x" "x"; paramInOut "into" "y"])))).
Proof.
  split.
  - destruct (override_init_chaining_body fullTC classDerived
                (ancestorInit [paramInt "x" "x"; paramVariadic "rest" "rest"]
                   false false)
                Public emptyState eq_refl eq_refl eq_refl)
      as (ctor & st' & Hrun & Hrest).
    simpl in Hrest. destruct Hrest as (_ & (more & Hdiags) & Hstub).
    exists ctor, st'. split; [exact Hrun|].
    destruct (Hstub 7 eq_refl) as [_ Hbody].
    split; [|exact Hbody].
    vm_compute in Hrun. injection Hrun as _ Hst. subst st'. reflexivity.
  - destruct (override_init_chaining_body fullTC classDerived
                (ancestorInit [paramInt "x" "x"; paramInOut "into" "y"]
                   true false)
                Public emptyState eq_refl eq_refl eq_refl)
      as (ctor & st' & Hrun & Hrest).
    simpl in Hrest. destruct Hrest as (_ & _ & Hdiags & _ & Hbody & _).
    exists ctor, st'. split; [exact Hrun|]. split; assumption.
Defined.

(** The claim as written fails on three inputs: when a Stub body is
    requested, a variadic ancestor parameter produces no diagnostic at all;
    when the unimplemented-initializer entry point is missing, the variadic
    Chaining request ends without a body; and for a generic subclass of a
    non-generic ancestor nothing is synthesized, fixed-arity parameters and
    a Chaining request notwithstanding. *)
Lemma override_init_variadic_counterexample :
  let variadicInit :=
    ancestorInit [paramInt "x" "x"; paramVariadic "rest" "rest"] false false in
  existsb pdIsVariadic (cdParams variadicInit) = true /\
  (exists ctor st',
     createDesignatedInitOverride fullTC classDerived variadicInit Stub
       emptyState = Done (Some ctor, st') /\
     stDiags st' = stDiags emptyState) /\
  (exists ctor st',
     createDesignatedInitOverride bareTC classDerived variadicInit Chaining
       emptyState = Done (Some ctor, st') /\
     cdBody ctor = None /\ cdIsStubImplementation ctor = false) /\
  (let fixedInit := ancestorInit [paramInt "x" "x"] false false in
   cdInitializerTypeIsGeneric fixedInit = false /\
   existsb pdIsVariadic (cdParams fixedInit) = false /\
   createDesignatedInitOverride fullTC classGenericBox fixedInit Chaining
     emptyState = Done (None, emptyState)).
Proof.
  simpl. split; [reflexivity|]. split; [|split].
  - eexists; eexists; split; [vm_compute; reflexivity|reflexivity].
  - eexists; eexists; split; [vm_compute; reflexivity|split; reflexivity].
  - repeat split; reflexivity.
Qed.

(** C8.  Override initializer synthesis returns the null result, without
    a diagnostic (and without creating anything), whenever the ancestor
    initializer's type is a generic function type or the subclass has
    generic parameters of context. *)
Theorem override_init_generic_not_synthesized :
  forall tc classDecl superclassCtor kind st,
    cdInitializerTypeIsGeneric superclassCtor = true
    \/ ntdIsGeneric classDecl = true ->
    createDesignatedInitOverride tc classDecl superclassCtor kind st
    = Done (None, st).
Proof.
  intros tc classDecl superclassCtor kind st Hgeneric.
  unfold createDesignatedInitOverride.
  destruct Hgeneric as [H|H]; rewrite H; simpl;
    try rewrite orb_true_r; reflexivity.
Qed.

Lemma override_init_generic_not_synthesized_witness :
  createDesignatedInitOverride fullTC classDerived
    (ancestorInit [paramInt "x" "x"] false true) Chaining emptyState
  = Done (None, emptyState)
  /\ createDesignatedInitOverride fullTC classGenericBox
       (ancestorInit [paramInt "x" "x"] false false) Stub emptyState
     = Done (None, emptyState).
Proof.
  split.
  - apply (override_init_generic_not_synthesized fullTC classDerived
             (ancestorInit [paramInt "x" "x"] false true) Chaining emptyState).
    left. reflexivity.
  - apply (override_init_generic_not_synthesized fullTC classGenericBox
             (ancestorInit [paramInt "x" "x"] false false) Stub emptyState).
    right. reflexivity.
Defined.

(** ** Index forwarding in accessor bodies *)

(** The parameters an accessor has in front of its index parameters: the
    value of a setter, the buffer and the callback storage of a
    materializeForSet. *)
Definition prefixLength (k : AccessorKind) : nat :=
  match k with
  | IsGetter => 0
  | IsMaterializeForSet => 2
  | _ => 1
  end.

Definition accessorWithParams (k : AccessorKind) (params : ParameterList)
  : FuncDecl :=
  mkFunc 60 k [createSelf (NominalDC structPoint); params] (TyNominal "Int")
    (NominalDC structPoint) false false false None [] [] None.

Lemma index_reference_strips_prefix :
  forall assertionsEnabled accessor prefix indices st,
    last (fnParameterLists accessor) [] = prefix ++ indices ->
    List.length prefix = prefixLength (fnAccessorKind accessor) ->
    buildSubscriptIndexReference assertionsEnabled accessor st
    = match buildArgumentForwardingExpr indices with
      | Some e => Done (Some e, st)
      | None => if assertionsEnabled
                then Aborted "FIXME: Cannot forward varargs"
                else Done (None, st)
      end.
Proof.
  intros ae accessor prefix indices st Hlast Hlen.
  unfold buildSubscriptIndexReference. rewrite Hlast.
  assert (Hfinish :
    forall st0,
      bind (assert_ ae
              match buildArgumentForwardingExpr indices with
              | Some _ => true
              | None => false
              end "FIXME: Cannot forward varargs")
           (fun _ => ret (buildArgumentForwardingExpr indices)) st0
      = match buildArgumentForwardingExpr indices with
        | Some e => Done (Some e, st0)
        | None => if ae then Aborted "FIXME: Cannot forward varargs"
                  else Done (None, st0)
        end).
  { intros st0. unfold assert_, bind, ret, abort.
    destruct (buildArgumentForwardingExpr indices); destruct ae; reflexivity. }
  destruct (fnAccessorKind accessor); simpl in Hlen;
    destruct prefix as [|p1 [|p2 [|p3 prefix]]]; try discriminate Hlen;
    simpl; unfold bind at 1; simpl; try (unfold bind at 1; simpl);
    apply Hfinish.
Qed.

(** C10, as the code has it.  In a synthesized accessor body of a
    subscript-like entity, the index parameters left after stripping the
    value / buffer and callback-storage prefix are forwarded, and a failure
    of the forwarding is not handled: with a variadic index parameter the
    forwarding expression is null, which the assertion rejects in checked
    builds and which, in unchecked ones, is returned as it is and ends up
    as the index of the subscript expression built for an accessor with a
    self parameter, without a diagnostic.  The override-initializer path,
    given the same parameters (a non-generic ancestor initializer whose
    access level is computed, a non-generic subclass, a Chaining request),
    does not return its null result either: it returns an initializer,
    emits the two variadic diagnostics, and gives the initializer the Stub
    body when the unimplemented-initializer entry point is available. *)
Theorem subscript_index_forwarding_unchecked :
  forall accessor prefix indices storage self semantics st
         tc classDecl superclassCtor access,
    last (fnParameterLists accessor) [] = prefix ++ indices ->
    List.length prefix = prefixLength (fnAccessorKind accessor) ->
    existsb pdIsVariadic indices = true ->
    isSubscriptDecl storage = true ->
    getImplicitSelfDecl accessor = Some self ->
    cdInitializerTypeIsGeneric superclassCtor = false ->
    ntdIsGeneric classDecl = false ->
    cdAccessibility superclassCtor = Some access ->
    cdParams superclassCtor = indices ->
    buildArgumentForwardingExpr indices = None /\
    buildSubscriptIndexReference true accessor st
    = Aborted "FIXME: Cannot forward varargs" /\
    buildSubscriptIndexReference false accessor st = Done (None, st) /\
    buildStorageReference true accessor storage semantics Peer st
    = Aborted "FIXME: Cannot forward varargs" /\
    buildStorageReference false accessor storage semantics Peer st
    = Done (SubscriptExpr (DeclRefExpr (VRParam self) Ordinary) None
              (sdID (sdInfo storage)) semantics, st) /\
    exists ctor st',
      createDesignatedInitOverride tc classDecl superclassCtor Chaining st
      = Done (Some ctor, st') /\
      stDiags st' <> stDiags st /\
      (exists more,
         stDiags st' =
           stDiags st
           ++ unsupported_synthesize_init_variadic (ntdName classDecl)
              :: variadic_superclass_init_here (cdID superclassCtor) :: more) /\
      (forall hook,
         tcUnimplementedInitializerDecl tc = Some hook ->
         cdIsStubImplementation ctor = true /\
         cdBody ctor = Some (stubBody hook classDecl)).
Proof.
  intros accessor prefix indices storage self semantics st tc classDecl
         superclassCtor access Hlast Hlen Hvar Hsub Hself Hgen Hcls Hacc
         Hparams.
  pose proof (forwarding_variadic indices Hvar) as Hnone.
  split; [exact Hnone|].
  unfold buildStorageReference, buildStorageReferenceIn.
  cbn [getSelfDecl getIndexRefExpr AccessorStorageReferenceContext].
  rewrite Hself, Hsub. cbn [buildSelfReference]. unfold bind.
  rewrite !(index_reference_strips_prefix _ accessor prefix indices st Hlast Hlen).
  rewrite Hnone.
  split; [reflexivity|]. split; [reflexivity|].
  split; [reflexivity|]. split; [reflexivity|].
  rewrite <- Hparams in Hvar.
  destruct (override_chaining_variadic tc classDecl superclassCtor access st
              Hgen Hcls Hacc Hvar) as (ctor & st' & Hrun & Hdiags & Hbody).
  exists ctor, st'. split; [exact Hrun|]. split; [|split].
  - rewrite Hdiags. intros Heq.
    apply (f_equal (@List.length Diagnostic)) in Heq.
    rewrite !length_app in Heq. simpl in Heq. lia.
  - eexists. rewrite Hdiags. reflexivity.
  - intros hook Hhook. rewrite Hhook in Hbody. exact Hbody.
Qed.

Definition subscriptAt (id : DeclID) (dc : DeclContext)
    (indices : ParameterList) : AbstractStorageDecl :=
  mkStorage
    (mkInfo id "subscript" (IsSubscriptDecl indices (TyNominal "Int"))
       (TyNominal "Int") dc false false false false false false false false)
    None Computed [] false false true (Some Internal) None None None None
    None None None None.

Lemma subscript_index_forwarding_unchecked_witness :
  let indices := [paramInt "at" "i"; paramVariadic "rest" "rest"] in
  let setter :=
    accessorWithParams IsSetter
      (buildLetArgument "value" (TyNominal "Int") :: indices) in
  let storage := subscriptAt 48 (NominalDC structPoint) indices in
  buildArgumentForwardingExpr indices = None /\
  buildSubscriptIndexReference true setter emptyState
  = Aborted "FIXME: Cannot forward varargs" /\
  buildSubscriptIndexReference false setter emptyState
  = Done (None, emptyState) /\
  buildStorageReference true setter storage DirectToStorage Peer emptyState
  = Aborted "FIXME: Cannot forward varargs" /\
  buildStorageReference false setter storage DirectToStorage Peer emptyState
  = Done (SubscriptExpr
            (DeclRefExpr
               (VRParam (createSelfParam (NominalDC structPoint) false))
               Ordinary)
            None 48 DirectToStorage, emptyState) /\
  exists ctor st',
    createDesignatedInitOverride fullTC classDerived
      (ancestorInit indices false false) Chaining emptyState
    = Done (Some ctor, st') /\
    stDiags st' <> stDiags emptyState /\
    (exists more,
       stDiags st' =
         stDiags emptyState
         ++ unsupported_synthesize_init_variadic (ntdName classDerived)
            :: variadic_superclass_init_here
                 (cdID (ancestorInit indices false false)) :: more) /\
    (forall hook,
       tcUnimplementedInitializerDecl fullTC = Some hook ->
       cdIsStubImplementation ctor = true /\
       cdBody ctor = Some (stubBody hook classDerived)).
Proof.
  intros indices setter storage.
  apply (subscript_index_forwarding_unchecked setter
           [buildLetArgument "value" (TyNominal "Int")] indices storage
           (createSelfParam (NominalDC structPoint) false) DirectToStorage
           emptyState fullTC classDerived (ancestorInit indices false false)
           Public);
    reflexivity.
Defined.

(** The claim as written fails on the override-initializer path: for a
    variadic ancestor parameter that path does not end in its null result;
    whichever body is requested it returns an initializer, and a Chaining
    request is diagnosed and answered with the Stub body. *)
Lemma override_path_variadic_counterexample :
  let indices := [paramInt "at" "i"; paramVariadic "rest" "rest"] in
  let variadicInit := ancestorInit indices false false in
  existsb pdIsVariadic indices = true /\
  buildArgumentForwardingExpr indices = None /\
  (forall kind,
     createDesignatedInitOverride fullTC classDerived variadicInit kind
       emptyState <> Done (None, emptyState)) /\
  exists ctor st',
    createDesignatedInitOverride fullTC classDerived variadicInit Chaining
      emptyState = Done (Some ctor, st') /\
    stDiags st'
    = [unsupported_synthesize_init_variadic (ntdName classDerived);
       variadic_superclass_init_here (cdID variadicInit)] /\
    cdIsStubImplementation ctor = true /\
    cdBody ctor = Some (stubBody 7 classDerived).
Proof.
  simpl. split; [reflexivity|]. split; [reflexivity|]. split.
  - intros kind. destruct kind; vm_compute; discriminate.
  - eexists; eexists; split; [vm_compute; reflexivity|].
    repeat split; reflexivity.
Qed.

(** ** Storage references *)

(** The entity a storage reference targets, the expression it goes
    through, and its access semantics. *)
Definition referenceTarget (e : Expr) : option DeclID :=
  match e with
  | DeclRefExpr (VRDecl d) _ => Some d
  | MemberRefExpr _ d _ => Some d
  | SubscriptExpr _ _ d _ => Some d
  | _ => None
  end.

Definition referenceBase (e : Expr) : option Expr :=
  match e with
  | MemberRefExpr base _ _ => Some base
  | SubscriptExpr base _ _ _ => Some base
  | _ => None
  end.

Definition referenceSemantics (e : Expr) : option AccessSemantics :=
  match e with
  | DeclRefExpr _ s => Some s
  | MemberRefExpr _ _ s => Some s
  | SubscriptExpr _ _ _ s => Some s
  | _ => None
  end.

(** The member access off a base: a subscript with its indices for a
    subscript-like entity, a member reference otherwise. *)
Definition memberAccess (base : Expr) (indices : option Expr)
    (storage : AbstractStorageDecl) (semantics : AccessSemantics) : Expr :=
  if isSubscriptDecl storage
  then SubscriptExpr base indices (sdID (sdInfo storage)) semantics
  else MemberRefExpr base (sdID (sdInfo storage)) semantics.

(** C7.  A storage reference requested in Super mode: if the entity
    overrides an ancestor entity, the expression targets the ancestor
    through the super-qualified self, with ordinary access semantics; if it
    overrides nothing, the request is the Peer request, and the expression
    targets the entity itself (a direct reference when there is no self, a
    member access off self otherwise) with the caller's semantics.  (The
    indices of a subscript-like entity are the ones the context forwards.) *)
Theorem storage_reference_super_mode :
  forall referenceContext storage semantics st indices,
    getIndexRefExpr referenceContext st = Done (indices, st) ->
    (forall self overridden,
        getSelfDecl referenceContext = Some self ->
        sdOverriddenDecl storage = Some overridden ->
        exists e,
          buildStorageReferenceIn referenceContext storage semantics Super st
          = Done (e, st) /\
          e = memberAccess (SuperRefExpr self) indices overridden Ordinary /\
          referenceTarget e = Some (sdID (sdInfo overridden)) /\
          referenceBase e = Some (SuperRefExpr self) /\
          referenceSemantics e = Some Ordinary) /\
    (sdOverriddenDecl storage = None ->
     buildStorageReferenceIn referenceContext storage semantics Super st
     = buildStorageReferenceIn referenceContext storage semantics Peer st /\
     exists e,
       buildStorageReferenceIn referenceContext storage semantics Super st
       = Done (e, st) /\
       e = match getSelfDecl referenceContext with
           | None => DeclRefExpr (VRDecl (sdID (sdInfo storage))) semantics
           | Some self =>
               memberAccess (DeclRefExpr (VRParam self) Ordinary) indices
                 storage semantics
           end /\
       referenceTarget e = Some (sdID (sdInfo storage)) /\
       referenceSemantics e = Some semantics).
Proof.
  intros ctx storage semantics st indices Hidx. split.
  - intros self overridden Hself Hover.
    unfold buildStorageReferenceIn. rewrite Hself, Hover. simpl.
    unfold memberAccess.
    destruct (isSubscriptDecl overridden).
    + unfold bind. rewrite Hidx. eexists. split; [reflexivity|].
      repeat split.
    + eexists. split; [reflexivity|]. repeat split.
  - intros Hnone. unfold buildStorageReferenceIn. rewrite Hnone.
    destruct (getSelfDecl ctx) as [self|].
    + simpl. split; [reflexivity|]. unfold memberAccess.
      destruct (isSubscriptDecl storage).
      * unfold bind. rewrite Hidx. eexists. split; [reflexivity|].
        repeat split.
      * eexists. split; [reflexivity|]. repeat split.
    + split; [reflexivity|]. eexists. split; [reflexivity|]. repeat split.
Qed.

Definition accessorIn (dc : DeclContext) (id : DeclID) (k : AccessorKind)
    (params : ParameterList) : FuncDecl :=
  mkFunc id k ((if isTypeContext dc then [createSelf dc] else []) ++ [params])
    (TyNominal "Int") dc false false false None [] [] None.

Definition plainVar (id : DeclID) (name : Identifier) (dc : DeclContext)
    (isLet : bool) (attrs : list DeclAttr)
    (overridden : option AbstractStorageDecl) : AbstractStorageDecl :=
  mkStorage
    (mkInfo id name IsVarDecl (TyNominal "Int") dc isLet false false false
       false false false false)
    overridden Stored attrs false false true (Some Internal) None None None
    None None None None None.

Definition baseCount : AbstractStorageDecl :=
  plainVar 20 "count" (NominalDC classBase) false [] None.

Definition derivedCount : AbstractStorageDecl :=
  plainVar 21 "count" (NominalDC classDerived) false [] (Some baseCount).

Definition globalCount : AbstractStorageDecl :=
  plainVar 22 "total" (SourceFileDC SFLibrary) false [] None.

Lemma storage_reference_super_mode_witness :
  let selfDerived := createSelfParam (NominalDC classDerived) false in
  let selfBase := createSelfParam (NominalDC classBase) false in
  buildStorageReferenceIn
    (AccessorStorageReferenceContext true
       (accessorIn (NominalDC classDerived) 61 IsGetter []))
    derivedCount DirectToStorage Super emptyState
  = Done (MemberRefExpr (SuperRefExpr selfDerived) 20 Ordinary, emptyState)
  /\ buildStorageReferenceIn
       (AccessorStorageReferenceContext true
          (accessorIn (NominalDC classBase) 62 IsGetter []))
       baseCount DirectToStorage Super emptyState
     = Done (MemberRefExpr (DeclRefExpr (VRParam selfBase) Ordinary) 20
               DirectToStorage, emptyState)
  /\ buildStorageReferenceIn
       (AccessorStorageReferenceContext true
          (accessorIn (SourceFileDC SFLibrary) 63 IsGetter []))
       globalCount DirectToStorage Super emptyState
     = Done (DeclRefExpr (VRDecl 22) DirectToStorage, emptyState).
Proof.
  intros selfDerived selfBase. split; [|split].
  - destruct (storage_reference_super_mode
                (AccessorStorageReferenceContext true
                   (accessorIn (NominalDC classDerived) 61 IsGetter []))
                derivedCount DirectToStorage emptyState
                (Some (TupleExpr [] [])) eq_refl) as [Hover _].
    destruct (Hover selfDerived baseCount eq_refl eq_refl)
      as (e & Hrun & He & _).
    rewrite Hrun, He. reflexivity.
  - destruct (storage_reference_super_mode
                (AccessorStorageReferenceContext true
                   (accessorIn (NominalDC classBase) 62 IsGetter []))
                baseCount DirectToStorage emptyState
                (Some (TupleExpr [] [])) eq_refl) as [_ Hpeer].
    destruct (Hpeer eq_refl) as (_ & e & Hrun & He & _).
    rewrite Hrun, He. reflexivity.
  - destruct (storage_reference_super_mode
                (AccessorStorageReferenceContext true
                   (accessorIn (SourceFileDC SFLibrary) 63 IsGetter []))
                globalCount DirectToStorage emptyState
                (Some (TupleExpr [] [])) eq_refl) as [_ Hpeer].
    destruct (Hpeer eq_refl) as (_ & e & Hrun & He & _).
    rewrite Hrun, He. reflexivity.
Defined.

(** What the accessor-based entry point gives for a property (not a
    subscript) whose overridden entity, if any, is a property as well: the
    reference is built without touching the state. *)
Definition isPropertyOverProperty (storage : AbstractStorageDecl) : bool :=
  negb (isSubscriptDecl storage)
  && match sdOverriddenDecl storage with
     | Some overridden => negb (isSubscriptDecl overridden)
     | None => true
     end.

Definition propertyReference (accessor : FuncDecl)
    (storage : AbstractStorageDecl) (semantics : AccessSemantics) : Expr :=
  match getImplicitSelfDecl accessor with
  | None => DeclRefExpr (VRDecl (sdID (sdInfo storage))) semantics
  | Some self =>
      match sdOverriddenDecl storage with
      | Some overridden =>
          MemberRefExpr (SuperRefExpr self) (sdID (sdInfo overridden)) Ordinary
      | None =>
          MemberRefExpr (DeclRefExpr (VRParam self) Ordinary)
            (sdID (sdInfo storage)) semantics
      end
  end.

Lemma buildStorageReference_property :
  forall assertionsEnabled accessor storage semantics st,
    isPropertyOverProperty storage = true ->
    buildStorageReference assertionsEnabled accessor storage semantics Super st
    = Done (propertyReference accessor storage semantics, st).
Proof.
  intros ae accessor storage semantics st Hprop.
  unfold isPropertyOverProperty in Hprop.
  apply andb_true_iff in Hprop as [Hvar Hover].
  apply negb_true_iff in Hvar.
  unfold buildStorageReference, buildStorageReferenceIn, propertyReference.
  simpl. destruct (getImplicitSelfDecl accessor) as [self|]; [|reflexivity].
  destruct (sdOverriddenDecl storage) as [overridden|]; simpl.
  - apply negb_true_iff in Hover. rewrite Hover. reflexivity.
  - rewrite Hvar. reflexivity.
Qed.

(** ** Copy on assignment *)

Definition copyWithZoneCall (receiver : Expr) : Expr :=
  CallExpr (UnresolvedDotExpr receiver (SimpleName "copyWithZone"))
           (ParenExpr NilLiteralExpr).

(** The type whose conformance is checked: the entity's type, or what it
    is an optional of. *)
Definition copiedUnderlyingType (TC : TypeChecker) (VD : AbstractStorageDecl)
  : Ty :=
  let declared := tcGetTypeOfRValue TC (sdType (sdInfo VD)) in
  match getAnyOptionalObjectType declared with
  | Some object => object
  | None => declared
  end.

Definition copiedTypeIsOptional (TC : TypeChecker) (VD : AbstractStorageDecl)
  : bool :=
  match getAnyOptionalObjectType (tcGetTypeOfRValue TC (sdType (sdInfo VD))) with
  | Some _ => true
  | None => false
  end.

Definition conformsToNSCopying (TC : TypeChecker) (VD : AbstractStorageDecl)
  : bool :=
  match getNSCopyingProtocol TC with
  | Some proto => tcConformsToProtocol TC (copiedUnderlyingType TC VD) proto
  | None => false
  end.

Lemma copyWithZone_conforming :
  forall TC Val VD st,
    conformsToNSCopying TC VD = true ->
    synthesizeCopyWithZoneCall TC Val VD st
    = Done (if copiedTypeIsOptional TC VD
            then OptionalEvaluationExpr
                   (ConditionalCheckedCastExpr
                      (copyWithZoneCall (BindOptionalExpr Val 0))
                      (copiedUnderlyingType TC VD))
            else ForcedCheckedCastExpr (copyWithZoneCall Val)
                   (copiedUnderlyingType TC VD),
            st).
Proof.
  intros TC Val VD st Hconf.
  unfold conformsToNSCopying, copiedUnderlyingType in Hconf.
  unfold synthesizeCopyWithZoneCall, copiedTypeIsOptional, copiedUnderlyingType.
  destruct (getAnyOptionalObjectType (tcGetTypeOfRValue TC (sdType (sdInfo VD))))
    as [object|]; destruct (getNSCopyingProtocol TC) as [proto|];
    try discriminate Hconf; rewrite Hconf; reflexivity.
Qed.

Lemma copyWithZone_not_conforming :
  forall TC Val VD st,
    conformsToNSCopying TC VD = false ->
    synthesizeCopyWithZoneCall TC Val VD st
    = Done (Val,
            mkState (stDiags st ++ [nscopying_doesnt_conform (sdID (sdInfo VD))])
              (stExternalDecls st) (stMembers st) (stDerivedDecls st)
              (stRequests st) (stNextID st)).
Proof.
  intros TC Val VD st Hconf.
  unfold conformsToNSCopying, copiedUnderlyingType in Hconf.
  unfold synthesizeCopyWithZoneCall.
  destruct (getAnyOptionalObjectType (tcGetTypeOfRValue TC (sdType (sdInfo VD))))
    as [object|]; destruct (getNSCopyingProtocol TC) as [proto|];
    try rewrite Hconf; reflexivity.
Qed.

(** C9.  The setter store of an entity tagged NSCopying: if the copying
    protocol is not found or the underlying type does not conform to it,
    exactly one diagnostic is emitted, the value expression is returned
    unchanged and it is what the store assigns; otherwise nothing is
    diagnosed and the assigned value is the copyWithZone call on the
    incoming value, optional-chained when the type is an optional. *)
Theorem nscopying_store :
  forall assertionsEnabled TC accessor Val VD body st,
    isPropertyOverProperty VD = true ->
    hasAttribute NSCopyingAttr (sdAttrs VD) = true ->
    exists stored st',
      synthesizeCopyWithZoneCall TC Val VD st = Done (stored, st') /\
      createPropertyStoreOrCallSuperclassSetter assertionsEnabled TC accessor
        Val VD body st
      = Done (body
              ++ [NodeExpr
                    (AssignExpr (propertyReference accessor VD DirectToStorage)
                                stored)],
              st') /\
      if conformsToNSCopying TC VD then
        stDiags st' = stDiags st /\
        stored
        = (if copiedTypeIsOptional TC VD
           then OptionalEvaluationExpr
                  (ConditionalCheckedCastExpr
                     (copyWithZoneCall (BindOptionalExpr Val 0))
                     (copiedUnderlyingType TC VD))
           else ForcedCheckedCastExpr (copyWithZoneCall Val)
                  (copiedUnderlyingType TC VD))
      else
        stDiags st'
        = stDiags st ++ [nscopying_doesnt_conform (sdID (sdInfo VD))] /\
        stored = Val.
Proof.
  intros ae TC accessor Val VD body st Hprop Hattr.
  assert (Hvar : isSubscriptDecl VD = false).
  { unfold isPropertyOverProperty in Hprop.
    apply andb_true_iff in Hprop as [H _]. now apply negb_true_iff in H. }
  unfold createPropertyStoreOrCallSuperclassSetter.
  rewrite Hvar, Hattr. simpl.
  destruct (conformsToNSCopying TC VD) eqn:Hconf.
  - eexists; eexists.
    rewrite (copyWithZone_conforming TC Val VD st Hconf).
    split; [reflexivity|]. unfold bind at 1.
    rewrite (copyWithZone_conforming TC Val VD st Hconf).
    unfold bind. rewrite buildStorageReference_property by exact Hprop.
    repeat split.
  - eexists; eexists.
    rewrite (copyWithZone_not_conforming TC Val VD st Hconf).
    split; [reflexivity|]. unfold bind at 1.
    rewrite (copyWithZone_not_conforming TC Val VD st Hconf).
    unfold bind. rewrite buildStorageReference_property by exact Hprop.
    repeat split.
Qed.

Definition typedVar (id : DeclID) (name : Identifier) (ty : Ty)
    (dc : DeclContext) (attrs : list DeclAttr) : AbstractStorageDecl :=
  mkStorage
    (mkInfo id name IsVarDecl ty dc false false false false false false false
       false)
    None Stored attrs false false true (Some Internal) None None None None
    None None None None.

Definition copiedTitle : AbstractStorageDecl :=
  typedVar 30 "title" (TyOptional (TyNominal "NSString")) (NominalDC classBase)
    [NSCopyingAttr].

Definition copiedPoint : AbstractStorageDecl :=
  typedVar 31 "origin" (TyNominal "Point") (NominalDC classBase)
    [NSCopyingAttr].

Lemma nscopying_store_witness :
  let setter :=
    accessorIn (NominalDC classBase) 64 IsSetter
      [buildLetArgument "value" (TyNominal "Int")] in
  let value := DeclRefExpr (VRParam (buildLetArgument "value" (TyNominal "Int")))
                           Ordinary in
  let self := DeclRefExpr (VRParam (createSelfParam (NominalDC classBase) false))
                          Ordinary in
  createPropertyStoreOrCallSuperclassSetter true fullTC setter value
    copiedTitle [] emptyState
  = Done ([NodeExpr
             (AssignExpr (MemberRefExpr self 30 DirectToStorage)
                (OptionalEvaluationExpr
                   (ConditionalCheckedCastExpr
                      (copyWithZoneCall (BindOptionalExpr value 0))
                      (TyNominal "NSString"))))],
          emptyState)
  /\ createPropertyStoreOrCallSuperclassSetter true fullTC setter value
       copiedPoint [] emptyState
     = Done ([NodeExpr (AssignExpr (MemberRefExpr self 31 DirectToStorage) value)],
             mkState [nscopying_doesnt_conform 31] [] [] [] [] 100).
Proof.
  intros setter value self. split.
  - destruct (nscopying_store true fullTC setter value copiedTitle []
                emptyState eq_refl eq_refl)
      as (stored & st' & Hcopy & Hstore & Hrest).
    vm_compute in Hcopy. injection Hcopy as Hstored Hst. subst stored st'.
    exact Hstore.
  - destruct (nscopying_store true fullTC setter value copiedPoint []
                emptyState eq_refl eq_refl)
      as (stored & st' & Hcopy & Hstore & Hrest).
    vm_compute in Hcopy. injection Hcopy as Hstored Hst. subst stored st'.
    exact Hstore.
Defined.

(** ** The memberwise initializer *)

Definition hasInlineInitializer (var : AbstractStorageDecl) : bool :=
  match sdParentInitializer var with Some _ => true | None => false end.

(** A stored entity that gets a parameter: not implicit, and not a
    constant that carries an inline initializer. *)
Definition memberwiseEligible (var : AbstractStorageDecl) : bool :=
  negb (sdIsImplicit var)
  && negb (sdIsLet (sdInfo var) && hasInlineInitializer var).

(** The parameter of an entity: named after it, of its declared type, or
    of the optional of that type if the entity is lazy. *)
Definition memberwiseParam (tc : TypeChecker) (var : AbstractStorageDecl)
  : ParamDecl :=
  mkParam (sdName (sdInfo var)) (sdName (sdInfo var))
    (if hasAttribute LazyAttr (sdAttrs var)
     then TyOptional (tcGetTypeOfRValue tc (sdType (sdInfo var)))
     else tcGetTypeOfRValue tc (sdType (sdInfo var)))
    true false true false.

Definition accessComputed (var : AbstractStorageDecl) : Prop :=
  sdAccessibility var <> None.

Lemma memberwiseParams_spec :
  forall tc vars accessLevel params st,
    Forall accessComputed vars ->
    exists accessLevel' st',
      memberwiseParams tc vars accessLevel params st
      = Done ((accessLevel',
               params ++ map (memberwiseParam tc) (filter memberwiseEligible vars)),
              st') /\
      stDiags st' = stDiags st /\ stNextID st' = stNextID st.
Proof.
  intros tc vars. induction vars as [|var rest IH];
    intros accessLevel params st Hacc.
  - simpl. exists accessLevel, st. rewrite app_nil_r. repeat split.
  - inversion Hacc as [|v l Hvar Hrest]; subst.
    simpl. unfold memberwiseEligible at 1.
    destruct (sdIsImplicit var) eqn:Himp; simpl.
    + apply IH. exact Hrest.
    + unfold bind at 1. unfold validateDecl, request. simpl.
      unfold hasInlineInitializer at 1.
      destruct (sdIsLet (sdInfo var)); simpl;
        destruct (sdParentInitializer var) as [init|] eqn:Hinit; simpl;
        try (edestruct IH as (a & st' & Hrun & Hd & Hn);
             [exact Hrest|]; rewrite Hrun; exists a, st';
             split; [reflexivity|]; split; assumption);
        unfold getFormalAccess; unfold accessComputed in Hvar;
        destruct (sdAccessibility var) as [access|]; try congruence;
        unfold bind at 1, ret at 1;
        edestruct IH as (a & st' & Hrun & Hd & Hn); try exact Hrest;
        rewrite Hrun; exists a, st'; rewrite <- app_assoc;
        (split; [reflexivity|]); split; assumption.
Qed.

Lemma filter_length_split :
  forall (A : Type) (p q : A -> bool) (l : list A),
    List.length (filter (fun x => p x && negb (q x)) l)
    = List.length (filter p l) - List.length (filter (fun x => p x && q x) l).
Proof.
  intros A p q l.
  enough (List.length (filter (fun x => p x && negb (q x)) l)
          + List.length (filter (fun x => p x && q x) l)
          = List.length (filter p l)) by lia.
  induction l as [|x r IH]; [reflexivity|].
  cbn [filter]. destruct (p x), (q x); cbn [andb negb List.length]; lia.
Qed.

(** C5.  The memberwise initializer of a value type has one parameter per
    stored, non-implicit entity, in declaration order, except the
    constants that carry an inline initializer; the parameter of a lazy
    entity has the optional of the declared type. *)
Theorem memberwise_initializer_parameters :
  forall assertionsEnabled tc decl storedProperties st,
    ntdKind decl = StructDecl ->
    Forall accessComputed storedProperties ->
    exists ctor st',
      createImplicitConstructor assertionsEnabled tc decl storedProperties
        Memberwise st = Done (ctor, st') /\
      cdIsMemberwiseInitializer ctor = true /\
      cdParams ctor
      = map (memberwiseParam tc) (filter memberwiseEligible storedProperties) /\
      map pdName (cdParams ctor)
      = map (fun var => sdName (sdInfo var))
            (filter memberwiseEligible storedProperties) /\
      List.length (cdParams ctor)
      = List.length (filter (fun var => negb (sdIsImplicit var)) storedProperties)
        - List.length
            (filter (fun var => negb (sdIsImplicit var)
                                && (sdIsLet (sdInfo var)
                                    && hasInlineInitializer var))
                    storedProperties) /\
      (forall var,
          In var storedProperties ->
          memberwiseEligible var = true ->
          In (memberwiseParam tc var) (cdParams ctor) /\
          pdType (memberwiseParam tc var)
          = if hasAttribute LazyAttr (sdAttrs var)
            then TyOptional (tcGetTypeOfRValue tc (sdType (sdInfo var)))
            else tcGetTypeOfRValue tc (sdType (sdInfo var))).
Proof.
  intros ae tc decl props st Hstruct Hacc.
  unfold createImplicitConstructor. rewrite Hstruct.
  unfold bind at 1. unfold bind at 1.
  assert (Hassert : forall s, assert_ ae true
            "Only struct have memberwise constructor" s = Done (tt, s)).
  { intros s. unfold assert_. simpl. rewrite andb_false_r. reflexivity. }
  rewrite Hassert.
  destruct (memberwiseParams_spec tc props
              (if negb (ntdHasClangNode decl)
               then accessMin (ntdFormalAccess decl) Internal
               else ntdFormalAccess decl) [] st Hacc)
    as (access' & st1 & Hrun & _ & _).
  rewrite Hrun. simpl.
  unfold ConstructorDecl_new. run_sema.
  destruct (ntdHasClangNode decl); simpl;
    (eexists; eexists; split; [reflexivity|]); simpl;
    (split; [reflexivity|]); (split; [reflexivity|]);
    (split; [rewrite map_map; reflexivity|]);
    (split; [rewrite length_map;
             apply (filter_length_split _
                      (fun var => negb (sdIsImplicit var))
                      (fun var => sdIsLet (sdInfo var)
                                  && hasInlineInitializer var))|]);
    intros var Hin Helig; (split; [|reflexivity]);
    apply in_map; apply filter_In; split; assumption.
Qed.

Definition pointProperties : list AbstractStorageDecl :=
  [ plainVar 40 "x" (NominalDC structPoint) false [] None;
    sdSetParentInitializer
      (plainVar 41 "unit" (NominalDC structPoint) true [] None)
      (Some (UserExpr 1 []));
    plainVar 42 "tag" (NominalDC structPoint) true [] None;
    sdSetImplicit
      (plainVar 43 "norm.storage" (NominalDC structPoint) false [] None) true;
    sdSetParentInitializer
      (plainVar 44 "norm" (NominalDC structPoint) false [LazyAttr] None)
      (Some (UserExpr 2 [])) ].

Lemma memberwise_initializer_parameters_witness :
  exists ctor st',
    createImplicitConstructor true fullTC structPoint pointProperties
      Memberwise emptyState = Done (ctor, st') /\
    cdParams ctor
    = [ mkParam "x" "x" (TyNominal "Int") true false true false;
        mkParam "tag" "tag" (TyNominal "Int") true false true false;
        mkParam "norm" "norm" (TyOptional (TyNominal "Int")) true false true
          false ].
Proof.
  assert (Hacc : Forall accessComputed pointProperties).
  { repeat constructor; discriminate. }
  destruct (memberwise_initializer_parameters true fullTC structPoint
              pointProperties emptyState eq_refl Hacc)
    as (ctor & st' & Hrun & _ & Hparams & _).
  exists ctor, st'. split; [exact Hrun|]. rewrite Hparams. reflexivity.
Defined.

(** ** Running a synthesis step *)

(** [runsTo m st Q]: from [st], the step [m] completes, with a result and
    a final state that satisfy [Q]. *)
Definition runsTo {A} (m : Sema A) (st : SemaState)
    (Q : A -> SemaState -> Prop) : Prop :=
  exists a st', m st = Done (a, st') /\ Q a st'.

Lemma runsTo_ret :
  forall A (a : A) st (Q : A -> SemaState -> Prop),
    Q a st -> runsTo (ret a) st Q.
Proof. intros A a st Q H. exists a, st. split; [reflexivity|exact H]. Qed.

Lemma runsTo_bind :
  forall A B (m : Sema A) (k : A -> Sema B) st
         (R : A -> SemaState -> Prop) (Q : B -> SemaState -> Prop),
    runsTo m st R ->
    (forall a st', R a st' -> runsTo (k a) st' Q) ->
    runsTo (bind m k) st Q.
Proof.
  intros A B m k st R Q (a & st' & Hm & HR) Hk.
  destruct (Hk a st' HR) as (b & st'' & Hkb & HQ).
  exists b, st''. split; [|exact HQ].
  unfold bind. rewrite Hm. exact Hkb.
Qed.

Lemma runsTo_weaken :
  forall A (m : Sema A) st (Q Q' : A -> SemaState -> Prop),
    runsTo m st Q ->
    (forall a st', Q a st' -> Q' a st') ->
    runsTo m st Q'.
Proof.
  intros A m st Q Q' (a & st' & Hm & HQ) Himp.
  exists a, st'. split; [exact Hm|]. now apply Himp.
Qed.

Lemma runsTo_eq :
  forall A (m : Sema A) st a st' (Q : A -> SemaState -> Prop),
    m st = Done (a, st') -> Q a st' -> runsTo m st Q.
Proof. intros A m st a st' Q Hm HQ. exists a, st'. now split. Qed.

(** What a step may do to the state, for the steps that create nothing:
    the identities allocated so far are the same. *)
Definition allocatesNothing (st st' : SemaState) : Prop :=
  stNextID st' = stNextID st.

Definition allocatesOne (st st' : SemaState) : Prop :=
  stNextID st' = S (stNextID st).

Lemma runsTo_assert_true :
  forall assertionsEnabled cond msg st (Q : unit -> SemaState -> Prop),
    cond = true -> Q tt st -> runsTo (assert_ assertionsEnabled cond msg) st Q.
Proof.
  intros ae cond msg st Q Hc HQ. subst cond. unfold assert_. simpl.
  rewrite andb_false_r. now apply runsTo_ret.
Qed.

Lemma runsTo_addMember :
  forall d dc hint st,
    runsTo (addMemberToContextIfNeeded (AFuncDecl d) dc hint) st
      (fun _ st' => allocatesNothing st st' /\ stDiags st' = stDiags st).
Proof.
  intros d dc hint st. unfold addMemberToContextIfNeeded.
  destruct dc; eapply runsTo_eq; try reflexivity; split; reflexivity.
Qed.

(** In a type, a declaration of any class is added. *)
Lemma runsTo_addMember_in_type :
  forall D dc hint st,
    isTypeContext dc = true ->
    runsTo (addMemberToContextIfNeeded D dc hint) st
      (fun _ st' => allocatesNothing st st' /\ stDiags st' = stDiags st).
Proof.
  intros D dc hint st Hctx. unfold addMemberToContextIfNeeded.
  destruct dc; try discriminate Hctx;
    (eapply runsTo_eq; [reflexivity|]); split; reflexivity.
Qed.

Lemma runsTo_when_external :
  forall (b : bool) d st,
    runsTo (if b then addExternalDecl d else ret tt) st
      (fun _ st' => allocatesNothing st st' /\ stDiags st' = stDiags st).
Proof.
  intros b d st. destruct b; eapply runsTo_eq; try reflexivity;
    split; reflexivity.
Qed.

(** ** Prototypes *)

(** The index parameters an accessor of the entity forwards. *)
Definition storageIndices (storage : AbstractStorageDecl) : ParameterList :=
  match sdDeclKind (sdInfo storage) with
  | IsVarDecl => []
  | IsSubscriptDecl indices _ => cloneParameterList true false indices
  end.

Definition indicesForwardable (storage : AbstractStorageDecl) : bool :=
  negb (existsb pdIsVariadic (storageIndices storage)).

Lemma index_forwarding_param_list :
  forall storage prefix,
    buildIndexForwardingParamList storage prefix
    = prefix ++ storageIndices storage.
Proof.
  intros storage prefix.
  unfold buildIndexForwardingParamList, storageIndices.
  destruct (sdDeclKind (sdInfo storage)) as [|indices elementType].
  - now rewrite app_nil_r.
  - destruct prefix; reflexivity.
Qed.

(** An accessor whose last parameter list is a prefix of the right length
    followed by forwardable index parameters. *)
Definition forwardsIndices (accessor : FuncDecl) (indices : ParameterList)
  : Prop :=
  exists prefix,
    last (fnParameterLists accessor) [] = prefix ++ indices /\
    List.length prefix = prefixLength (fnAccessorKind accessor) /\
    existsb pdIsVariadic indices = false.

Lemma index_reference_forwardable :
  forall assertionsEnabled accessor indices st,
    forwardsIndices accessor indices ->
    buildSubscriptIndexReference assertionsEnabled accessor st
    = Done (Some (forwardedArguments indices), st).
Proof.
  intros ae accessor indices st (prefix & Hlast & Hlen & Hfixed).
  rewrite (index_reference_strips_prefix ae accessor prefix indices st Hlast Hlen).
  now rewrite forwarding_fixed_arity.
Qed.

Lemma buildStorageReference_runs :
  forall assertionsEnabled accessor indices storage semantics kind st,
    forwardsIndices accessor indices ->
    exists e,
      buildStorageReference assertionsEnabled accessor storage semantics kind st
      = Done (e, st).
Proof.
  intros ae accessor indices storage semantics kind st Hidx.
  unfold buildStorageReference, buildStorageReferenceIn. simpl.
  destruct (getImplicitSelfDecl accessor) as [self|]; [|eexists; reflexivity].
  destruct kind; [|destruct (sdOverriddenDecl storage) as [overridden|]];
    match goal with
    | |- context [isSubscriptDecl ?s] => destruct (isSubscriptDecl s)
    end;
    try (eexists; reflexivity);
    unfold bind;
    rewrite (index_reference_forwardable ae accessor indices st Hidx);
    eexists; reflexivity.
Qed.

Lemma createGetterPrototype_spec :
  forall TC storage st,
    runsTo (createGetterPrototype TC storage) st
      (fun getter st' =>
         allocatesOne st st' /\ stDiags st' = stDiags st /\
         fnID getter = stNextID st /\
         fnBody getter = None /\
         fnDeclContext getter = sdDeclContext (sdInfo storage) /\
         last (fnParameterLists getter) [] = storageIndices storage).
Proof.
  intros TC storage st. unfold createGetterPrototype, FuncDecl_create.
  eapply runsTo_eq; [reflexivity|].
  repeat split;
    destruct (sdIsGetterMutating (sdInfo storage)), (sdIsFinal storage),
      (sdIsStatic (sdInfo storage)); simpl; try reflexivity;
    rewrite last_last; apply (index_forwarding_param_list storage []).
Qed.

Lemma createSetterPrototype_spec :
  forall TC storage st,
    runsTo (createSetterPrototype TC storage) st
      (fun sv st' =>
         allocatesOne st st' /\ stDiags st' = stDiags st /\
         fnID (fst sv) = stNextID st /\
         fnBody (fst sv) = None /\
         fnDeclContext (fst sv) = sdDeclContext (sdInfo storage) /\
         last (fnParameterLists (fst sv)) [] = [snd sv] ++ storageIndices storage).
Proof.
  intros TC storage st. unfold createSetterPrototype, FuncDecl_create.
  eapply runsTo_eq; [reflexivity|].
  repeat split;
    destruct (sdIsSetterNonMutating (sdInfo storage)), (sdIsFinal storage),
      (sdIsStatic (sdInfo storage)); simpl; try reflexivity;
    rewrite last_last; apply index_forwarding_param_list.
Qed.

(** ** Trivial bodies *)

(** What body synthesis keeps of an accessor. *)
Definition sameAccessor (f f' : FuncDecl) : Prop :=
  fnID f' = fnID f /\ fnAccessorKind f' = fnAccessorKind f /\
  fnParameterLists f' = fnParameterLists f /\
  fnDeclContext f' = fnDeclContext f.

Lemma sameAccessor_refl : forall f, sameAccessor f f.
Proof. intros f. repeat split. Qed.

Lemma sameAccessor_transparent :
  forall f storage, sameAccessor f (maybeMarkTransparent f storage).
Proof.
  intros f storage. unfold maybeMarkTransparent.
  destruct (isNominalTypeOrNominalTypeExtensionContext _) as [nominal|];
    [destruct (ntdHasFixedLayout nominal)|]; repeat split.
Qed.

Lemma forwardsIndices_same :
  forall f f' indices,
    sameAccessor f f' -> forwardsIndices f indices -> forwardsIndices f' indices.
Proof.
  intros f f' indices (_ & Hkind & Hparams & _) (prefix & Hlast & Hlen & Hfix).
  exists prefix. rewrite Hkind, Hparams. repeat split; assumption.
Qed.

Lemma synthesizeCopyWithZoneCall_runs :
  forall TC Val VD st,
    runsTo (synthesizeCopyWithZoneCall TC Val VD) st
      (fun _ st' => allocatesNothing st st').
Proof.
  intros TC Val VD st.
  destruct (conformsToNSCopying TC VD) eqn:Hconf.
  - eapply runsTo_eq; [apply copyWithZone_conforming; exact Hconf|reflexivity].
  - eapply runsTo_eq; [apply copyWithZone_not_conforming; exact Hconf|reflexivity].
Qed.

Lemma createPropertyStore_runs :
  forall assertionsEnabled TC accessor indices value storage body st,
    forwardsIndices accessor indices ->
    runsTo (createPropertyStoreOrCallSuperclassSetter assertionsEnabled TC
              accessor value storage body) st
      (fun body' st' =>
         allocatesNothing st st' /\
         exists dest stored, body' = body ++ [NodeExpr (AssignExpr dest stored)]).
Proof.
  intros ae TC accessor indices value storage body st Hidx.
  unfold createPropertyStoreOrCallSuperclassSetter.
  eapply runsTo_bind with (R := fun _ st' => allocatesNothing st st').
  - destruct (negb (isSubscriptDecl storage)
              && hasAttribute NSCopyingAttr (sdAttrs storage)).
    + apply synthesizeCopyWithZoneCall_runs.
    + apply runsTo_ret. reflexivity.
  - intros stored st1 Hst1.
    destruct (buildStorageReference_runs ae accessor indices storage
                DirectToStorage Super st1 Hidx) as (dest & Hdest).
    eapply runsTo_bind with (R := fun e st2 => e = dest /\ st2 = st1);
      [eapply runsTo_eq; [exact Hdest|split; reflexivity]|].
    intros e st2 [He Hst2]. subst e st2.
    apply runsTo_ret. split; [exact Hst1|]. now exists dest, stored.
Qed.

Lemma synthesizeTrivialGetter_spec :
  forall assertionsEnabled getter indices storage st,
    forwardsIndices getter indices ->
    runsTo (synthesizeTrivialGetter assertionsEnabled getter storage) st
      (fun getter' st' =>
         allocatesNothing st st' /\ stDiags st' = stDiags st /\
         sameAccessor getter getter' /\
         exists result, fnBody getter' = Some [NodeReturnStmt result]).
Proof.
  intros ae getter indices storage st Hidx.
  unfold synthesizeTrivialGetter, createPropertyLoadOrCallSuperclassGetter.
  destruct (buildStorageReference_runs ae getter indices storage
              DirectToStorage Super st Hidx) as (result & Hresult).
  eapply runsTo_bind with (R := fun e st1 => e = result /\ st1 = st);
    [eapply runsTo_eq; [exact Hresult|split; reflexivity]|].
  intros e st1 [He Hst1]. subst e st1.
  eapply runsTo_bind; [apply runsTo_when_external|].
  intros _ st' [Hid Hdiags]. apply runsTo_ret.
  split; [exact Hid|]. split; [exact Hdiags|]. split.
  - destruct (sameAccessor_transparent (fnSetBody getter [NodeReturnStmt result])
                storage) as (H1 & H2 & H3 & H4).
    repeat split; assumption.
  - exists result. unfold maybeMarkTransparent.
    destruct (isNominalTypeOrNominalTypeExtensionContext _) as [nominal|];
      [destruct (ntdHasFixedLayout nominal)|]; reflexivity.
Qed.

Lemma synthesizeTrivialSetter_spec :
  forall assertionsEnabled TC setter indices storage valueVar st,
    forwardsIndices setter indices ->
    runsTo (synthesizeTrivialSetter assertionsEnabled TC setter storage valueVar)
      st
      (fun setter' st' => allocatesNothing st st' /\ sameAccessor setter setter').
Proof.
  intros ae TC setter indices storage valueVar st Hidx.
  unfold synthesizeTrivialSetter.
  destruct (sdIsInvalid (sdInfo storage)).
  - apply runsTo_ret. split; [reflexivity|apply sameAccessor_refl].
  - eapply runsTo_bind; [apply (createPropertyStore_runs ae TC setter indices);
                         exact Hidx|].
    intros body st1 [Hst1 _].
    eapply runsTo_bind; [apply runsTo_when_external|].
    intros _ st2 [Hst2 _]. apply runsTo_ret. split.
    + unfold allocatesNothing in *. congruence.
    + destruct (sameAccessor_transparent (fnSetBody setter body) storage)
        as (H1 & H2 & H3 & H4).
      repeat split; assumption.
Qed.

(** ** materializeForSet *)

Lemma createMaterializeForSetReturnType_runs :
  forall assertionsEnabled TC storage st,
    exists ty,
      createMaterializeForSetReturnType assertionsEnabled TC storage st
      = Done (ty, st).
Proof.
  intros ae TC storage st.
  unfold createMaterializeForSetReturnType,
    getSelfTypeForMaterializeForSetCallback, getDeclaredTypeInContext,
    isGenericContext.
  destruct (isNominalTypeOrNominalTypeExtensionContext
              (sdDeclContext (sdInfo storage))) as [nominal|].
  - destruct (ntdIsErroneous nominal); simpl; [eexists; reflexivity|].
    destruct (ntdKind nominal); simpl;
      destruct (sdIsStatic (sdInfo storage)); eexists; reflexivity.
  - simpl. unfold bind, assert_. simpl. rewrite andb_false_r.
    eexists; reflexivity.
Qed.

Lemma createMaterializeForSetPrototype_spec :
  forall assertionsEnabled TC storage setter st,
    sdSetter storage = Some setter ->
    runsTo (createMaterializeForSetPrototype assertionsEnabled TC storage) st
      (fun m st' =>
         allocatesOne st st' /\ stDiags st' = stDiags st /\
         fnID m = stNextID st /\ fnBody m = None).
Proof.
  intros ae TC storage setter st Hsetter.
  unfold createMaterializeForSetPrototype.
  destruct (createMaterializeForSetReturnType_runs ae TC storage st)
    as (ty & Hty).
  eapply runsTo_bind with (R := fun _ st1 => st1 = st);
    [eapply runsTo_eq; [exact Hty|reflexivity]|].
  intros retTy st1 Hst1. subst st1.
  eapply runsTo_bind with
    (R := fun f st1 =>
            fnID f = stNextID st /\ fnBody f = None /\
            allocatesOne st st1 /\ stDiags st1 = stDiags st);
    [eapply runsTo_eq; [reflexivity|repeat split]|].
  intros f st1 (Hf & Hbody & Hid & Hdiags).
  rewrite Hsetter.
  eapply runsTo_bind; [apply runsTo_when_external|].
  intros _ st2 [Hid2 Hdiags2]. apply runsTo_ret.
  unfold allocatesOne, allocatesNothing in *.
  split; [congruence|]. split; [congruence|].
  unfold makeFinalFunc.
  repeat match goal with
         | |- context [if ?b then _ else _] => destruct b
         end; split; simpl; assumption.
Qed.

Lemma addMaterializeForSet_spec :
  forall assertionsEnabled TC storage setter st,
    sdSetter storage = Some setter ->
    runsTo (addMaterializeForSet assertionsEnabled TC storage) st
      (fun ms st' =>
         allocatesOne st st' /\ stDiags st' = stDiags st /\
         fnAccessorKind (fst ms) = IsMaterializeForSet /\
         fnID (fst ms) = stNextID st /\
         fnBody (fst ms) = None /\
         snd ms = sdSetMaterializeForSetFunc storage (Some (fst ms))).
Proof.
  intros ae TC storage setter st Hsetter.
  unfold addMaterializeForSet.
  eapply runsTo_bind;
    [apply (createMaterializeForSetPrototype_spec ae TC storage setter st Hsetter)|].
  intros m st1 (Hid & Hdiags & Hm & Hbody).
  eapply runsTo_bind; [apply runsTo_addMember|].
  intros _ st2 [Hid2 Hdiags2].
  eapply runsTo_eq; [reflexivity|]. simpl.
  unfold allocatesOne, allocatesNothing in *. simpl.
  repeat split; try congruence.
Qed.

Lemma synthesizeMaterializeForSet_spec :
  forall materializeForSet storage st,
    runsTo (synthesizeMaterializeForSet materializeForSet storage) st
      (fun m st' =>
         allocatesNothing st st' /\ stDiags st' = stDiags st /\
         sameAccessor materializeForSet m /\
         fnBody m = fnBody materializeForSet).
Proof.
  intros m storage st. unfold synthesizeMaterializeForSet.
  eapply runsTo_bind with
    (R := fun _ st1 => allocatesNothing st st1 /\ stDiags st1 = stDiags st);
    [eapply runsTo_eq; [reflexivity|split; reflexivity]|].
  intros _ st1 [Hid Hdiags].
  eapply runsTo_bind; [apply runsTo_when_external|].
  intros _ st2 [Hid2 Hdiags2]. apply runsTo_ret.
  unfold allocatesNothing in *.
  split; [congruence|]. split; [congruence|]. split.
  - apply sameAccessor_transparent.
  - unfold maybeMarkTransparent.
    destruct (isNominalTypeOrNominalTypeExtensionContext _) as [nominal|];
      [destruct (ntdHasFixedLayout nominal)|]; reflexivity.
Qed.

Lemma runsTo_request :
  forall r st,
    runsTo (request r) st
      (fun _ st' => allocatesNothing st st' /\ stDiags st' = stDiags st).
Proof. intros r st. eapply runsTo_eq; [reflexivity|split; reflexivity]. Qed.

Lemma runsTo_typeCheckDecl :
  forall d pass st,
    runsTo (typeCheckDecl d pass) st
      (fun _ st' => allocatesNothing st st' /\ stDiags st' = stDiags st).
Proof. intros d pass st. apply runsTo_request. Qed.

Lemma runsTo_validateDecl :
  forall d st,
    runsTo (validateDecl d) st
      (fun _ st' => allocatesNothing st st' /\ stDiags st' = stDiags st).
Proof. intros d st. apply runsTo_request. Qed.

(** ** Trivial accessors of stored and addressed storage *)

Definition synthesizedAccessors (s : AbstractStorageDecl) : list FuncDecl :=
  let slot (f : option FuncDecl) :=
    match f with Some a => [a] | None => [] end in
  slot (sdGetter s) ++ slot (sdSetter s) ++ slot (sdMaterializeForSetFunc s).

Definition countAccessors (k : AccessorKind) (s : AbstractStorageDecl) : nat :=
  List.length
    (filter (fun f => AccessorKind_eqb (fnAccessorKind f) k)
            (synthesizedAccessors s)).

(** The entity is mutable: a stored 'var', or addressed storage with a
    mutable addressor. *)
Definition isDeclaredMutable (s : AbstractStorageDecl) : bool :=
  match sdStorageKind s with
  | Stored => negb (sdIsLet (sdInfo s))
  | Addressed =>
      match sdMutableAddressor s with Some _ => true | None => false end
  | _ => false
  end.

Definition isValueTypeContext (dc : DeclContext) : bool :=
  match isNominalTypeOrNominalTypeExtensionContext dc with
  | Some n => match ntdKind n with
              | StructDecl | EnumDecl => true
              | _ => false
              end
  | None => false
  end.

(** The entity is a constant with an inline initializer on a value
    type. *)
Definition isInitializedConstantOfValueType (s : AbstractStorageDecl) : bool :=
  sdIsLet (sdInfo s) && hasInlineInitializer s
  && isValueTypeContext (sdDeclContext (sdInfo s)).

(** Storage without accessors, as declarations have it: stored storage
    is a variable (subscripts are never stored), and a constant carries
    no addressor. *)
Record plainStorage (s : AbstractStorageDecl) : Prop := mkPlainStorage {
  plain_no_accessors : hasAccessorFunctions s = false;
  plain_stored_variable : sdStorageKind s = Stored -> isSubscriptDecl s = false;
  plain_constant_stored : sdIsLet (sdInfo s) = true -> sdStorageKind s = Stored
}.

Lemma doesStorageNeedSetter_plain :
  forall assertionsEnabled storage st,
    plainStorage storage ->
    doesStorageNeedSetter assertionsEnabled storage st
    = Done (isDeclaredMutable storage, st).
Proof.
  intros ae storage st [Hno Hvar Hconst].
  unfold doesStorageNeedSetter, isDeclaredMutable, bind, assert_.
  rewrite Hno. simpl. rewrite andb_false_r.
  unfold hasAccessorFunctions in Hno.
  destruct (sdStorageKind storage); try discriminate Hno.
  - rewrite (Hvar eq_refl). reflexivity.
  - reflexivity.
Qed.

Lemma mutable_is_not_constant :
  forall storage,
    plainStorage storage ->
    isDeclaredMutable storage = true ->
    sdIsLet (sdInfo storage) = false.
Proof.
  intros storage [Hno Hvar Hconst] Hmut.
  destruct (sdIsLet (sdInfo storage)) eqn:Hlet; [|reflexivity].
  unfold isDeclaredMutable in Hmut. rewrite (Hconst eq_refl), Hlet in Hmut.
  discriminate Hmut.
Qed.

(** The accessors in the slots of the entity once trivial accessors are
    synthesized. *)
Definition trivialAccessorsInstalled (storage storage' : AbstractStorageDecl)
  : Prop :=
  (exists getter,
      sdGetter storage' = Some getter /\ fnAccessorKind getter = IsGetter) /\
  (if isDeclaredMutable storage then
     (exists setter,
         sdSetter storage' = Some setter /\ fnAccessorKind setter = IsSetter) /\
     match isNominalTypeOrNominalTypeExtensionContext
             (sdDeclContext (sdInfo storage)) with
     | Some _ =>
         exists materializeForSet,
           sdMaterializeForSetFunc storage' = Some materializeForSet /\
           fnAccessorKind materializeForSet = IsMaterializeForSet
     | None => sdMaterializeForSetFunc storage' = None
     end
   else sdSetter storage' = None /\ sdMaterializeForSetFunc storage' = None).

Lemma addTrivialAccessorsToStorage_spec :
  forall assertionsEnabled TC storage st,
    plainStorage storage ->
    indicesForwardable storage = true ->
    runsTo (addTrivialAccessorsToStorage assertionsEnabled TC storage) st
      (fun storage' st' =>
         trivialAccessorsInstalled storage storage' /\
         sdInfo storage' = sdInfo storage /\
         stNextID st' = stNextID st + List.length (synthesizedAccessors storage')).
Proof.
  intros ae TC storage st Hplain Hfwd.
  assert (Hfixed : existsb pdIsVariadic (storageIndices storage) = false).
  { unfold indicesForwardable in Hfwd. now apply negb_true_iff in Hfwd. }
  unfold addTrivialAccessorsToStorage.
  eapply runsTo_bind with (R := fun _ st1 => st1 = st).
  { apply runsTo_assert_true; [|reflexivity].
    now rewrite (plain_no_accessors _ Hplain). }
  intros _ st0 Hst0. subst st0.
  eapply runsTo_bind; [apply createGetterPrototype_spec|].
  intros getter st1 (Hid1 & _ & HgID & _ & _ & Hglast).
  eapply runsTo_bind with
    (R := fun b st2 => b = isDeclaredMutable storage /\ st2 = st1).
  { eapply runsTo_eq; [apply doesStorageNeedSetter_plain; exact Hplain|].
    split; reflexivity. }
  intros needSetter st2 [Hneed Hst2]. subst needSetter st2.
  assert (Hgetter_fwd :
    forall g, sameAccessor (fnSetAccessorKind getter IsGetter) g ->
              forwardsIndices g (storageIndices storage)).
  { intros g Hsame. eapply forwardsIndices_same; [exact Hsame|].
    exists []. simpl. repeat split; assumption. }
  destruct (isDeclaredMutable storage) eqn:Hmut.
  - (* a setter is needed *)
    eapply runsTo_bind with
      (R := fun sv st2 =>
              exists setter valueDecl,
                sv = Some (setter, valueDecl) /\ allocatesOne st1 st2 /\
                last (fnParameterLists setter) []
                = [valueDecl] ++ storageIndices storage).
    { eapply runsTo_bind; [apply createSetterPrototype_spec|].
      intros [setter valueDecl] st2 (Hid2 & _ & _ & _ & _ & Hslast).
      apply runsTo_ret. exists setter, valueDecl. repeat split; assumption. }
    intros sv st2 (setter & valueDecl & Hsv & Hid2 & Hslast). subst sv.
    cbn [option_map fst].
    eapply runsTo_bind.
    { apply (synthesizeTrivialGetter_spec ae _ (storageIndices storage)).
      apply Hgetter_fwd.
      destruct (sdIsDynamic _ && sdIsObjC _); repeat split. }
    intros getter' st3 (Hid3 & _ & Hsame3 & _).
    eapply runsTo_bind; [apply runsTo_typeCheckDecl|].
    intros _ st4 [Hid4 _].
    eapply runsTo_bind; [apply runsTo_typeCheckDecl|].
    intros _ st5 [Hid5 _].
    eapply runsTo_bind with
      (R := fun storage1 st6 =>
              allocatesNothing st5 st6 /\
              exists setter',
                fnAccessorKind setter' = IsSetter /\
                storage1
                = sdSetSetter
                    (sdSetGetter
                       (addTrivialAccessors storage getter (Some setter) None)
                       (Some getter'))
                    (Some setter')).
    { eapply runsTo_bind.
      { apply (synthesizeTrivialSetter_spec ae TC _ (storageIndices storage)).
        eapply forwardsIndices_same with
          (f := fnSetAccessorKind setter IsSetter).
        - destruct (sdIsDynamic _ && sdIsObjC _); repeat split.
        - exists [valueDecl]. simpl. repeat split; assumption. }
      intros setter' st6 (Hid6 & Hsame6).
      eapply runsTo_bind; [apply runsTo_typeCheckDecl|].
      intros _ st7 [Hid7 _].
      eapply runsTo_bind; [apply runsTo_typeCheckDecl|].
      intros _ st8 [Hid8 _]. apply runsTo_ret. split.
      - unfold allocatesNothing in *. congruence.
      - exists setter'. split; [|reflexivity].
        destruct Hsame6 as (_ & Hk & _). rewrite Hk.
        destruct (sdIsDynamic _ && sdIsObjC _); reflexivity. }
    intros storage1 st6 (Hid6 & setter' & Hskind & Hstorage1). subst storage1.
    cbn [sdInfo sdSetSetter sdSetGetter addTrivialAccessors installAccessors
         sdSetMaterializeForSetFunc sdSetStorageKind sdSetter].
    eapply runsTo_bind; [apply runsTo_addMember|].
    intros _ st7 [Hid7 _].
    eapply runsTo_bind; [apply runsTo_addMember|].
    intros _ st8 [Hid8 _].
    assert (Hgkind : fnAccessorKind getter' = IsGetter).
    { destruct Hsame3 as (_ & Hk & _). rewrite Hk.
      destruct (sdIsDynamic _ && sdIsObjC _); reflexivity. }
    assert (Hbase : stNextID st8 = stNextID st + 2).
    { unfold allocatesOne, allocatesNothing in *. lia. }
    unfold trivialAccessorsInstalled. rewrite Hmut.
    destruct (isNominalTypeOrNominalTypeExtensionContext
                (sdDeclContext (sdInfo storage))) as [nominal|].
    + eapply runsTo_bind.
      { eapply (addMaterializeForSet_spec ae TC _ setter'). reflexivity. }
      intros [m storage2] st9 (Hid9 & _ & Hmkind & _ & _ & Hstorage2).
      cbn [fst snd] in *. subst storage2.
      eapply runsTo_bind; [apply synthesizeMaterializeForSet_spec|].
      intros m' st10 (Hid10 & _ & Hsame10 & _).
      eapply runsTo_bind; [apply runsTo_typeCheckDecl|].
      intros _ st11 [Hid11 _]. apply runsTo_ret.
      split; [|split].
      * split; [exists getter'; split; [reflexivity|exact Hgkind]|].
        split; [exists setter'; split; [reflexivity|exact Hskind]|].
        exists m'. split; [reflexivity|].
        destruct Hsame10 as (_ & Hk & _). now rewrite Hk.
      * reflexivity.
      * unfold allocatesOne, allocatesNothing in *.
        unfold synthesizedAccessors. simpl. lia.
    + apply runsTo_ret. split; [|split].
      * split; [exists getter'; split; [reflexivity|exact Hgkind]|].
        split; [exists setter'; split; [reflexivity|exact Hskind]|].
        reflexivity.
      * reflexivity.
      * unfold synthesizedAccessors. simpl. lia.
  - (* no setter *)
    eapply runsTo_bind with (R := fun sv st2 => sv = None /\ st2 = st1).
    { apply runsTo_ret. split; reflexivity. }
    intros sv st2 [Hsv Hst2]. subst sv st2.
    cbn [option_map].
    eapply runsTo_bind.
    { apply (synthesizeTrivialGetter_spec ae _ (storageIndices storage)).
      apply Hgetter_fwd.
      destruct (sdIsDynamic _ && sdIsObjC _); repeat split. }
    intros getter' st3 (Hid3 & _ & Hsame3 & _).
    eapply runsTo_bind; [apply runsTo_typeCheckDecl|].
    intros _ st4 [Hid4 _].
    eapply runsTo_bind; [apply runsTo_typeCheckDecl|].
    intros _ st5 [Hid5 _].
    eapply runsTo_bind with
      (R := fun storage1 st6 =>
              st6 = st5 /\
              storage1
              = sdSetGetter (addTrivialAccessors storage getter None None)
                            (Some getter')).
    { apply runsTo_ret. split; reflexivity. }
    intros storage1 st6 [Hst6 Hstorage1]. subst storage1 st6.
    cbn [sdInfo sdSetSetter sdSetGetter addTrivialAccessors installAccessors
         sdSetMaterializeForSetFunc sdSetStorageKind sdSetter option_map].
    eapply runsTo_bind; [apply runsTo_addMember|].
    intros _ st7 [Hid7 _]. apply runsTo_ret.
    unfold trivialAccessorsInstalled. rewrite Hmut.
    split; [|split].
    + split; [|split; reflexivity].
      exists getter'. split; [reflexivity|].
      destruct Hsame3 as (_ & Hk & _). rewrite Hk.
      destruct (sdIsDynamic _ && sdIsObjC _); reflexivity.
    + reflexivity.
    + unfold allocatesOne, allocatesNothing in *.
      unfold synthesizedAccessors. simpl. lia.
Qed.

Lemma countAccessors_installed :
  forall storage storage',
    trivialAccessorsInstalled storage storage' ->
    countAccessors IsGetter storage' = 1 /\
    countAccessors IsSetter storage'
    = (if isDeclaredMutable storage then 1 else 0).
Proof.
  intros storage storage' [(getter & Hg & Hgk) Hrest].
  unfold countAccessors, synthesizedAccessors. rewrite Hg.
  destruct (isDeclaredMutable storage).
  - destruct Hrest as [(setter & Hs & Hsk) Hm]. rewrite Hs.
    destruct (isNominalTypeOrNominalTypeExtensionContext _).
    + destruct Hm as (m & Hm & Hmk). rewrite Hm. simpl.
      rewrite Hgk, Hsk, Hmk. split; reflexivity.
    + rewrite Hm. simpl. rewrite Hgk, Hsk. split; reflexivity.
  - destruct Hrest as [Hs Hm]. rewrite Hs, Hm. simpl. rewrite Hgk.
    split; reflexivity.
Qed.

(** C1.  Trivial-accessor synthesis for a storage entity without
    accessors creates exactly one Getter, and a Setter iff the entity is
    mutable (a stored 'var', or addressed storage with a mutable
    addressor) and is not a constant with an inline initializer on a value
    type: a mutable entity gets one Getter and one Setter, a constant with
    no inline initializer one Getter and no Setter.  Nothing but the
    accessors left in the entity is created. *)
Theorem trivial_accessors_getter_and_setter :
  forall assertionsEnabled TC storage st,
    plainStorage storage ->
    indicesForwardable storage = true ->
    exists storage' st',
      addTrivialAccessorsToStorage assertionsEnabled TC storage st
      = Done (storage', st') /\
      countAccessors IsGetter storage' = 1 /\
      countAccessors IsSetter storage' <= 1 /\
      (countAccessors IsSetter storage' = 1 <->
       isDeclaredMutable storage = true /\
       isInitializedConstantOfValueType storage = false) /\
      ((exists setter, sdSetter storage' = Some setter) <->
       isDeclaredMutable storage = true /\
       isInitializedConstantOfValueType storage = false) /\
      (isDeclaredMutable storage = true ->
       countAccessors IsGetter storage' = 1 /\
       countAccessors IsSetter storage' = 1) /\
      (sdIsLet (sdInfo storage) = true ->
       hasInlineInitializer storage = false ->
       countAccessors IsGetter storage' = 1 /\
       countAccessors IsSetter storage' = 0) /\
      stNextID st' = stNextID st + List.length (synthesizedAccessors storage').
Proof.
  intros ae TC storage st Hplain Hfwd.
  destruct (addTrivialAccessorsToStorage_spec ae TC storage st Hplain Hfwd)
    as (storage' & st' & Hrun & Hinst & _ & Hids).
  exists storage', st'. split; [exact Hrun|].
  destruct (countAccessors_installed storage storage' Hinst) as [Hget Hset].
  assert (Hconst : isDeclaredMutable storage = true ->
                   isInitializedConstantOfValueType storage = false).
  { intros Hmut. unfold isInitializedConstantOfValueType.
    now rewrite (mutable_is_not_constant storage Hplain Hmut). }
  assert (Hlet : sdIsLet (sdInfo storage) = true ->
                 isDeclaredMutable storage = false).
  { intros Hl. destruct (isDeclaredMutable storage) eqn:Hmut; [|reflexivity].
    rewrite (mutable_is_not_constant storage Hplain Hmut) in Hl.
    discriminate Hl. }
  split; [exact Hget|].
  split; [rewrite Hset; destruct (isDeclaredMutable storage); lia|].
  split; [|split; [|split; [|split]]].
  - rewrite Hset. destruct (isDeclaredMutable storage) eqn:Hmut.
    + split; [intros _; split; [reflexivity|now apply Hconst]|reflexivity].
    + split; [discriminate|intros [H _]; discriminate H].
  - destruct Hinst as [_ Hrest].
    destruct (isDeclaredMutable storage) eqn:Hmut.
    + destruct Hrest as [(setter & Hs & _) _].
      split; [intros _; split; [reflexivity|now apply Hconst]|].
      intros _. now exists setter.
    + destruct Hrest as [Hs _]. rewrite Hs.
      split; [intros [setter H]; discriminate H|intros [H _]; discriminate H].
  - intros Hmut. rewrite Hset, Hmut. split; [exact Hget|reflexivity].
  - intros Hl _. rewrite Hset, (Hlet Hl). split; [exact Hget|reflexivity].
  - exact Hids.
Qed.

Definition subscriptOf (id : DeclID) (dc : DeclContext)
    (indices : ParameterList) (mutableAddressor : option FuncDecl)
  : AbstractStorageDecl :=
  mkStorage
    (mkInfo id "subscript" (IsSubscriptDecl indices (TyNominal "Int"))
       (TyNominal "Int") dc false false false false false false false false)
    None Addressed [] false false true (Some Internal) None None None None
    None None None mutableAddressor.

Lemma trivial_accessors_getter_and_setter_witness :
  (exists storage' st',
      addTrivialAccessorsToStorage true fullTC
        (plainVar 40 "x" (NominalDC structPoint) false [] None) emptyState
      = Done (storage', st') /\
      countAccessors IsGetter storage' = 1 /\
      countAccessors IsSetter storage' = 1 /\
      stNextID st' = 103) /\
  (exists storage' st',
      addTrivialAccessorsToStorage true fullTC
        (plainVar 42 "tag" (NominalDC structPoint) true [] None) emptyState
      = Done (storage', st') /\
      countAccessors IsGetter storage' = 1 /\
      countAccessors IsSetter storage' = 0 /\
      stNextID st' = 101) /\
  (exists storage' st',
      addTrivialAccessorsToStorage true fullTC
        (subscriptOf 45 (NominalDC structPoint) [paramInt "at" "i"]
           (Some (accessorIn (NominalDC structPoint) 46 IsMutableAddressor
                    [paramInt "at" "i"])))
        emptyState
      = Done (storage', st') /\
      countAccessors IsGetter storage' = 1 /\
      countAccessors IsSetter storage' = 1).
Proof.
  split; [|split].
  - assert (Hplain : plainStorage
                       (plainVar 40 "x" (NominalDC structPoint) false [] None)).
    { constructor; simpl; intros; solve [reflexivity | discriminate]. }
    destruct (trivial_accessors_getter_and_setter true fullTC _ emptyState
                Hplain eq_refl)
      as (storage' & st' & Hrun & Hget & _ & _ & _ & Hmut & _ & Hids).
    exists storage', st'. split; [exact Hrun|].
    destruct (Hmut eq_refl) as [_ Hset].
    split; [exact Hget|]. split; [exact Hset|].
    vm_compute in Hrun. injection Hrun as Hs Hst. subst st'. reflexivity.
  - assert (Hplain : plainStorage
                       (plainVar 42 "tag" (NominalDC structPoint) true [] None)).
    { constructor; simpl; intros; solve [reflexivity | discriminate]. }
    destruct (trivial_accessors_getter_and_setter true fullTC _ emptyState
                Hplain eq_refl)
      as (storage' & st' & Hrun & Hget & _ & _ & _ & _ & Hlet & Hids).
    exists storage', st'. split; [exact Hrun|].
    destruct (Hlet eq_refl eq_refl) as [_ Hset].
    split; [exact Hget|]. split; [exact Hset|].
    vm_compute in Hrun. injection Hrun as Hs Hst. subst st'. reflexivity.
  - assert (Hplain : plainStorage
                       (subscriptOf 45 (NominalDC structPoint)
                          [paramInt "at" "i"]
                          (Some (accessorIn (NominalDC structPoint) 46
                                   IsMutableAddressor [paramInt "at" "i"])))).
    { constructor; simpl; intros; solve [reflexivity | discriminate]. }
    destruct (trivial_accessors_getter_and_setter true fullTC _ emptyState
                Hplain eq_refl)
      as (storage' & st' & Hrun & Hget & _ & _ & _ & Hmut & _).
    exists storage', st'. split; [exact Hrun|].
    destruct (Hmut eq_refl) as [_ Hset]. split; assumption.
Defined.

(** ** When materializeForSet is synthesized *)

Definition hasSetter (s : AbstractStorageDecl) : bool :=
  match sdSetter s with Some _ => true | None => false end.

Definition hasMaterializeForSet (s : AbstractStorageDecl) : bool :=
  match sdMaterializeForSetFunc s with Some _ => true | None => false end.

Definition overriddenHasMaterializeForSet (s : AbstractStorageDecl) : bool :=
  match sdOverriddenDecl s with
  | Some overridden => hasMaterializeForSet overridden
  | None => false
  end.

Definition scopeKind (s : AbstractStorageDecl) : option NominalKind :=
  option_map ntdKind
    (isNominalTypeOrNominalTypeExtensionContext (sdDeclContext (sdInfo s))).

Definition scopeIsObjC (s : AbstractStorageDecl) : bool :=
  match isNominalTypeOrNominalTypeExtensionContext (sdDeclContext (sdInfo s)) with
  | Some n => ntdIsObjC n
  | None => false
  end.

Definition scopeHasClangNode (s : AbstractStorageDecl) : bool :=
  match isNominalTypeOrNominalTypeExtensionContext (sdDeclContext (sdInfo s)) with
  | Some n => ntdHasClangNode n
  | None => false
  end.

(** The condition as the claim words it: a Setter exists, the declaring
    scope is a type, and the scope is a non-ObjC protocol outside a
    protocol extension, or the entity is a non-final class member (or a
    final one overriding an entity that has a materializeForSet), or the
    overridden entity carries one. *)
Definition claimedMaterializeCondition (s : AbstractStorageDecl) : bool :=
  hasSetter s
  && isTypeContext (sdDeclContext (sdInfo s))
  && (match scopeKind s with
      | Some ProtocolDecl =>
          negb (scopeIsObjC s)
          && negb (isProtocolExtensionContext (sdDeclContext (sdInfo s)))
      | Some ClassDecl =>
          negb (sdIsFinal s) || overriddenHasMaterializeForSet s
      | _ => false
      end
      || overriddenHasMaterializeForSet s).

(** The condition of [maybeAddMaterializeForSet]. *)
Definition needsMaterializeForSet (s : AbstractStorageDecl) : bool :=
  hasSetter s
  && negb (sdIsInvalid (sdInfo s))
  && match scopeKind s with
     | Some ProtocolDecl =>
         negb (scopeIsObjC s)
         && negb (isProtocolExtensionContext (sdDeclContext (sdInfo s)))
     | Some ClassDecl => negb (sdIsFinal s) || overriddenHasMaterializeForSet s
     | Some StructDecl => negb (scopeHasClangNode s)
     | Some EnumDecl => false
     | None => false
     end.

Lemma maybeAddMaterializeForSet_spec :
  forall assertionsEnabled TC storage st,
    hasAccessorFunctions storage = true ->
    sdMaterializeForSetFunc storage = None ->
    runsTo (maybeAddMaterializeForSet assertionsEnabled TC storage) st
      (fun storage' st' =>
         if needsMaterializeForSet storage then
           allocatesOne st st' /\ stDiags st' = stDiags st /\
           exists m,
             fnAccessorKind m = IsMaterializeForSet /\ fnBody m = None /\
             storage' = sdSetMaterializeForSetFunc storage (Some m)
         else storage' = storage /\ st' = st).
Proof.
  intros ae TC storage st Hacc Hnone.
  unfold maybeAddMaterializeForSet.
  eapply runsTo_bind with (R := fun _ st1 => st1 = st).
  { apply runsTo_assert_true; [exact Hacc|reflexivity]. }
  intros _ st0 Hst0. subst st0. rewrite Hnone.
  unfold needsMaterializeForSet, hasSetter, scopeKind, scopeIsObjC,
    scopeHasClangNode, overriddenHasMaterializeForSet, hasMaterializeForSet.
  destruct (sdSetter storage) as [setter|] eqn:Hsetter;
    [|apply runsTo_ret; split; reflexivity].
  destruct (sdIsInvalid (sdInfo storage));
    [apply runsTo_ret; split; reflexivity|].
  destruct (isNominalTypeOrNominalTypeExtensionContext
              (sdDeclContext (sdInfo storage))) as [container|];
    [|apply runsTo_ret; split; reflexivity].
  assert (Hadd :
    runsTo (bind (addMaterializeForSet ae TC storage) (fun ms => ret (snd ms)))
      st
      (fun storage' st' =>
         allocatesOne st st' /\ stDiags st' = stDiags st /\
         exists m,
           fnAccessorKind m = IsMaterializeForSet /\ fnBody m = None /\
           storage' = sdSetMaterializeForSetFunc storage (Some m))).
  { eapply runsTo_bind;
      [apply (addMaterializeForSet_spec ae TC storage setter st Hsetter)|].
    intros [m storage'] st' (Hid & Hdiags & Hk & _ & Hbody & Hs).
    apply runsTo_ret. split; [exact Hid|]. split; [exact Hdiags|].
    exists m. repeat split; assumption. }
  cbn [option_map andb negb].
  destruct (ntdKind container).
  - destruct (ntdHasClangNode container); cbn [negb];
      [apply runsTo_ret; split; reflexivity|exact Hadd].
  - destruct (sdIsFinal storage); cbn [negb orb]; [|exact Hadd].
    destruct (sdOverriddenDecl storage) as [overridden|];
      [|apply runsTo_ret; split; reflexivity].
    destruct (sdMaterializeForSetFunc overridden);
      [exact Hadd|apply runsTo_ret; split; reflexivity].
  - apply runsTo_ret; split; reflexivity.
  - destruct (ntdIsObjC container); cbn [negb andb];
      [apply runsTo_ret; split; reflexivity|].
    destruct (isProtocolExtensionContext (sdDeclContext (sdInfo storage)));
      cbn [negb]; [apply runsTo_ret; split; reflexivity|exact Hadd].
Qed.

(** C2, as the code has it.  For an entity that has accessors and no
    materializeForSet yet, [maybeAddMaterializeForSet] synthesizes one iff
    a Setter exists, the entity is not invalid, the declaring scope is a
    type, and the scope is a non-ObjC protocol outside a protocol
    extension, or a class in which the entity is not final or overrides an
    entity that has a materializeForSet, or a struct that is not imported
    (never an enum); trivial-accessor synthesis adds one iff it creates a
    Setter and the declaring scope is a type. *)
Theorem materializeForSet_synthesized_iff :
  forall assertionsEnabled TC storage plain st,
    hasAccessorFunctions storage = true ->
    sdMaterializeForSetFunc storage = None ->
    plainStorage plain ->
    indicesForwardable plain = true ->
    (exists storage' st',
        maybeAddMaterializeForSet assertionsEnabled TC storage st
        = Done (storage', st') /\
        (hasMaterializeForSet storage' = true <->
         needsMaterializeForSet storage = true) /\
        (needsMaterializeForSet storage = false ->
         storage' = storage /\ st' = st)) /\
    (exists plain' st',
        addTrivialAccessorsToStorage assertionsEnabled TC plain st
        = Done (plain', st') /\
        (hasMaterializeForSet plain' = true <->
         hasSetter plain' = true
         /\ isTypeContext (sdDeclContext (sdInfo plain)) = true)).
Proof.
  intros ae TC storage plain st Hacc Hnone Hplain Hfwd. split.
  - destruct (maybeAddMaterializeForSet_spec ae TC storage st Hacc Hnone)
      as (storage' & st' & Hrun & Hpost).
    exists storage', st'. split; [exact Hrun|].
    destruct (needsMaterializeForSet storage).
    + destruct Hpost as (_ & _ & m & _ & _ & Hs). subst storage'.
      split; [split; reflexivity|discriminate].
    + destruct Hpost as [Hs Hst]. subst storage' st'.
      unfold hasMaterializeForSet. rewrite Hnone.
      split; [split; discriminate|intros _; split; reflexivity].
  - destruct (addTrivialAccessorsToStorage_spec ae TC plain st Hplain Hfwd)
      as (plain' & st' & Hrun & [_ Hinst] & _ & _).
    exists plain', st'. split; [exact Hrun|].
    unfold hasMaterializeForSet, hasSetter.
    destruct (isDeclaredMutable plain).
    + destruct Hinst as [(setter & Hs & _) Hm]. rewrite Hs.
      destruct (sdDeclContext (sdInfo plain)) as [n|n|k| |]; simpl in *;
        try (destruct Hm as (m & Hm & _); rewrite Hm;
             split; [split; reflexivity|reflexivity]);
        rewrite Hm; (split; [discriminate|intros [_ H]; discriminate H]).
    + destruct Hinst as [Hs Hm]. rewrite Hs, Hm.
      split; [discriminate|intros [H _]; discriminate H].
Qed.

(** A property with a getter and a setter (shells without bodies). *)
Definition withAccessors (kind : StorageKind) (s : AbstractStorageDecl)
  : AbstractStorageDecl :=
  let dc := sdDeclContext (sdInfo s) in
  installAccessors kind
    (accessorIn dc (sdID (sdInfo s) + 1000) NotAccessor [])
    (Some (accessorIn dc (sdID (sdInfo s) + 2000) NotAccessor
             [buildLetArgument "value" (sdType (sdInfo s))]))
    None s.

Definition computedInStruct : AbstractStorageDecl :=
  withAccessors Computed (plainVar 40 "x" (NominalDC structPoint) false [] None).

Definition computedInEnum : AbstractStorageDecl :=
  withAccessors Computed (plainVar 47 "x" (NominalDC enumShape) false [] None).

Lemma materializeForSet_synthesized_iff_witness :
  (exists storage' st',
      maybeAddMaterializeForSet true fullTC computedInStruct emptyState
      = Done (storage', st') /\
      hasMaterializeForSet storage' = true) /\
  maybeAddMaterializeForSet true fullTC computedInEnum emptyState
  = Done (computedInEnum, emptyState) /\
  (exists plain' st',
      addTrivialAccessorsToStorage true fullTC
        (plainVar 47 "x" (NominalDC enumShape) false [] None) emptyState
      = Done (plain', st') /\
      hasMaterializeForSet plain' = true).
Proof.
  assert (Hplain : plainStorage
                     (plainVar 47 "x" (NominalDC enumShape) false [] None)).
  { constructor; simpl; intros; solve [reflexivity | discriminate]. }
  split; [|split].
  - destruct (materializeForSet_synthesized_iff true fullTC computedInStruct
                _ emptyState eq_refl eq_refl Hplain eq_refl)
      as [(storage' & st' & Hrun & Hiff & _) _].
    exists storage', st'. split; [exact Hrun|]. apply Hiff. reflexivity.
  - destruct (materializeForSet_synthesized_iff true fullTC computedInEnum
                _ emptyState eq_refl eq_refl Hplain eq_refl)
      as [(storage' & st' & Hrun & _ & Hsame) _].
    destruct (Hsame eq_refl) as [Hs Hst]. subst storage' st'. exact Hrun.
  - destruct (materializeForSet_synthesized_iff true fullTC computedInStruct
                _ emptyState eq_refl eq_refl Hplain eq_refl)
      as [_ (plain' & st' & Hrun & Hiff)].
    exists plain', st'. split; [exact Hrun|]. apply Hiff.
    vm_compute in Hrun. injection Hrun as Hp Hst. subst plain'.
    split; reflexivity.
Defined.

(** The condition of the claim fails on the code: a property of a struct
    that is not imported gets a materializeForSet, though its scope is
    neither a protocol nor a class and it overrides nothing. *)
Lemma materializeForSet_struct_counterexample :
  claimedMaterializeCondition computedInStruct = false /\
  exists storage' st',
    maybeAddMaterializeForSet true fullTC computedInStruct emptyState
    = Done (storage', st') /\
    hasMaterializeForSet storage' = true.
Proof.
  split; [reflexivity|].
  eexists; eexists. split; [vm_compute; reflexivity|reflexivity].
Qed.

(** ** Observing accessors *)

(** What the store of a synthesized body assigns: the incoming value, or,
    for an NSCopying property whose type conforms, the copyWithZone call
    on it. *)
Definition storedValue (TC : TypeChecker) (value : Expr)
    (VD : AbstractStorageDecl) : Expr :=
  if negb (isSubscriptDecl VD) && hasAttribute NSCopyingAttr (sdAttrs VD)
     && conformsToNSCopying TC VD
  then
    if copiedTypeIsOptional TC VD
    then OptionalEvaluationExpr
           (ConditionalCheckedCastExpr
              (copyWithZoneCall (BindOptionalExpr value 0))
              (copiedUnderlyingType TC VD))
    else ForcedCheckedCastExpr (copyWithZoneCall value)
           (copiedUnderlyingType TC VD)
  else value.

Lemma createPropertyStore_property :
  forall assertionsEnabled TC accessor value storage body st,
    isPropertyOverProperty storage = true ->
    runsTo (createPropertyStoreOrCallSuperclassSetter assertionsEnabled TC
              accessor value storage body) st
      (fun body' st' =>
         allocatesNothing st st' /\
         body' = body
                 ++ [NodeExpr
                       (AssignExpr
                          (propertyReference accessor storage DirectToStorage)
                          (storedValue TC value storage))]).
Proof.
  intros ae TC accessor value storage body st Hprop.
  unfold createPropertyStoreOrCallSuperclassSetter, storedValue.
  eapply runsTo_bind with
    (R := fun stored st1 =>
            allocatesNothing st st1 /\
            stored = storedValue TC value storage).
  - unfold storedValue.
    destruct (negb (isSubscriptDecl storage)
              && hasAttribute NSCopyingAttr (sdAttrs storage)); simpl.
    + destruct (conformsToNSCopying TC storage) eqn:Hconf.
      * eapply runsTo_eq; [apply copyWithZone_conforming; exact Hconf|].
        split; reflexivity.
      * eapply runsTo_eq; [apply copyWithZone_not_conforming; exact Hconf|].
        split; reflexivity.
    + apply runsTo_ret. split; reflexivity.
  - intros stored st1 [Hid Hstored]. subst stored.
    eapply runsTo_bind with
      (R := fun dest st2 =>
              dest = propertyReference accessor storage DirectToStorage
              /\ st2 = st1).
    + eapply runsTo_eq; [apply buildStorageReference_property; exact Hprop|].
      split; reflexivity.
    + intros dest st2 [Hdest Hst2]. subst dest st2.
      apply runsTo_ret. split; [exact Hid|reflexivity].
Qed.

Lemma synthesizeTrivialGetter_property :
  forall assertionsEnabled getter storage st,
    isPropertyOverProperty storage = true ->
    runsTo (synthesizeTrivialGetter assertionsEnabled getter storage) st
      (fun getter' st' =>
         allocatesNothing st st' /\ stDiags st' = stDiags st /\
         sameAccessor getter getter' /\
         fnBody getter'
         = Some [NodeReturnStmt
                   (propertyReference getter storage DirectToStorage)]).
Proof.
  intros ae getter storage st Hprop.
  unfold synthesizeTrivialGetter, createPropertyLoadOrCallSuperclassGetter.
  eapply runsTo_bind with
    (R := fun e st1 =>
            e = propertyReference getter storage DirectToStorage /\ st1 = st).
  - eapply runsTo_eq; [apply buildStorageReference_property; exact Hprop|].
    split; reflexivity.
  - intros e st1 [He Hst1]. subst e st1.
    eapply runsTo_bind; [apply runsTo_when_external|].
    intros _ st' [Hid Hdiags]. apply runsTo_ret.
    split; [exact Hid|]. split; [exact Hdiags|]. split.
    + destruct (sameAccessor_transparent
                  (fnSetBody getter
                     [NodeReturnStmt
                        (propertyReference getter storage DirectToStorage)])
                  storage) as (H1 & H2 & H3 & H4).
      repeat split; assumption.
    + unfold maybeMarkTransparent.
      destruct (isNominalTypeOrNominalTypeExtensionContext _) as [nominal|];
        [destruct (ntdHasFixedLayout nominal)|]; reflexivity.
Qed.









Definition observedCount : AbstractStorageDecl :=
  let dc := NominalDC classDerived in
  sdSetDidSetFunc
    (sdSetWillSetFunc
       (withAccessors StoredWithObservers
          (plainVar 23 "count" dc false [] None))
       (Some (accessorIn dc 70 IsWillSet [paramInt noLabel "newValue"])))
    (Some (accessorIn dc 71 IsDidSet [paramInt noLabel "oldValue"])).


(** ** Running a synthesized getter *)

(** A big-step evaluator for the statements a lazy getter is made of.
    The machine holds the contents of one optional backing entity and the
    rest of the world; a user-written expression is evaluated by an
    oracle that may read and change both; every load, store and
    evaluation of a user-written expression is recorded. *)
Section Execution.

Variable Val : Type.
Variable World : Type.
Variable evalUser : nat -> option Val -> World -> Val * option Val * World.
Variable backingID : DeclID.

Inductive RValue :=
| RVal (v : Val)
| ROptional (o : option Val)
| RBool (b : bool)
| RUnit.

Inductive Event :=
| EvLoad
| EvStore (o : option Val)
| EvEvaluate (id : nat).

Record Machine := mkMachine {
  backing : option Val;
  world : World;
  trace : list Event
}.

Definition Locals := list (Identifier * RValue).

Fixpoint lookupLocal (name : Identifier) (locals : Locals) : option RValue :=
  match locals with
  | [] => None
  | (n, v) :: rest => if String.eqb n name then Some v else lookupLocal name rest
  end.

(** A direct-to-storage reference to the backing entity: bare, or as a
    member of self. *)
Definition isBackingRef (e : Expr) : bool :=
  match e with
  | DeclRefExpr (VRDecl d) DirectToStorage => Nat.eqb d backingID
  | MemberRefExpr (DeclRefExpr (VRParam _) Ordinary) d DirectToStorage =>
      Nat.eqb d backingID
  | _ => false
  end.

Definition loadBacking (m : Machine) : RValue * Machine :=
  (ROptional (backing m), mkMachine (backing m) (world m) (trace m ++ [EvLoad])).

Definition storeBacking (o : option Val) (m : Machine) : RValue * Machine :=
  (RUnit, mkMachine o (world m) (trace m ++ [EvStore o])).

Fixpoint evalExpr (locals : Locals) (e : Expr) (m : Machine)
  : option (RValue * Machine) :=
  match e with
  | DeclRefExpr (VRLocal name) _ =>
      match lookupLocal name locals with
      | Some v => Some (v, m)
      | None => None
      end
  | DeclRefExpr (VRDecl _) _ | MemberRefExpr _ _ _ =>
      if isBackingRef e then Some (loadBacking m) else None
  | ForceValueExpr sub =>
      match evalExpr locals sub m with
      | Some (ROptional (Some v), m') => Some (RVal v, m')
      | _ => None
      end
  | OptionalToBoolExpr sub =>
      match evalExpr locals sub m with
      | Some (ROptional (Some _), m') => Some (RBool true, m')
      | Some (ROptional None, m') => Some (RBool false, m')
      | _ => None
      end
  | UserExpr id _ =>
      let '(v, b, w) := evalUser id (backing m) (world m) in
      Some (RVal v, mkMachine b w (trace m ++ [EvEvaluate id]))
  | AssignExpr dest src =>
      if isBackingRef dest then
        match evalExpr locals src m with
        (* a value stored into the optional is wrapped *)
        | Some (RVal v, m') => Some (storeBacking (Some v) m')
        | Some (ROptional o, m') => Some (storeBacking o m')
        | _ => None
        end
      else None
  | _ => None
  end.

Fixpoint patternVar (p : Pattern) : Identifier :=
  match p with
  | NamedPattern var => var
  | TypedPattern sub _ => patternVar sub
  end.

Inductive Completion :=
| Continue (locals : Locals)
| Return (v : RValue).

Fixpoint execNode (locals : Locals) (n : ASTNode) (m : Machine)
  : option (Completion * Machine) :=
  match n with
  | NodeExpr e =>
      match evalExpr locals e m with
      | Some (_, m') => Some (Continue locals, m')
      | None => None
      end
  | NodeReturnStmt result =>
      match evalExpr locals result m with
      | Some (v, m') => Some (Return v, m')
      | None => None
      end
  | NodeIfStmt cond thenStmt elseStmt =>
      match evalExpr locals cond m with
      | Some (RBool true, m') => execNode locals thenStmt m'
      | Some (RBool false, m') =>
          match elseStmt with
          | Some s => execNode locals s m'
          | None => Some (Continue locals, m')
          end
      | _ => None
      end
  | NodePatternBindingDecl pat (Some init) =>
      match evalExpr locals init m with
      | Some (v, m') => Some (Continue ((patternVar pat, v) :: locals), m')
      | None => None
      end
  | NodePatternBindingDecl _ None => Some (Continue locals, m)
  | NodeVarDecl _ => Some (Continue locals, m)
  end.

Fixpoint execBody (locals : Locals) (body : BraceStmt) (m : Machine)
  : option (Completion * Machine) :=
  match body with
  | [] => Some (Continue locals, m)
  | n :: rest =>
      match execNode locals n m with
      | Some (Continue locals', m') => execBody locals' rest m'
      | Some (Return v, m') => Some (Return v, m')
      | None => None
      end
  end.

(** One call of the getter: its body run to its [return]. *)
Definition callGetter (body : BraceStmt) (m : Machine)
  : option (RValue * Machine) :=
  match execBody [] body m with
  | Some (Return v, m') => Some (v, m')
  | _ => None
  end.

(** [n] reads of the property in a row. *)
Fixpoint readTimes (n : nat) (body : BraceStmt) (m : Machine)
  : option (list RValue * Machine) :=
  match n with
  | 0 => Some ([], m)
  | S k =>
      match callGetter body m with
      | Some (v, m') =>
          match readTimes k body m' with
          | Some (vs, m'') => Some (v :: vs, m'')
          | None => None
          end
      | None => None
      end
  end.

Definition isEvaluation (ev : Event) : bool :=
  match ev with EvEvaluate _ => true | _ => false end.

(** How many times a user-written expression was evaluated. *)
Definition evaluations (t : list Event) : nat :=
  List.length (filter isEvaluation t).

End Execution.

Arguments RVal {Val} v.
Arguments ROptional {Val} o.
Arguments RBool {Val} b.
Arguments EvLoad {Val}.
Arguments EvStore {Val} o.
Arguments EvEvaluate {Val} id.
Arguments mkMachine {Val World} backing world trace.
Arguments backing {Val World} m.
Arguments world {Val World} m.
Arguments trace {Val World} m.
Arguments callGetter {Val World} evalUser backingID body m.
Arguments readTimes {Val World} evalUser backingID n body m.
Arguments evaluations {Val} t.

(** ** Lazy properties *)

(** The reference to the backing entity [sid] from an accessor. *)
Definition backingReference (accessor : FuncDecl) (sid : DeclID) : Expr :=
  match getImplicitSelfDecl accessor with
  | None => DeclRefExpr (VRDecl sid) DirectToStorage
  | Some self =>
      MemberRefExpr (DeclRefExpr (VRParam self) Ordinary) sid DirectToStorage
  end.

(** The statements of the lazy getter. *)
Definition lazyGetterBody (storage : Expr) (ty : Ty) (initializer : Expr)
  : BraceStmt :=
  let tmp1 := DeclRefExpr (VRLocal "tmp1") DirectToStorage in
  let tmp2 := DeclRefExpr (VRLocal "tmp2") DirectToStorage in
  [ (* let tmp1 = storage *)
    NodePatternBindingDecl (NamedPattern "tmp1") (Some storage);
    NodeVarDecl (mkLocal "tmp1" true None);
    (* if tmp1 { return tmp1! } *)
    NodeIfStmt (OptionalToBoolExpr tmp1)
      (NodeReturnStmt (ForceValueExpr tmp1)) None;
    (* let tmp2 : Ty = <<initializer expression>> *)
    NodePatternBindingDecl (TypedPattern (NamedPattern "tmp2") ty)
      (Some initializer);
    NodeVarDecl (mkLocal "tmp2" true (Some ty));
    (* storage = tmp2 *)
    NodeExpr (AssignExpr storage tmp2);
    (* return tmp2 *)
    NodeReturnStmt tmp2 ].

Lemma synthesizeTrivialSetter_property :
  forall assertionsEnabled TC setter storage valueVar st,
    isPropertyOverProperty storage = true ->
    runsTo (synthesizeTrivialSetter assertionsEnabled TC setter storage valueVar)
      st
      (fun setter' st' =>
         allocatesNothing st st' /\ sameAccessor setter setter' /\
         (sdIsInvalid (sdInfo storage) = false ->
          fnBody setter'
          = Some [NodeExpr
                    (AssignExpr
                       (propertyReference setter storage DirectToStorage)
                       (storedValue TC (DeclRefExpr (VRParam valueVar) Ordinary)
                          storage))])).
Proof.
  intros ae TC setter storage valueVar st Hprop.
  unfold synthesizeTrivialSetter.
  destruct (sdIsInvalid (sdInfo storage)).
  - apply runsTo_ret. split; [reflexivity|].
    split; [apply sameAccessor_refl|discriminate].
  - eapply runsTo_bind; [apply createPropertyStore_property; exact Hprop|].
    intros body st1 [Hst1 Hbody]. subst body.
    eapply runsTo_bind; [apply runsTo_when_external|].
    intros _ st2 [Hst2 _]. apply runsTo_ret. split; [|split].
    + unfold allocatesNothing in *. congruence.
    + match goal with
      | |- sameAccessor _ (maybeMarkTransparent (fnSetBody _ ?b) _) =>
          destruct (sameAccessor_transparent (fnSetBody setter b) storage)
            as (H1 & H2 & H3 & H4)
      end.
      repeat split; assumption.
    + intros _. unfold maybeMarkTransparent.
      destruct (isNominalTypeOrNominalTypeExtensionContext _) as [nominal|];
        [destruct (ntdHasFixedLayout nominal)|]; reflexivity.
Qed.

Lemma completeLazyPropertyGetter_spec :
  forall assertionsEnabled TC VD Storage Get initializer st,
    sdGetter VD = Some Get ->
    sdParentInitializer VD = Some initializer ->
    sdOverriddenDecl Storage = None ->
    isSubscriptDecl Storage = false ->
    hasAttribute NSCopyingAttr (sdAttrs Storage) = false ->
    runsTo (completeLazyPropertyGetter assertionsEnabled TC VD Storage) st
      (fun gv st' =>
         allocatesNothing st st' /\
         sameAccessor Get (fst gv) /\
         fnBody (fst gv)
         = Some (lazyGetterBody
                   (backingReference Get (sdID (sdInfo Storage)))
                   (sdType (sdInfo VD))
                   (recontextualizeClosures (ParentFunc (fnID Get)) initializer)) /\
         snd gv = sdSetGetter (sdSetParentInitializer VD None) (Some (fst gv))).
Proof.
  intros ae TC VD Storage Get initializer st Hget Hinit Hover Hvar Hcopy.
  assert (Hprop : isPropertyOverProperty Storage = true).
  { unfold isPropertyOverProperty. now rewrite Hvar, Hover. }
  assert (Href : propertyReference Get Storage DirectToStorage
                 = backingReference Get (sdID (sdInfo Storage))).
  { unfold propertyReference, backingReference. now rewrite Hover. }
  unfold completeLazyPropertyGetter. rewrite Hget.
  eapply runsTo_bind; [apply runsTo_validateDecl|].
  intros _ st1 [Hid1 _].
  unfold createPropertyLoadOrCallSuperclassGetter.
  eapply runsTo_bind with
    (R := fun e st2 =>
            e = backingReference Get (sdID (sdInfo Storage)) /\ st2 = st1).
  { eapply runsTo_eq; [apply buildStorageReference_property; exact Hprop|].
    split; [exact Href|reflexivity]. }
  intros e st2 [He Hst2]. subst e st2. rewrite Hinit.
  eapply runsTo_bind; [apply createPropertyStore_property; exact Hprop|].
  intros body st3 [Hid3 Hbody]. subst body.
  apply runsTo_ret. cbn [fst snd].
  split; [unfold allocatesNothing in *; congruence|].
  split; [repeat split|]. split; [|reflexivity].
  cbn [fnBody fnSetBody]. rewrite Href. unfold storedValue.
  rewrite Hvar, Hcopy. reflexivity.
Qed.

Section LazyRuns.

Variable Val : Type.
Variable World : Type.
Variable evalUser : nat -> option Val -> World -> Val * option Val * World.

Variable accessor : FuncDecl.
Variable sid : DeclID.
Variable ty : Ty.
Variable id : nat.
Variable children : list Expr.

Let body : BraceStmt :=
  lazyGetterBody (backingReference accessor sid) ty (UserExpr id children).

(** The first value the initializer gives in world [w], and the world it
    leaves. *)
Definition initialValue (w : World) : Val := fst (fst (evalUser id None w)).
Definition worldAfterInitializer (w : World) : World := snd (evalUser id None w).

Lemma lazy_getter_cached :
  forall v w t,
    callGetter evalUser sid body (mkMachine (Some v) w t)
    = Some (RVal v, mkMachine (Some v) w (t ++ [EvLoad])).
Proof.
  intros v w t. unfold body, callGetter, lazyGetterBody, backingReference.
  destruct (getImplicitSelfDecl accessor) as [self|]; simpl;
    rewrite Nat.eqb_refl; reflexivity.
Qed.

Lemma lazy_getter_first :
  forall w t,
    callGetter evalUser sid body (mkMachine None w t)
    = Some (RVal (initialValue w),
            mkMachine (Some (initialValue w)) (worldAfterInitializer w)
              (t ++ [EvLoad; EvEvaluate id; EvStore (Some (initialValue w))])).
Proof.
  intros w t.
  unfold body, callGetter, lazyGetterBody, backingReference, initialValue,
    worldAfterInitializer.
  destruct (getImplicitSelfDecl accessor) as [self|]; simpl;
    rewrite Nat.eqb_refl; simpl;
    destruct (evalUser id None w) as [[v b] w']; simpl;
    rewrite <- !app_assoc; reflexivity.
Qed.

Lemma evaluations_app :
  forall t1 t2 : list (Event Val),
    evaluations (t1 ++ t2) = evaluations t1 + evaluations t2.
Proof.
  intros t1 t2. unfold evaluations. now rewrite filter_app, length_app.
Qed.

Lemma lazy_reads_cached :
  forall n v w t,
    exists t',
      readTimes evalUser sid n body (mkMachine (Some v) w t)
      = Some (repeat (RVal v) n, mkMachine (Some v) w t') /\
      evaluations t' = evaluations t.
Proof.
  induction n as [|n IH]; intros v w t.
  - exists t. split; reflexivity.
  - simpl. rewrite lazy_getter_cached.
    destruct (IH v w (t ++ [EvLoad])) as (t' & Hrun & Hcount).
    rewrite Hrun. exists t'. split; [reflexivity|].
    rewrite Hcount, evaluations_app.
    assert (Hload : evaluations [@EvLoad Val] = 0) by reflexivity.
    rewrite Hload. lia.
Qed.

Lemma lazy_reads_from_empty :
  forall n w t,
    exists t',
      readTimes evalUser sid (S n) body (mkMachine None w t)
      = Some (repeat (RVal (initialValue w)) (S n),
              mkMachine (Some (initialValue w)) (worldAfterInitializer w) t') /\
      evaluations t' = evaluations t + 1.
Proof.
  intros n w t. cbn [readTimes]. rewrite lazy_getter_first.
  destruct (lazy_reads_cached n (initialValue w) (worldAfterInitializer w)
              (t ++ [EvLoad; EvEvaluate id; EvStore (Some (initialValue w))]))
    as (t' & Hrun & Hcount).
  rewrite Hrun. exists t'. split; [reflexivity|].
  rewrite Hcount, evaluations_app. reflexivity.
Qed.

End LazyRuns.

Lemma completeLazyVarImplementation_spec :
  forall assertionsEnabled TC VD Get Set_ valueDecl initializer st,
    hasAttribute LazyAttr (sdAttrs VD) = true ->
    sdStorageKind VD = Computed ->
    sdIsStatic (sdInfo VD) = false ->
    sdGetter VD = Some Get ->
    sdSetter VD = Some Set_ ->
    nth_error (last (fnParameterLists Set_) []) 0 = Some valueDecl ->
    sdParentInitializer VD = Some initializer ->
    isTypeContext (sdDeclContext (sdInfo VD)) = true ->
    runsTo (completeLazyVarImplementation assertionsEnabled TC VD) st
      (fun vs st' =>
         let VD' := fst vs in
         let Storage := snd vs in
         sdID (sdInfo Storage) = stNextID st /\
         sdType (sdInfo Storage) = TyOptional (sdType (sdInfo VD)) /\
         sdAccessibility Storage = Some Private /\
         sdIsImplicit Storage = true /\
         sdParentInitializer VD' = None /\
         (exists Get',
             sdGetter VD' = Some Get' /\
             fnBody Get'
             = Some (lazyGetterBody
                       (backingReference Get (stNextID st))
                       (sdType (sdInfo VD))
                       (recontextualizeClosures (ParentFunc (fnID Get))
                          initializer))) /\
         (exists Set',
             sdSetter VD' = Some Set' /\
             fnBody Set'
             = Some [NodeExpr
                       (AssignExpr (backingReference Set_ (stNextID st))
                          (DeclRefExpr (VRParam valueDecl) Ordinary))])).
Proof.
  intros ae TC VD Get Set_ valueDecl initializer st Hlazy Hkind Hstatic Hget
         Hset Hvalue Hinit Hctx.
  unfold completeLazyVarImplementation.
  eapply runsTo_bind with (R := fun _ st1 => st1 = st).
  { apply runsTo_assert_true; [exact Hlazy|reflexivity]. }
  intros _ st0 Hst0. subst st0.
  eapply runsTo_bind with (R := fun _ st1 => st1 = st).
  { apply runsTo_assert_true; [now rewrite Hkind|reflexivity]. }
  intros _ st0 Hst0. subst st0.
  eapply runsTo_bind with (R := fun _ st1 => st1 = st).
  { apply runsTo_assert_true; [now rewrite Hstatic|reflexivity]. }
  intros _ st0 Hst0. subst st0.
  eapply runsTo_bind with (R := fun d _ => d = stNextID st).
  { eapply runsTo_eq; reflexivity. }
  intros d st1 Hd. subst d.
  eapply runsTo_bind; [apply runsTo_addMember_in_type; exact Hctx|].
  intros _ st2 _.
  eapply runsTo_bind with (R := fun _ _ => True).
  { eapply runsTo_eq; [reflexivity|exact I]. }
  intros PBD st3 _.
  eapply runsTo_bind; [apply runsTo_addMember_in_type; exact Hctx|].
  intros _ st4 _.
  eapply runsTo_bind.
  { apply (completeLazyPropertyGetter_spec ae TC VD _ Get initializer st4
             Hget Hinit); reflexivity. }
  intros [Get' VD1] st5 (_ & _ & HgetBody & HVD1). cbn [fst snd] in *.
  subst VD1. cbn [sdSetter sdSetGetter sdSetParentInitializer]. rewrite Hset.
  eapply runsTo_bind; [apply runsTo_validateDecl|].
  intros _ st6 _.
  unfold getFirstParamDecl, getParamDeclAtIndex. rewrite Hvalue.
  eapply runsTo_bind with (R := fun p _ => p = valueDecl).
  { apply runsTo_ret. reflexivity. }
  intros p st7 Hp. subst p.
  eapply runsTo_bind.
  { apply synthesizeTrivialSetter_property. reflexivity. }
  intros Set' st8 (_ & _ & HsetBody).
  specialize (HsetBody eq_refl).
  eapply runsTo_bind; [apply runsTo_typeCheckDecl|]. intros _ st9 _.
  eapply runsTo_bind; [apply runsTo_typeCheckDecl|]. intros _ st10 _.
  eapply runsTo_bind; [apply runsTo_typeCheckDecl|]. intros _ st11 _.
  eapply runsTo_bind; [apply runsTo_typeCheckDecl|]. intros _ st12 _.
  apply runsTo_ret. cbn [fst snd].
  assert (Hstorage :
    forall S0, sdInfo (if isClassOrClassExtensionContext
                            (sdDeclContext (sdInfo VD))
                       then makeFinalStorage S0 else S0) = sdInfo S0).
  { intros S0. destruct (isClassOrClassExtensionContext _); [|reflexivity].
    unfold makeFinalStorage. destruct (sdIsFinal S0); reflexivity. }
  split; [|split; [|split; [|split; [|split; [|split]]]]];
    try reflexivity.
  - cbn [sdInfo sdSetSetterAccessibility sdSetAccessibility sdSetImplicit].
    rewrite Hstorage. reflexivity.
  - cbn [sdInfo sdSetSetterAccessibility sdSetAccessibility sdSetImplicit].
    rewrite Hstorage. reflexivity.
  - exists Get'. split; [reflexivity|exact HgetBody].
  - exists Set'. split; [reflexivity|]. rewrite HsetBody.
    unfold propertyReference, backingReference, storedValue. reflexivity.
Qed.

(** At file scope the routine stops at the cast of the backing variable
    to a function: only a lazy property of a type is completed. *)
Lemma completeLazyVarImplementation_at_file_scope :
  forall assertionsEnabled TC VD kind st,
    hasAttribute LazyAttr (sdAttrs VD) = true ->
    sdStorageKind VD = Computed ->
    sdIsStatic (sdInfo VD) = false ->
    sdDeclContext (sdInfo VD) = SourceFileDC kind ->
    completeLazyVarImplementation assertionsEnabled TC VD st
    = Aborted "cast<FuncDecl>".
Proof.
  intros ae TC VD kind st Hlazy Hkind Hstatic Hdc.
  unfold completeLazyVarImplementation, assert_.
  rewrite Hlazy, Hkind, Hstatic, Hdc. cbn [negb]. rewrite andb_false_r.
  reflexivity.
Qed.

(** C3.  The getter synthesized for a lazy property (a lazy variable of a
    type) loads the optional
    backing storage into a temporary; if it holds a value, the getter
    returns it unwrapped and the initializer is not evaluated; otherwise it
    evaluates the initializer once, stores the result into the backing
    storage and returns that result.  So in any number of reads in a row
    the initializer is evaluated exactly once, by the first, and every
    read returns the value it gave then, whatever the initializer does to
    the world or to the backing storage. *)
Theorem lazy_getter_evaluates_initializer_once :
  forall assertionsEnabled TC VD Get Set_ valueDecl id children st
         (Val World : Type)
         (evalUser : nat -> option Val -> World -> Val * option Val * World),
    hasAttribute LazyAttr (sdAttrs VD) = true ->
    sdStorageKind VD = Computed ->
    sdIsStatic (sdInfo VD) = false ->
    sdGetter VD = Some Get ->
    sdSetter VD = Some Set_ ->
    nth_error (last (fnParameterLists Set_) []) 0 = Some valueDecl ->
    sdParentInitializer VD = Some (UserExpr id children) ->
    isTypeContext (sdDeclContext (sdInfo VD)) = true ->
    exists VD' Storage st' Get' body,
      completeLazyVarImplementation assertionsEnabled TC VD st
      = Done ((VD', Storage), st') /\
      sdType (sdInfo Storage) = TyOptional (sdType (sdInfo VD)) /\
      sdGetter VD' = Some Get' /\
      fnBody Get' = Some body /\
      body
      = lazyGetterBody (backingReference Get (sdID (sdInfo Storage)))
          (sdType (sdInfo VD))
          (UserExpr id
             (map (recontextualizeClosures (ParentFunc (fnID Get))) children)) /\
      let read := callGetter evalUser (sdID (sdInfo Storage)) body in
      let first := initialValue Val World evalUser id in
      let after := worldAfterInitializer Val World evalUser id in
      (forall v w t,
          read (mkMachine (Some v) w t)
          = Some (RVal v, mkMachine (Some v) w (t ++ [EvLoad]))) /\
      (forall w t,
          read (mkMachine None w t)
          = Some (RVal (first w),
                  mkMachine (Some (first w)) (after w)
                    (t ++ [EvLoad; EvEvaluate id; EvStore (Some (first w))]))) /\
      (forall n w t,
          exists t',
            readTimes evalUser (sdID (sdInfo Storage)) (S n) body
              (mkMachine None w t)
            = Some (repeat (RVal (first w)) (S n),
                    mkMachine (Some (first w)) (after w) t') /\
            evaluations t' = evaluations t + 1).
Proof.
  intros ae TC VD Get Set_ valueDecl id children st Val World evalUser
         Hlazy Hkind Hstatic Hget Hset Hvalue Hinit Hctx.
  destruct (completeLazyVarImplementation_spec ae TC VD Get Set_ valueDecl
              (UserExpr id children) st Hlazy Hkind Hstatic Hget Hset Hvalue
              Hinit Hctx)
    as ([VD' Storage] & st' & Hrun & Hsid & Hty & _ & _ & _ &
        (Get' & HGet' & Hbody) & _).
  cbn [fst snd] in *.
  exists VD', Storage, st', Get'. eexists.
  split; [exact Hrun|]. split; [exact Hty|]. split; [exact HGet'|].
  split; [exact Hbody|]. rewrite Hsid. split; [reflexivity|].
  cbn zeta. split; [|split].
  - intros v w t. apply lazy_getter_cached.
  - intros w t. apply lazy_getter_first.
  - intros n w t. apply lazy_reads_from_empty.
Qed.

Definition lazyNorm : AbstractStorageDecl :=
  sdSetParentInitializer
    (withAccessors Computed
       (plainVar 44 "norm" (NominalDC structPoint) false [LazyAttr] None))
    (Some (UserExpr 2 [ClosureExpr 9 ParentOriginal])).

(** An initializer with a side effect: it counts its evaluations in the
    world, and returns 42. *)
Definition countingInitializer (id : nat) (b : option nat) (w : nat)
  : nat * option nat * nat :=
  (42, b, S w).

Lemma lazy_getter_evaluates_initializer_once_witness :
  exists VD' Storage st' Get' body t',
    completeLazyVarImplementation true fullTC lazyNorm emptyState
    = Done ((VD', Storage), st') /\
    sdGetter VD' = Some Get' /\
    fnBody Get' = Some body /\
    readTimes countingInitializer (sdID (sdInfo Storage)) 3 body
      (mkMachine None 0 [])
    = Some ([RVal 42; RVal 42; RVal 42], mkMachine (Some 42) 1 t') /\
    evaluations t' = 1.
Proof.
  destruct (lazy_getter_evaluates_initializer_once true fullTC lazyNorm
              (accessorIn (NominalDC structPoint) 1044 IsGetter [])
              (accessorIn (NominalDC structPoint) 2044 IsSetter
                 [buildLetArgument "value" (TyNominal "Int")])
              (buildLetArgument "value" (TyNominal "Int"))
              2 [ClosureExpr 9 ParentOriginal] emptyState nat nat
              countingInitializer
              eq_refl eq_refl eq_refl eq_refl eq_refl eq_refl eq_refl eq_refl)
    as (VD' & Storage & st' & Get' & body & Hrun & _ & HGet' & Hbody & _ &
        _ & _ & Hreads).
  destruct (Hreads 2 0 []) as (t' & Hthree & Hcount).
  exists VD', Storage, st', Get', body, t'.
  split; [exact Hrun|]. split; [exact HGet'|]. split; [exact Hbody|].
  split; [exact Hthree|exact Hcount].
Defined.

(** * Further properties of the synthesis routines *)

(** ** What a completed step leaves behind *)

(** [keeps R m]: whenever the step [m] completes, the states before and
    after are related by [R]. *)
Definition keeps (R : SemaState -> SemaState -> Prop) {A} (m : Sema A) : Prop :=
  forall st a st', m st = Done (a, st') -> R st st'.

Section Keeps.

Variable R : SemaState -> SemaState -> Prop.
Hypothesis R_refl : forall st, R st st.
Hypothesis R_trans : forall st1 st2 st3, R st1 st2 -> R st2 st3 -> R st1 st3.

Lemma keeps_ret : forall A (a : A), keeps R (ret a).
Proof.
  intros A a st a' st' H. unfold ret in H. injection H as _ Hst. subst st'.
  apply R_refl.
Qed.

Lemma keeps_abort : forall A msg, keeps R (@abort A msg).
Proof. intros A msg st a st' H. discriminate H. Qed.

Lemma keeps_bind :
  forall A B (m : Sema A) (k : A -> Sema B),
    keeps R m -> (forall a, keeps R (k a)) -> keeps R (bind m k).
Proof.
  intros A B m k Hm Hk st b st' H. unfold bind in H.
  destruct (m st) as [[a st1]|msg] eqn:Hrun; [|discriminate H].
  eapply R_trans; [eapply Hm; exact Hrun|eapply Hk; exact H].
Qed.

Lemma keeps_assert :
  forall assertionsEnabled cond msg, keeps R (assert_ assertionsEnabled cond msg).
Proof.
  intros ae cond msg. unfold assert_.
  destruct (ae && negb cond); [apply keeps_abort|apply keeps_ret].
Qed.

End Keeps.

(** One list continues another. *)
Definition continues {A} (l l' : list A) : Prop := exists more, l' = l ++ more.

Lemma continues_refl : forall A (l : list A), continues l l.
Proof. intros A l. exists []. now rewrite app_nil_r. Qed.

Lemma continues_trans :
  forall A (l1 l2 l3 : list A),
    continues l1 l2 -> continues l2 l3 -> continues l1 l3.
Proof.
  intros A l1 l2 l3 [m1 H1] [m2 H2]. exists (m1 ++ m2).
  now rewrite H2, H1, app_assoc.
Qed.

Lemma continues_snoc : forall A (l : list A) x, continues l (l ++ [x]).
Proof. intros A l x. now exists [x]. Qed.

(** One list is the other with elements left out: what is there stays,
    in its order. *)
Inductive Subsequence {A : Type} : list A -> list A -> Prop :=
| Subsequence_nil : forall l, Subsequence [] l
| Subsequence_keep :
    forall x l l', Subsequence l l' -> Subsequence (x :: l) (x :: l')
| Subsequence_skip :
    forall x l l', Subsequence l l' -> Subsequence l (x :: l').

Lemma Subsequence_refl : forall A (l : list A), Subsequence l l.
Proof. intros A l. induction l; constructor; assumption. Qed.

Lemma Subsequence_trans :
  forall A (l1 l2 l3 : list A),
    Subsequence l1 l2 -> Subsequence l2 l3 -> Subsequence l1 l3.
Proof.
  intros A l1 l2 l3 H12 H23. revert l1 H12.
  induction H23 as [l|x l l' H IH|x l l' H IH]; intros l1 H12.
  - inversion H12; subst. constructor.
  - inversion H12; subst.
    + constructor.
    + constructor. now apply IH.
    + apply Subsequence_skip. now apply IH.
  - apply Subsequence_skip. now apply IH.
Qed.

Lemma Subsequence_snoc : forall A (l : list A) x, Subsequence l (l ++ [x]).
Proof.
  intros A l x. induction l as [|y l IH]; simpl.
  - constructor.
  - constructor. exact IH.
Qed.

Lemma Subsequence_length :
  forall A (l l' : list A), Subsequence l l' -> List.length l <= List.length l'.
Proof. intros A l l' H. induction H; simpl; lia. Qed.

Lemma Subsequence_In :
  forall A (l l' : list A) x, Subsequence l l' -> In x l -> In x l'.
Proof.
  intros A l l' x H. induction H as [l|y l l' H IH|y l l' H IH]; intros Hin.
  - destruct Hin.
  - destruct Hin as [Heq|Hin]; [left; exact Heq|right; now apply IH].
  - right. now apply IH.
Qed.

Lemma insertAfter_Subsequence :
  forall hint d l l', insertAfter hint d l = Some l' -> Subsequence l l'.
Proof.
  intros hint d l. induction l as [|x r IH]; intros l' H; simpl in H.
  - discriminate H.
  - destruct (Nat.eqb x hint).
    + injection H as H. subst l'. constructor. apply Subsequence_skip.
      apply Subsequence_refl.
    + destruct (insertAfter hint d r) as [r'|]; [|discriminate H].
      injection H as H. subst l'. constructor. now apply IH.
Qed.

Lemma addMember_Subsequence :
  forall d hint l, Subsequence l (addMember d hint l).
Proof.
  intros d hint l. unfold addMember. destruct hint as [h|].
  - destruct (insertAfter h d l) as [l'|] eqn:H.
    + eapply insertAfter_Subsequence. exact H.
    + apply Subsequence_snoc.
  - apply Subsequence_snoc.
Qed.

(** The state only grows: diagnostics, external definitions, derived
    declarations and requests are appended to, members are inserted and
    none is removed or moved, identities are never given back.  With
    [quiet], no diagnostic is added either. *)
Record grows (quiet : bool) (st st' : SemaState) : Prop := mkGrows {
  grows_diags : continues (stDiags st) (stDiags st');
  grows_quiet : quiet = true -> stDiags st' = stDiags st;
  grows_external : continues (stExternalDecls st) (stExternalDecls st');
  grows_members : Subsequence (stMembers st) (stMembers st');
  grows_derived : continues (stDerivedDecls st) (stDerivedDecls st');
  grows_requests : continues (stRequests st) (stRequests st');
  grows_ids : stNextID st <= stNextID st'
}.

Lemma grows_refl : forall quiet st, grows quiet st st.
Proof.
  intros quiet st. constructor; try apply continues_refl;
    try apply Subsequence_refl; auto.
Qed.

Lemma grows_trans :
  forall quiet st1 st2 st3,
    grows quiet st1 st2 -> grows quiet st2 st3 -> grows quiet st1 st3.
Proof.
  intros quiet st1 st2 st3 [d1 q1 e1 m1 v1 r1 i1] [d2 q2 e2 m2 v2 r2 i2].
  constructor.
  - eapply continues_trans; eassumption.
  - intros Hq. rewrite (q2 Hq). now apply q1.
  - eapply continues_trans; eassumption.
  - eapply Subsequence_trans; eassumption.
  - eapply continues_trans; eassumption.
  - eapply continues_trans; eassumption.
  - lia.
Qed.

Lemma grows_weaken :
  forall quiet st st', grows quiet st st' -> grows false st st'.
Proof.
  intros quiet st st' [d q e m v r i]. constructor; try assumption.
  discriminate.
Qed.

Create HintDb keeps.

Lemma keeps_diagnose : forall d, keeps (grows false) (diagnose d).
Proof.
  intros d st a st' H. unfold diagnose in H. injection H as _ Hst. subst st'.
  constructor; simpl; try apply continues_refl; try apply Subsequence_refl;
    try apply continues_snoc; auto. discriminate.
Qed.

Lemma keeps_addExternalDecl :
  forall quiet d, keeps (grows quiet) (addExternalDecl d).
Proof.
  intros quiet d st a st' H. unfold addExternalDecl in H.
  injection H as _ Hst. subst st'.
  constructor; simpl; try apply continues_refl; try apply Subsequence_refl;
    try apply continues_snoc; auto.
Qed.

Lemma keeps_request : forall quiet r, keeps (grows quiet) (request r).
Proof.
  intros quiet r st a st' H. unfold request in H.
  injection H as _ Hst. subst st'.
  constructor; simpl; try apply continues_refl; try apply Subsequence_refl;
    try apply continues_snoc; auto.
Qed.

Lemma keeps_typeCheckDecl :
  forall quiet d pass, keeps (grows quiet) (typeCheckDecl d pass).
Proof. intros. apply keeps_request. Qed.

Lemma keeps_validateDecl : forall quiet d, keeps (grows quiet) (validateDecl d).
Proof. intros. apply keeps_request. Qed.

Lemma keeps_allocDecl : forall quiet, keeps (grows quiet) allocDecl.
Proof.
  intros quiet st a st' H. unfold allocDecl in H.
  injection H as _ Hst. subst st'.
  constructor; simpl; try apply continues_refl; try apply Subsequence_refl;
    auto.
Qed.

Lemma keeps_addMemberToContextIfNeeded :
  forall quiet d dc hint,
    keeps (grows quiet) (addMemberToContextIfNeeded d dc hint).
Proof.
  intros quiet d dc hint st a st' H. unfold addMemberToContextIfNeeded in H.
  destruct dc; [| |destruct d; try discriminate H| |];
    injection H as _ Hst; subst st';
    constructor; simpl; try apply continues_refl; try apply Subsequence_refl;
    try apply continues_snoc; try apply addMember_Subsequence; auto.
Qed.

#[export] Hint Resolve keeps_addExternalDecl keeps_request keeps_typeCheckDecl
  keeps_validateDecl keeps_allocDecl keeps_addMemberToContextIfNeeded
  : keeps.

(** One step of a proof that a routine keeps [grows]: through a bind, a
    return, an abort or an assertion, or by cases on what the routine
    branches on. *)
Ltac keeps_step :=
  match goal with
  | |- keeps _ (bind _ _) =>
      apply (keeps_bind _ (grows_trans _)); [|intros ?]
  | |- keeps _ (ret _) => apply (keeps_ret _ (grows_refl _))
  | |- keeps _ (abort _) => apply keeps_abort
  | |- keeps _ (unreachable _) => apply keeps_abort
  | |- keeps _ (assert_ _ _ _) => apply (keeps_assert _ (grows_refl _))
  | |- keeps _ (match ?x with _ => _ end) => destruct x
  | |- keeps _ _ => solve [auto with keeps]
  end.

Ltac keeps_all := repeat keeps_step.

(** ** Every routine only adds to the state *)

(** The store copies: the entity is a property tagged NSCopying. *)
Definition mayCopy (storage : AbstractStorageDecl) : bool :=
  negb (isSubscriptDecl storage) && hasAttribute NSCopyingAttr (sdAttrs storage).

Section Growth.

Variable assertionsEnabled : bool.
Variable quiet : bool.

Lemma keeps_FuncDecl_create :
  forall params resultTy dc,
    keeps (grows quiet) (FuncDecl_create params resultTy dc).
Proof. intros. unfold FuncDecl_create. keeps_all. Qed.

Lemma keeps_createGetterPrototype :
  forall TC storage, keeps (grows quiet) (createGetterPrototype TC storage).
Proof.
  intros. unfold createGetterPrototype.
  apply (keeps_bind _ (grows_trans _)); [apply keeps_FuncDecl_create|].
  intros f. keeps_all.
Qed.

Lemma keeps_createSetterPrototype :
  forall TC storage, keeps (grows quiet) (createSetterPrototype TC storage).
Proof.
  intros. unfold createSetterPrototype.
  apply (keeps_bind _ (grows_trans _)); [apply keeps_FuncDecl_create|].
  intros f. keeps_all.
Qed.

Lemma keeps_createMaterializeForSetReturnType :
  forall TC storage,
    keeps (grows quiet)
      (createMaterializeForSetReturnType assertionsEnabled TC storage).
Proof.
  intros. unfold createMaterializeForSetReturnType,
    getSelfTypeForMaterializeForSetCallback.
  keeps_all.
Qed.

Lemma keeps_createMaterializeForSetPrototype :
  forall TC storage,
    keeps (grows quiet)
      (createMaterializeForSetPrototype assertionsEnabled TC storage).
Proof.
  intros. unfold createMaterializeForSetPrototype.
  apply (keeps_bind _ (grows_trans _));
    [apply keeps_createMaterializeForSetReturnType|].
  intros retTy.
  apply (keeps_bind _ (grows_trans _)); [apply keeps_FuncDecl_create|].
  intros f. keeps_all.
Qed.

Lemma keeps_buildSubscriptIndexReference :
  forall accessor,
    keeps (grows quiet) (buildSubscriptIndexReference assertionsEnabled accessor).
Proof.
  intros. unfold buildSubscriptIndexReference, slice1. keeps_all.
Qed.

Lemma keeps_buildStorageReference :
  forall accessor storage semantics kind,
    keeps (grows quiet)
      (buildStorageReference assertionsEnabled accessor storage semantics kind).
Proof.
  intros. unfold buildStorageReference, buildStorageReferenceIn.
  cbn [getSelfDecl getIndexRefExpr AccessorStorageReferenceContext].
  destruct (getImplicitSelfDecl accessor) as [self|]; [|keeps_all].
  destruct kind; [|destruct (sdOverriddenDecl storage) as [overridden|]];
    match goal with
    | |- context [isSubscriptDecl ?s] => destruct (isSubscriptDecl s)
    end;
    try (apply (keeps_ret _ (grows_refl _)));
    (apply (keeps_bind _ (grows_trans _));
     [apply keeps_buildSubscriptIndexReference|intros ?; keeps_all]).
Qed.

Lemma keeps_synthesizeCopyWithZoneCall_loud :
  forall TC Val VD,
    keeps (grows false) (synthesizeCopyWithZoneCall TC Val VD).
Proof.
  intros. unfold synthesizeCopyWithZoneCall.
  destruct (getAnyOptionalObjectType _);
    match goal with
    | |- keeps _ (if ?b then _ else _) => destruct b
    end;
    try (apply (keeps_bind _ (grows_trans _));
         [apply keeps_diagnose|intros ?]);
    keeps_all.
Qed.

Lemma keeps_createPropertyStore :
  forall TC accessor value storage body,
    (quiet = true -> mayCopy storage = false) ->
    keeps (grows quiet)
      (createPropertyStoreOrCallSuperclassSetter assertionsEnabled TC accessor
         value storage body).
Proof.
  intros TC accessor value storage body Hquiet.
  unfold createPropertyStoreOrCallSuperclassSetter.
  apply (keeps_bind _ (grows_trans _)).
  - fold (mayCopy storage). destruct (mayCopy storage) eqn:Hcopy.
    + destruct quiet; [now specialize (Hquiet eq_refl)|].
      apply keeps_synthesizeCopyWithZoneCall_loud.
    + keeps_all.
  - intros stored.
    apply (keeps_bind _ (grows_trans _));
      [apply keeps_buildStorageReference|intros ?; keeps_all].
Qed.

Lemma keeps_synthesizeTrivialGetter :
  forall getter storage,
    keeps (grows quiet) (synthesizeTrivialGetter assertionsEnabled getter storage).
Proof.
  intros. unfold synthesizeTrivialGetter,
    createPropertyLoadOrCallSuperclassGetter.
  apply (keeps_bind _ (grows_trans _));
    [apply keeps_buildStorageReference|intros ?; keeps_all].
Qed.

Lemma keeps_synthesizeTrivialSetter :
  forall TC setter storage valueVar,
    (quiet = true -> mayCopy storage = false) ->
    keeps (grows quiet)
      (synthesizeTrivialSetter assertionsEnabled TC setter storage valueVar).
Proof.
  intros TC setter storage valueVar Hquiet. unfold synthesizeTrivialSetter.
  destruct (sdIsInvalid (sdInfo storage)); [keeps_all|].
  apply (keeps_bind _ (grows_trans _));
    [apply keeps_createPropertyStore; exact Hquiet|intros ?; keeps_all].
Qed.

Lemma keeps_doesStorageNeedSetter :
  forall storage,
    keeps (grows quiet) (doesStorageNeedSetter assertionsEnabled storage).
Proof. intros. unfold doesStorageNeedSetter. keeps_all. Qed.

Lemma keeps_synthesizeMaterializeForSet :
  forall m storage, keeps (grows quiet) (synthesizeMaterializeForSet m storage).
Proof. intros. unfold synthesizeMaterializeForSet. keeps_all. Qed.

Lemma keeps_addMaterializeForSet :
  forall TC storage,
    keeps (grows quiet) (addMaterializeForSet assertionsEnabled TC storage).
Proof.
  intros. unfold addMaterializeForSet.
  apply (keeps_bind _ (grows_trans _));
    [apply keeps_createMaterializeForSetPrototype|intros ?; keeps_all].
Qed.

Lemma keeps_addTrivialAccessorsToStorage :
  forall TC storage,
    (quiet = true -> mayCopy storage = false) ->
    keeps (grows quiet) (addTrivialAccessorsToStorage assertionsEnabled TC storage).
Proof.
  intros TC storage Hquiet. unfold addTrivialAccessorsToStorage.
  apply (keeps_bind _ (grows_trans _)); [keeps_all|intros _].
  apply (keeps_bind _ (grows_trans _));
    [apply keeps_createGetterPrototype|intros getter].
  apply (keeps_bind _ (grows_trans _));
    [apply keeps_doesStorageNeedSetter|intros needSetter].
  apply (keeps_bind _ (grows_trans _)).
  { destruct needSetter; [|keeps_all].
    apply (keeps_bind _ (grows_trans _));
      [apply keeps_createSetterPrototype|intros ?; keeps_all]. }
  intros setterAndValue.
  apply (keeps_bind _ (grows_trans _));
    [apply keeps_synthesizeTrivialGetter|intros getter'].
  apply (keeps_bind _ (grows_trans _)); [auto with keeps|intros _].
  apply (keeps_bind _ (grows_trans _)); [auto with keeps|intros _].
  apply (keeps_bind _ (grows_trans _)).
  { destruct setterAndValue as [[setter valueParam]|]; [|keeps_all].
    apply (keeps_bind _ (grows_trans _));
      [apply keeps_synthesizeTrivialSetter; exact Hquiet|intros ?; keeps_all]. }
  intros storage1.
  apply (keeps_bind _ (grows_trans _)); [auto with keeps|intros _].
  destruct (sdSetter storage1) as [setter|]; [|keeps_all].
  apply (keeps_bind _ (grows_trans _)); [auto with keeps|intros _].
  destruct (isNominalTypeOrNominalTypeExtensionContext _); [|keeps_all].
  apply (keeps_bind _ (grows_trans _));
    [apply keeps_addMaterializeForSet|intros [m storage2]].
  apply (keeps_bind _ (grows_trans _));
    [apply keeps_synthesizeMaterializeForSet|intros ?; keeps_all].
Qed.

Lemma keeps_maybeAddMaterializeForSet :
  forall TC storage,
    keeps (grows quiet) (maybeAddMaterializeForSet assertionsEnabled TC storage).
Proof.
  intros. unfold maybeAddMaterializeForSet.
  apply (keeps_bind _ (grows_trans _)); [keeps_all|intros _].
  assert (Hadd :
    keeps (grows quiet)
      (bind (addMaterializeForSet assertionsEnabled TC storage)
            (fun ms => ret (snd ms)))).
  { apply (keeps_bind _ (grows_trans _));
      [apply keeps_addMaterializeForSet|intros ?; keeps_all]. }
  repeat match goal with
         | |- keeps _ (ret _) => apply (keeps_ret _ (grows_refl _))
         | |- keeps _ (bind (addMaterializeForSet _ _ _) _) => exact Hadd
         | |- keeps _ (match ?x with _ => _ end) => destruct x
         end.
Qed.

End Growth.

Section GrowthOfEntryPoints.

Variable assertionsEnabled : bool.
Variable quiet : bool.

Lemma keeps_getParamDeclAtIndex :
  forall fn index, keeps (grows quiet) (getParamDeclAtIndex fn index).
Proof. intros. unfold getParamDeclAtIndex. keeps_all. Qed.

Lemma keeps_getFormalAccess :
  forall s, keeps (grows quiet) (getFormalAccess s).
Proof. intros. unfold getFormalAccess. keeps_all. Qed.

Lemma keeps_synthesizeObservingAccessors :
  forall TC VD,
    (quiet = true -> mayCopy VD = false) ->
    keeps (grows quiet) (synthesizeObservingAccessors assertionsEnabled TC VD).
Proof.
  intros TC VD Hquiet. unfold synthesizeObservingAccessors.
  apply (keeps_bind _ (grows_trans _)); [keeps_all|intros _].
  apply (keeps_bind _ (grows_trans _)); [keeps_all|intros _].
  destruct (sdGetter VD) as [Get|]; [|keeps_all].
  destruct (sdSetter VD) as [Set_|]; [|keeps_all].
  apply (keeps_bind _ (grows_trans _));
    [apply keeps_synthesizeTrivialGetter|intros Get'].
  apply (keeps_bind _ (grows_trans _));
    [apply keeps_getParamDeclAtIndex|intros ValueDecl].
  apply (keeps_bind _ (grows_trans _)).
  { cbn [sdDidSetFunc sdSetGetter].
    destruct (sdDidSetFunc VD); [|keeps_all].
    apply (keeps_bind _ (grows_trans _));
      [apply keeps_buildStorageReference|intros ?; keeps_all]. }
  intros SetterBody.
  cbn [sdWillSetFunc sdSetGetter].
  destruct (sdWillSetFunc VD) as [willSet|];
    (apply (keeps_bind _ (grows_trans _));
     [apply keeps_createPropertyStore; exact Hquiet|intros body]);
    cbn [sdDidSetFunc sdSetGetter sdSetWillSetFunc];
    destruct (sdDidSetFunc VD); keeps_all.
Qed.

Lemma keeps_convertNSManagedStoredVarToComputed :
  forall TC VD,
    keeps (grows quiet)
      (convertNSManagedStoredVarToComputed assertionsEnabled TC VD).
Proof.
  intros. unfold convertNSManagedStoredVarToComputed.
  apply (keeps_bind _ (grows_trans _)); [keeps_all|intros _].
  apply (keeps_bind _ (grows_trans _));
    [apply keeps_createGetterPrototype|intros Get].
  apply (keeps_bind _ (grows_trans _));
    [apply keeps_createSetterPrototype|intros ?; keeps_all].
Qed.

Lemma keeps_completeLazyPropertyGetter :
  forall TC VD Storage,
    (quiet = true -> mayCopy Storage = false) ->
    keeps (grows quiet)
      (completeLazyPropertyGetter assertionsEnabled TC VD Storage).
Proof.
  intros TC VD Storage Hquiet. unfold completeLazyPropertyGetter.
  destruct (sdGetter VD) as [Get|]; [|keeps_all].
  apply (keeps_bind _ (grows_trans _)); [auto with keeps|intros _].
  apply (keeps_bind _ (grows_trans _));
    [apply keeps_buildStorageReference|intros Tmp1Init].
  destruct (sdParentInitializer VD); [|keeps_all].
  apply (keeps_bind _ (grows_trans _));
    [apply keeps_createPropertyStore; exact Hquiet|intros ?; keeps_all].
Qed.

(** The backing storage of a lazy property is created without
    attributes, so the lazy routine never diagnoses. *)
Lemma keeps_completeLazyVarImplementation :
  forall TC VD,
    keeps (grows quiet) (completeLazyVarImplementation assertionsEnabled TC VD).
Proof.
  intros. unfold completeLazyVarImplementation.
  apply (keeps_bind _ (grows_trans _)); [keeps_all|intros _].
  apply (keeps_bind _ (grows_trans _)); [keeps_all|intros _].
  apply (keeps_bind _ (grows_trans _)); [keeps_all|intros _].
  apply (keeps_bind _ (grows_trans _)); [auto with keeps|intros id].
  apply (keeps_bind _ (grows_trans _)); [auto with keeps|intros _].
  apply (keeps_bind _ (grows_trans _)); [auto with keeps|intros PBD].
  apply (keeps_bind _ (grows_trans _)); [auto with keeps|intros _].
  apply (keeps_bind _ (grows_trans _)).
  { apply keeps_completeLazyPropertyGetter. intros _. reflexivity. }
  intros [Get VD1].
  destruct (sdSetter VD1) as [Set_|]; [|keeps_all].
  apply (keeps_bind _ (grows_trans _)); [auto with keeps|intros _].
  apply (keeps_bind _ (grows_trans _));
    [apply keeps_getParamDeclAtIndex|intros SetValueDecl].
  apply (keeps_bind _ (grows_trans _)).
  { apply keeps_synthesizeTrivialSetter. intros _. reflexivity. }
  intros Set'. keeps_all.
Qed.

Lemma keeps_maybeAddAccessorsToVariable :
  forall TC enclosingFile var,
    (quiet = true -> mayCopy var = false) ->
    keeps (grows quiet)
      (maybeAddAccessorsToVariable assertionsEnabled TC enclosingFile var).
Proof.
  intros TC enclosingFile var Hquiet. unfold maybeAddAccessorsToVariable.
  destruct (_ || sdIsBeingTypeChecked var); [keeps_all|].
  destruct (isLocalContext _); [keeps_all|].
  apply (keeps_bind _ (grows_trans _)); [keeps_all|intros _].
  destruct (hasAttribute LazyAttr (sdAttrs var)).
  { apply (keeps_bind _ (grows_trans _));
      [apply keeps_createGetterPrototype|intros getter].
    apply (keeps_bind _ (grows_trans _));
      [apply keeps_getFormalAccess|intros access].
    apply (keeps_bind _ (grows_trans _));
      [apply keeps_createSetterPrototype|intros ?; keeps_all]. }
  destruct (sdIsImplicit var); [keeps_all|].
  assert (Htrivial :
    keeps (grows quiet)
      (bind (addTrivialAccessorsToStorage assertionsEnabled TC
               (sdSetIsBeingTypeChecked var true))
            (fun var0 => ret (sdSetIsBeingTypeChecked var0 false)))).
  { apply (keeps_bind _ (grows_trans _));
      [apply keeps_addTrivialAccessorsToStorage; exact Hquiet
      |intros ?; keeps_all]. }
  assert (Hmanaged :
    keeps (grows quiet)
      (bind (convertNSManagedStoredVarToComputed assertionsEnabled TC
               (sdSetIsBeingTypeChecked var true))
            (fun var0 => ret (sdSetIsBeingTypeChecked var0 false)))).
  { apply (keeps_bind _ (grows_trans _));
      [apply keeps_convertNSManagedStoredVarToComputed|intros ?; keeps_all]. }
  repeat match goal with
         | |- keeps _ (ret _) => apply (keeps_ret _ (grows_refl _))
         | |- keeps _ (bind (addTrivialAccessorsToStorage _ _ _) _) =>
             exact Htrivial
         | |- keeps _ (bind (convertNSManagedStoredVarToComputed _ _ _) _) =>
             exact Hmanaged
         | |- keeps _ (match ?x with _ => _ end) => destruct x
         end.
Qed.

Lemma keeps_convertStoredVarInProtocolToComputed :
  forall TC VD,
    keeps (grows quiet) (convertStoredVarInProtocolToComputed TC VD).
Proof.
  intros. unfold convertStoredVarInProtocolToComputed.
  apply (keeps_bind _ (grows_trans _));
    [apply keeps_createGetterPrototype|intros Get].
  apply (keeps_bind _ (grows_trans _)); [auto with keeps|intros _].
  keeps_all.
Qed.

Lemma keeps_synthesizeSetterForMutableAddressedStorage :
  forall TC storage,
    (quiet = true -> mayCopy storage = false) ->
    keeps (grows quiet)
      (synthesizeSetterForMutableAddressedStorage assertionsEnabled TC storage).
Proof.
  intros TC storage Hquiet.
  unfold synthesizeSetterForMutableAddressedStorage.
  apply (keeps_bind _ (grows_trans _)); [keeps_all|intros _].
  destruct (sdSetter storage) as [setter|]; [|keeps_all].
  apply (keeps_bind _ (grows_trans _)); [keeps_all|intros _].
  apply (keeps_bind _ (grows_trans _)); [keeps_all|intros _].
  apply (keeps_bind _ (grows_trans _));
    [apply keeps_getParamDeclAtIndex|intros valueParamDecl].
  apply (keeps_bind _ (grows_trans _));
    [apply keeps_synthesizeTrivialSetter; exact Hquiet|intros ?; keeps_all].
Qed.

Lemma keeps_synthesizeWitnessAccessorsForStorage :
  forall TC requirement storage,
    (quiet = true -> mayCopy storage = false) ->
    keeps (grows quiet)
      (synthesizeWitnessAccessorsForStorage assertionsEnabled TC requirement
         storage).
Proof.
  intros TC requirement storage Hquiet.
  unfold synthesizeWitnessAccessorsForStorage.
  destruct (negb (hasAccessorFunctions storage)).
  - apply keeps_addTrivialAccessorsToStorage. exact Hquiet.
  - match goal with
    | |- keeps _ (if ?b then _ else _) => destruct b
    end; [|keeps_all].
    apply (keeps_bind _ (grows_trans _));
      [apply keeps_addMaterializeForSet|intros [m storage2]].
    apply (keeps_bind _ (grows_trans _));
      [apply keeps_synthesizeMaterializeForSet|intros ?; keeps_all].
Qed.

Lemma keeps_addImplicitDestructor :
  forall CD, keeps (grows quiet) (addImplicitDestructor CD).
Proof.
  intros. unfold addImplicitDestructor.
  destruct (clsHasDestructor CD || clsIsInvalid CD); [keeps_all|].
  apply (keeps_bind _ (grows_trans _)); [auto with keeps|intros id].
  apply (keeps_bind _ (grows_trans _)); [auto with keeps|intros _].
  apply (keeps_bind _ (grows_trans _)); [|intros _; keeps_all].
  intros st a st' H. injection H as _ Hst. subst st'.
  constructor; simpl; try apply continues_refl; auto.
  apply Subsequence_snoc.
Qed.

Lemma keeps_memberwiseParams :
  forall TC vars accessLevel params,
    keeps (grows quiet) (memberwiseParams TC vars accessLevel params).
Proof.
  intros TC vars. induction vars as [|var rest IH]; intros accessLevel params.
  - simpl. keeps_all.
  - simpl. destruct (sdIsImplicit var); [apply IH|].
    apply (keeps_bind _ (grows_trans _)); [auto with keeps|intros _].
    match goal with
    | |- keeps _ (if ?b then _ else _) => destruct b
    end; [apply IH|].
    apply (keeps_bind _ (grows_trans _));
      [apply keeps_getFormalAccess|intros access; apply IH].
Qed.

Lemma keeps_createImplicitConstructor :
  forall tc decl storedProperties ICK,
    keeps (grows quiet)
      (createImplicitConstructor assertionsEnabled tc decl storedProperties ICK).
Proof.
  intros. unfold createImplicitConstructor.
  apply (keeps_bind _ (grows_trans _)).
  { destruct ICK; [keeps_all|].
    apply (keeps_bind _ (grows_trans _));
      [keeps_all|intros _; apply keeps_memberwiseParams]. }
  intros [accessLevel paramList]. unfold ConstructorDecl_new. keeps_all.
Qed.

End GrowthOfEntryPoints.

Lemma keeps_createStubBody :
  forall tc ctor, keeps (grows false) (createStubBody tc ctor).
Proof.
  intros. unfold createStubBody.
  destruct (tcUnimplementedInitializerDecl tc); [keeps_all|].
  apply (keeps_bind _ (grows_trans _)); [apply keeps_diagnose|intros _].
  keeps_all.
Qed.

Lemma keeps_createDesignatedInitOverride :
  forall tc classDecl superclassCtor kind,
    keeps (grows false)
      (createDesignatedInitOverride tc classDecl superclassCtor kind).
Proof.
  intros. unfold createDesignatedInitOverride.
  destruct (_ || ntdIsGeneric classDecl); [keeps_all|].
  unfold ConstructorDecl_new.
  apply (keeps_bind _ (grows_trans _)); [keeps_all|intros ctor].
  apply (keeps_bind _ (grows_trans _)); [keeps_all|intros superAccess].
  apply (keeps_bind _ (grows_trans _)); [auto with keeps|intros _].
  destruct kind.
  - apply (keeps_bind _ (grows_trans _));
      [apply keeps_createStubBody|intros ?; keeps_all].
  - destruct (buildArgumentForwardingExpr _); [keeps_all|].
    apply (keeps_bind _ (grows_trans _)); [apply keeps_diagnose|intros _].
    apply (keeps_bind _ (grows_trans _)); [apply keeps_diagnose|intros _].
    apply (keeps_bind _ (grows_trans _));
      [apply keeps_createStubBody|intros ?; keeps_all].
Qed.

(** ** Argument forwarding, in full *)

(** The argument expressions of a forwarding expression, and their
    labels. *)
Definition forwardedElements (e : Expr) : list Expr :=
  match e with
  | TupleExpr elts _ => elts
  | _ => [e]
  end.

(** X1.  Argument forwarding fails exactly when a parameter is variadic;
    when it succeeds, the expression has one argument per parameter, in
    the order of the parameters: a reference to the parameter, in/out for
    an in/out parameter. *)
Theorem forwarding_fails_iff_variadic :
  forall params,
    (buildArgumentForwardingExpr params = None
     <-> existsb pdIsVariadic params = true) /\
    (forall e,
        buildArgumentForwardingExpr params = Some e ->
        forwardedElements e = map forwardArg params /\
        List.length (forwardedElements e) = List.length params).
Proof.
  intros params. split.
  - split.
    + intros Hnone.
      destruct (existsb pdIsVariadic params) eqn:Hvar; [reflexivity|].
      rewrite (forwarding_fixed_arity params Hvar) in Hnone. discriminate Hnone.
    + apply forwarding_variadic.
  - intros e He.
    destruct (existsb pdIsVariadic params) eqn:Hvar.
    + rewrite (forwarding_variadic params Hvar) in He. discriminate He.
    + rewrite (forwarding_fixed_arity params Hvar) in He.
      injection He as He. subst e.
      assert (Helts : forwardedElements (forwardedArguments params)
                      = map forwardArg params).
      { unfold forwardedArguments.
        destruct params as [|p [|q rest]]; try reflexivity.
        destruct (identEmpty (pdArgumentName p)); [|reflexivity].
        cbn [map]. unfold forwardArg.
        destruct (isInOutType (pdType p)); reflexivity. }
      split; [exact Helts|]. now rewrite Helts, length_map.
Qed.

(** ** Re-parenting the closures of an initializer *)

(** The parents recorded in the closures and the capture lists an
    expression walk reaches. *)
Fixpoint closureParents (E : Expr) : list ClosureParent :=
  let all := flat_map closureParents in
  match E with
  | ClosureExpr _ parent => [parent]
  | CaptureListExpr captures closure =>
      flat_map (fun c => [snd (fst c); snd c]) captures
      ++ closureParents closure
  | DeclRefExpr _ _ | SuperRefExpr _ | NilLiteralExpr
  | StringLiteralExpr _ => []
  | MemberRefExpr base _ _ => closureParents base
  | SubscriptExpr base index _ _ =>
      closureParents base
      ++ match index with Some i => closureParents i | None => [] end
  | InOutExpr e | ParenExpr e | UnresolvedDotExpr e _ | BindOptionalExpr e _
  | OptionalEvaluationExpr e | ForceValueExpr e | ForcedCheckedCastExpr e _
  | ConditionalCheckedCastExpr e _ | TryExpr e | OptionalToBoolExpr e =>
      closureParents e
  | TupleExpr elts _ => all elts
  | CallExpr a b | DotSyntaxCallExpr a b | AssignExpr a b =>
      closureParents a ++ closureParents b
  | UserExpr _ children => all children
  end.

(** Induction on expressions, through the lists and the options they
    nest. *)
Section ExprInduction.

Variable P : Expr -> Prop.

Hypothesis P_DeclRef : forall d s, P (DeclRefExpr d s).
Hypothesis P_SuperRef : forall s, P (SuperRefExpr s).
Hypothesis P_MemberRef : forall b m s, P b -> P (MemberRefExpr b m s).
Hypothesis P_Subscript :
  forall b i d s,
    P b -> (forall e, i = Some e -> P e) -> P (SubscriptExpr b i d s).
Hypothesis P_InOut : forall e, P e -> P (InOutExpr e).
Hypothesis P_Tuple : forall es ls, Forall P es -> P (TupleExpr es ls).
Hypothesis P_Paren : forall e, P e -> P (ParenExpr e).
Hypothesis P_Call : forall a b, P a -> P b -> P (CallExpr a b).
Hypothesis P_DotSyntaxCall : forall a b, P a -> P b -> P (DotSyntaxCallExpr a b).
Hypothesis P_UnresolvedDot : forall e n, P e -> P (UnresolvedDotExpr e n).
Hypothesis P_Assign : forall a b, P a -> P b -> P (AssignExpr a b).
Hypothesis P_BindOptional : forall e d, P e -> P (BindOptionalExpr e d).
Hypothesis P_OptionalEvaluation : forall e, P e -> P (OptionalEvaluationExpr e).
Hypothesis P_ForceValue : forall e, P e -> P (ForceValueExpr e).
Hypothesis P_ForcedCast : forall e t, P e -> P (ForcedCheckedCastExpr e t).
Hypothesis P_ConditionalCast :
  forall e t, P e -> P (ConditionalCheckedCastExpr e t).
Hypothesis P_Nil : P NilLiteralExpr.
Hypothesis P_String : forall s, P (StringLiteralExpr s).
Hypothesis P_Try : forall e, P e -> P (TryExpr e).
Hypothesis P_OptionalToBool : forall e, P e -> P (OptionalToBoolExpr e).
Hypothesis P_Closure : forall id p, P (ClosureExpr id p).
Hypothesis P_CaptureList : forall cs e, P e -> P (CaptureListExpr cs e).
Hypothesis P_User : forall id es, Forall P es -> P (UserExpr id es).

Fixpoint Expr_nested_ind (E : Expr) : P E :=
  let each :=
    fix each (es : list Expr) : Forall P es :=
      match es with
      | [] => Forall_nil P
      | e :: r => Forall_cons e (Expr_nested_ind e) (each r)
      end in
  match E with
  | DeclRefExpr d s => P_DeclRef d s
  | SuperRefExpr s => P_SuperRef s
  | MemberRefExpr b m s => P_MemberRef b m s (Expr_nested_ind b)
  | SubscriptExpr b i d s =>
      P_Subscript b i d s (Expr_nested_ind b)
        (match i as i0 return forall e, i0 = Some e -> P e with
         | Some x =>
             fun e H =>
               match H in _ = o
                     return match o with Some y => P y | None => True end
               with
               | eq_refl => Expr_nested_ind x
               end
         | None => fun e H => match H with end
         end)
  | InOutExpr e => P_InOut e (Expr_nested_ind e)
  | TupleExpr es ls => P_Tuple es ls (each es)
  | ParenExpr e => P_Paren e (Expr_nested_ind e)
  | CallExpr a b => P_Call a b (Expr_nested_ind a) (Expr_nested_ind b)
  | DotSyntaxCallExpr a b =>
      P_DotSyntaxCall a b (Expr_nested_ind a) (Expr_nested_ind b)
  | UnresolvedDotExpr e n => P_UnresolvedDot e n (Expr_nested_ind e)
  | AssignExpr a b => P_Assign a b (Expr_nested_ind a) (Expr_nested_ind b)
  | BindOptionalExpr e d => P_BindOptional e d (Expr_nested_ind e)
  | OptionalEvaluationExpr e => P_OptionalEvaluation e (Expr_nested_ind e)
  | ForceValueExpr e => P_ForceValue e (Expr_nested_ind e)
  | ForcedCheckedCastExpr e t => P_ForcedCast e t (Expr_nested_ind e)
  | ConditionalCheckedCastExpr e t => P_ConditionalCast e t (Expr_nested_ind e)
  | NilLiteralExpr => P_Nil
  | StringLiteralExpr s => P_String s
  | TryExpr e => P_Try e (Expr_nested_ind e)
  | OptionalToBoolExpr e => P_OptionalToBool e (Expr_nested_ind e)
  | ClosureExpr id p => P_Closure id p
  | CaptureListExpr cs e => P_CaptureList cs e (Expr_nested_ind e)
  | UserExpr id es => P_User id es (each es)
  end.

End ExprInduction.

Lemma closureParents_each :
  forall (Q : list ClosureParent -> Prop) D es,
    Q [] ->
    (forall l1 l2, Q l1 -> Q l2 -> Q (l1 ++ l2)) ->
    Forall (fun e => Q (closureParents (recontextualizeClosures D e))) es ->
    Q (flat_map closureParents (map (recontextualizeClosures D) es)).
Proof.
  intros Q D es Hnil Happ Hall. induction Hall as [|e r He Hr IH]; simpl.
  - exact Hnil.
  - apply Happ; assumption.
Qed.

Lemma recontextualized_captures :
  forall D (captures : list (Identifier * ClosureParent * ClosureParent)),
    Forall (eq D)
      (flat_map
         (fun c : Identifier * ClosureParent * ClosureParent =>
            [snd (fst c); snd c])
         (map (fun c => (fst (fst c), D, D)) captures)).
Proof.
  intros D captures. induction captures as [|c r IH]; simpl.
  - constructor.
  - constructor; [reflexivity|]. constructor; [reflexivity|exact IH].
Qed.

Lemma recontextualized_parents :
  forall D E, Forall (eq D) (closureParents (recontextualizeClosures D E)).
Proof.
  intros D.
  induction E using Expr_nested_ind; cbn [recontextualizeClosures closureParents];
    try (constructor; fail); try assumption;
    try (apply Forall_app; split; assumption).
  - (* SubscriptExpr *)
    apply Forall_app. split; [assumption|].
    destruct i as [e|]; cbn [option_map]; [|constructor].
    now apply (H e).
  - (* TupleExpr *)
    apply (closureParents_each (Forall (eq D))); [constructor| |assumption].
    intros l1 l2 H1 H2. apply Forall_app. now split.
  - (* ClosureExpr *)
    constructor; [reflexivity|constructor].
  - (* CaptureListExpr *)
    apply Forall_app. split; [apply recontextualized_captures|assumption].
  - (* UserExpr *)
    apply (closureParents_each (Forall (eq D))); [constructor| |assumption].
    intros l1 l2 H1 H2. apply Forall_app. now split.
Qed.

Lemma recontextualize_twice :
  forall D1 D2 E,
    recontextualizeClosures D2 (recontextualizeClosures D1 E)
    = recontextualizeClosures D2 E.
Proof.
  intros D1 D2.
  induction E using Expr_nested_ind; cbn [recontextualizeClosures];
    try reflexivity; try (f_equal; assumption).
  - (* SubscriptExpr *)
    f_equal; [assumption|].
    destruct i as [e|]; cbn [option_map]; [|reflexivity].
    f_equal. now apply (H e).
  - (* TupleExpr *)
    f_equal. rewrite map_map. apply map_ext_Forall. assumption.
  - (* CaptureListExpr *)
    f_equal; [|assumption].
    rewrite map_map. reflexivity.
  - (* UserExpr *)
    f_equal. rewrite map_map. apply map_ext_Forall. assumption.
Qed.

Lemma closureParents_count :
  forall D E,
    List.length (closureParents (recontextualizeClosures D E))
    = List.length (closureParents E).
Proof.
  intros D.
  induction E using Expr_nested_ind; cbn [recontextualizeClosures closureParents];
    try reflexivity; try assumption;
    try (rewrite !length_app; congruence).
  - (* SubscriptExpr *)
    rewrite !length_app. f_equal; [assumption|].
    destruct i as [e|]; cbn [option_map]; [|reflexivity]. now apply (H e).
  - (* TupleExpr *)
    induction H as [|e r He Hr IH]; [reflexivity|].
    cbn [map flat_map]. rewrite !length_app. congruence.
  - (* CaptureListExpr *)
    rewrite !length_app. f_equal; [|assumption].
    induction cs as [|c r IH]; [reflexivity|].
    cbn [map flat_map app List.length]. now rewrite IH.
  - (* UserExpr *)
    induction H as [|e r He Hr IH]; [reflexivity|].
    cbn [map flat_map]. rewrite !length_app. congruence.
Qed.

(** X2.  Re-parenting the closures of an initializer gives every closure
    and every capture-list declaration the walk reaches the new parent; it
    loses none and adds none; and re-parenting again is as re-parenting
    once, with the last parent (so it is idempotent). *)
Theorem recontextualize_reparents_every_closure :
  forall NewDC E,
    Forall (eq NewDC) (closureParents (recontextualizeClosures NewDC E)) /\
    List.length (closureParents (recontextualizeClosures NewDC E))
    = List.length (closureParents E) /\
    (forall OldDC,
        recontextualizeClosures NewDC (recontextualizeClosures OldDC E)
        = recontextualizeClosures NewDC E) /\
    recontextualizeClosures NewDC (recontextualizeClosures NewDC E)
    = recontextualizeClosures NewDC E.
Proof.
  intros NewDC E. split; [apply recontextualized_parents|].
  split; [apply closureParents_count|].
  split; [intros OldDC|]; apply recontextualize_twice.
Qed.

(** ** materializeForSet, once *)

Lemma maybeAddMaterializeForSet_present :
  forall assertionsEnabled TC storage m st,
    hasAccessorFunctions storage = true ->
    sdMaterializeForSetFunc storage = Some m ->
    maybeAddMaterializeForSet assertionsEnabled TC storage st
    = Done (storage, st).
Proof.
  intros ae TC storage m st Hacc Hm.
  unfold maybeAddMaterializeForSet, bind, assert_.
  rewrite Hacc, Hm. simpl. rewrite andb_false_r. reflexivity.
Qed.

(** X3.  [maybeAddMaterializeForSet] is idempotent: on an entity that has
    accessors it completes, a second request changes neither the entity
    nor the state, and at most one function is ever created. *)
Theorem maybeAddMaterializeForSet_idempotent :
  forall assertionsEnabled TC storage st,
    hasAccessorFunctions storage = true ->
    exists storage' st',
      maybeAddMaterializeForSet assertionsEnabled TC storage st
      = Done (storage', st') /\
      maybeAddMaterializeForSet assertionsEnabled TC storage' st'
      = Done (storage', st') /\
      stNextID st' <= S (stNextID st) /\
      stDiags st' = stDiags st.
Proof.
  intros ae TC storage st Hacc.
  destruct (sdMaterializeForSetFunc storage) as [m|] eqn:Hm.
  - exists storage, st.
    rewrite (maybeAddMaterializeForSet_present ae TC storage m st Hacc Hm).
    repeat split. lia.
  - destruct (maybeAddMaterializeForSet_spec ae TC storage st Hacc Hm)
      as (storage' & st' & Hrun & Hpost).
    exists storage', st'. split; [exact Hrun|].
    destruct (needsMaterializeForSet storage).
    + destruct Hpost as (Hid & Hdiags & m & _ & _ & Hs). subst storage'.
      split; [|split; [unfold allocatesOne in Hid; lia|exact Hdiags]].
      apply (maybeAddMaterializeForSet_present ae TC _ m); [|reflexivity].
      exact Hacc.
    + destruct Hpost as [Hs Hst]. subst storage' st'.
      split; [exact Hrun|]. split; [lia|reflexivity].
Qed.

Lemma maybeAddMaterializeForSet_idempotent_witness :
  exists storage' st',
    maybeAddMaterializeForSet true fullTC computedInStruct emptyState
    = Done (storage', st') /\
    maybeAddMaterializeForSet true fullTC storage' st' = Done (storage', st') /\
    stNextID st' = 101.
Proof.
  destruct (maybeAddMaterializeForSet_idempotent true fullTC computedInStruct
              emptyState eq_refl)
    as (storage' & st' & Hrun & Hagain & _ & _).
  exists storage', st'. split; [exact Hrun|]. split; [exact Hagain|].
  vm_compute in Hrun. injection Hrun as _ Hst. subst st'. reflexivity.
Defined.

(** ** Stored properties of protocols *)

(** X4.  Converting a stored property of a protocol makes it a computed
    property with a getter and nothing else: one function is created, it
    has no body, it is queued for both type-checking passes, and a later
    request for a materializeForSet leaves the property as it is
    (read-only declarations never get one). *)
Theorem protocol_property_is_read_only :
  forall assertionsEnabled TC VD st,
    exists VD' st' getter,
      convertStoredVarInProtocolToComputed TC VD st = Done (VD', st') /\
      sdStorageKind VD' = Computed /\
      sdGetter VD' = Some getter /\
      fnAccessorKind getter = IsGetter /\
      fnID getter = stNextID st /\
      fnBody getter = None /\
      sdSetter VD' = None /\
      sdMaterializeForSetFunc VD' = None /\
      stNextID st' = S (stNextID st) /\
      stDiags st' = stDiags st /\
      stRequests st'
      = stRequests st
        ++ [ReqTypeCheckDecl (stNextID st) true;
            ReqTypeCheckDecl (stNextID st) false] /\
      maybeAddMaterializeForSet assertionsEnabled TC VD' st' = Done (VD', st').
Proof.
  intros ae TC VD st.
  destruct VD as [info ov kind attrs impl btc ua acc sacc pinit g s m ws ds ma].
  destruct info as
    [id name dk ty dc isLet isStatic isObjC hasClang isInvalid gm snm fl].
  unfold convertStoredVarInProtocolToComputed, createGetterPrototype,
    FuncDecl_create, maybeAddMaterializeForSet, assert_, makeFinalFunc.
  cbn [sdInfo sdDeclContext sdIsGetterMutating sdIsStatic].
  destruct gm, isStatic, (sdIsFinal _), dc;
    (eexists; eexists; eexists; split; [reflexivity|]);
    cbn; rewrite ?andb_false_r, <- ?app_assoc; repeat split; reflexivity.
Qed.

(** ** The implicit destructor *)

(** X5.  [addImplicitDestructor] gives a class that has no destructor and
    is not invalid exactly one destructor, with an empty body, queued for
    the first type-checking pass and appended to the members; a class that
    has a destructor or is invalid is left alone.  Either way a second call
    changes nothing. *)
Theorem implicit_destructor_added_once :
  forall CD st,
    exists CD' st',
      addImplicitDestructor CD st = Done (CD', st') /\
      addImplicitDestructor CD' st' = Done (CD', st') /\
      clsDecl CD' = clsDecl CD /\
      clsIsInvalid CD' = clsIsInvalid CD /\
      if clsHasDestructor CD || clsIsInvalid CD
      then CD' = CD /\ st' = st
      else
        clsHasDestructor CD' = true /\
        clsImplicitDestructor CD'
        = Some (mkDtor (stNextID st)
                  (createSelfParam (NominalDC (clsDecl CD)) false) (Some [])) /\
        stMembers st' = stMembers st ++ [stNextID st] /\
        stRequests st' = stRequests st ++ [ReqTypeCheckDecl (stNextID st) true] /\
        stDiags st' = stDiags st /\
        stNextID st' = S (stNextID st).
Proof.
  intros CD st. unfold addImplicitDestructor at 1.
  destruct (clsHasDestructor CD || clsIsInvalid CD) eqn:Hskip.
  - exists CD, st. unfold addImplicitDestructor. rewrite Hskip.
    repeat split.
  - eexists. eexists. split; [reflexivity|].
    repeat split.
Qed.

(** ** Initializer overrides *)

(** X6.  A Stub override never looks at the arity of the ancestor's
    parameters: with the unimplemented-initializer entry point available
    the body is the single call of it on the qualified class name and no
    diagnostic is emitted; without it exactly one diagnostic is emitted and
    the override is returned without a body and not marked as a stub. *)
Theorem override_init_stub_body :
  forall tc classDecl superclassCtor access st,
    cdInitializerTypeIsGeneric superclassCtor = false ->
    ntdIsGeneric classDecl = false ->
    cdAccessibility superclassCtor = Some access ->
    exists ctor st',
      createDesignatedInitOverride tc classDecl superclassCtor Stub st
      = Done (Some ctor, st') /\
      match tcUnimplementedInitializerDecl tc with
      | Some hook =>
          cdBody ctor
          = Some [NodeExpr
                    (CallExpr (DeclRefExpr (VRDecl hook) Ordinary)
                       (ParenExpr
                          (StringLiteralExpr
                             (ntdModuleName classDecl ++ "."
                              ++ ntdName classDecl))))] /\
          cdIsStubImplementation ctor = true /\
          stDiags st' = stDiags st
      | None =>
          cdBody ctor = None /\
          cdIsStubImplementation ctor = false /\
          stDiags st'
          = stDiags st ++ [missing_unimplemented_init_runtime (ntdName classDecl)]
      end.
Proof.
  intros tc classDecl superclassCtor access st Hgen Hcls Hacc.
  unfold createDesignatedInitOverride, ConstructorDecl_new, createStubBody.
  rewrite Hgen, Hcls, Hacc. cbn [orb].
  destruct (cdIsObjC superclassCtor);
    destruct (getObjCAttrName (cdAttrs superclassCtor)) as [[n|]|];
    destruct (hasAttribute RequiredAttr (cdAttrs superclassCtor));
    destruct (tcUnimplementedInitializerDecl tc) as [hook|];
    (eexists; eexists; split; [reflexivity|]); repeat split.
Qed.

Lemma override_init_stub_body_witness :
  exists ctor st',
    createDesignatedInitOverride fullTC classDerived
      (ancestorInit [paramInt "x" "x"; paramVariadic "rest" "rest"] false false)
      Stub emptyState = Done (Some ctor, st') /\
    cdIsStubImplementation ctor = true /\
    stDiags st' = [].
Proof.
  destruct (override_init_stub_body fullTC classDerived
              (ancestorInit [paramInt "x" "x"; paramVariadic "rest" "rest"]
                 false false)
              Public emptyState eq_refl eq_refl eq_refl)
    as (ctor & st' & Hrun & Hrest).
  simpl in Hrest. destruct Hrest as (_ & Hstub & Hdiags).
  exists ctor, st'. split; [exact Hrun|]. split; assumption.
Defined.

Lemma cloneParameterList_signature :
  forall params,
    let cloned := cloneParameterList true true params in
    List.length cloned = List.length params /\
    map pdArgumentName cloned = map pdArgumentName params /\
    map pdName cloned = map pdName params /\
    map pdType cloned = map pdType params /\
    map pdIsVariadic cloned = map pdIsVariadic params /\
    Forall (fun p => pdIsImplicit p = true /\ pdIsInherited p = true) cloned.
Proof.
  intros params. unfold cloneParameterList.
  induction params as [|p rest (Hlen & Harg & Hname & Hty & Hvar & Hflags)];
    cbn [map List.length].
  - repeat split. constructor.
  - rewrite Hlen, Harg, Hname, Hty, Hvar. repeat split.
    constructor; [|exact Hflags].
    unfold cloneParam. cbn [pdIsImplicit pdIsInherited].
    rewrite !orb_true_r. split; reflexivity.
Qed.

(** X7.  An override of an ancestor initializer, whatever body is
    requested, mirrors the ancestor's signature: same name, failability,
    throwing and ObjC-ness, the ancestor's parameters cloned one for one as
    implicit inherited parameters, the lower of the class's and the
    ancestor's access levels, availability tied to the ancestor, an
    [override] attribute always, [required] iff the ancestor is required,
    and the ancestor's ObjC name iff the ancestor is ObjC and has one.  One
    declaration is created and one override check is requested; the
    override is not added to the members of the class. *)
Theorem override_init_signature :
  forall tc classDecl superclassCtor kind access st,
    cdInitializerTypeIsGeneric superclassCtor = false ->
    ntdIsGeneric classDecl = false ->
    cdAccessibility superclassCtor = Some access ->
    exists ctor st',
      createDesignatedInitOverride tc classDecl superclassCtor kind st
      = Done (Some ctor, st') /\
      (cdID ctor = stNextID st /\
       stNextID st' = S (stNextID st) /\
       stRequests st' = stRequests st ++ [ReqCheckOverrides (stNextID st)] /\
       stMembers st' = stMembers st /\
       stExternalDecls st' = stExternalDecls st) /\
      (cdDeclContext ctor = classDecl /\
       cdFullName ctor = cdFullName superclassCtor /\
       cdFailability ctor = cdFailability superclassCtor /\
       cdIsBodyThrowing ctor = cdIsBodyThrowing superclassCtor /\
       cdIsMemberwiseInitializer ctor = false /\
       cdAvailableAs ctor = [cdID superclassCtor] /\
       cdAccessibility ctor
       = Some (accessMin (ntdFormalAccess classDecl) access)) /\
      (cdIsObjC ctor = cdIsObjC superclassCtor /\
       cdForeignErrorConvention ctor
       = (if cdIsObjC superclassCtor
          then cdForeignErrorConvention superclassCtor else None) /\
       forall n,
         In (ObjCAttr (Some n)) (cdAttrs ctor) <->
         cdIsObjC superclassCtor = true /\
         getObjCAttrName (cdAttrs superclassCtor) = Some (Some n)) /\
      (hasAttribute OverrideAttr (cdAttrs ctor) = true /\
       hasAttribute RequiredAttr (cdAttrs ctor)
       = hasAttribute RequiredAttr (cdAttrs superclassCtor)) /\
      (List.length (cdParams ctor) = List.length (cdParams superclassCtor) /\
       map pdArgumentName (cdParams ctor)
       = map pdArgumentName (cdParams superclassCtor) /\
       map pdName (cdParams ctor) = map pdName (cdParams superclassCtor) /\
       map pdType (cdParams ctor) = map pdType (cdParams superclassCtor) /\
       map pdIsVariadic (cdParams ctor)
       = map pdIsVariadic (cdParams superclassCtor) /\
       Forall (fun p => pdIsImplicit p = true /\ pdIsInherited p = true)
         (cdParams ctor)).
Proof.
  intros tc classDecl superclassCtor kind access st Hgen Hcls Hacc.
  pose proof (cloneParameterList_signature (cdParams superclassCtor)) as Hparams.
  cbv zeta in Hparams.
  unfold createDesignatedInitOverride, ConstructorDecl_new, createStubBody.
  rewrite Hgen, Hcls, Hacc. cbn [orb].
  destruct kind;
    [|destruct (buildArgumentForwardingExpr
                  (cloneParameterList true true (cdParams superclassCtor)))
        as [ctorArgs|]];
    destruct (tcUnimplementedInitializerDecl tc) as [hook|];
    destruct (cdIsObjC superclassCtor);
    destruct (getObjCAttrName (cdAttrs superclassCtor)) as [[objcName|]|];
    destruct (hasAttribute RequiredAttr (cdAttrs superclassCtor)) eqn:Hreq;
    (eexists; eexists; split; [reflexivity|]);
    cbn -[cloneParameterList accessMin];
    (split; [repeat split|]); (split; [repeat split|]);
    (split; [split; [reflexivity|]; split; [reflexivity|];
             intros n; cbn [In]; split;
             [intros H;
              repeat match goal with
                     | H : _ \/ _ |- _ => destruct H as [H|H]
                     end; try discriminate; try contradiction;
              try (injection H as <-; split; reflexivity)
             |intros [Hobjc Hnamed]; try discriminate;
              try (injection Hnamed as <-); auto]
           |]);
    (split; [split; reflexivity|]); exact Hparams.
Qed.

Lemma override_init_signature_witness :
  exists ctor st',
    createDesignatedInitOverride fullTC classDerived
      (ancestorInit [paramInt "x" "x"; paramInOut "into" "y"] true false)
      Chaining emptyState = Done (Some ctor, st') /\
    map pdName (cdParams ctor) = ["x"; "y"]%string /\
    hasAttribute OverrideAttr (cdAttrs ctor) = true.
Proof.
  destruct (override_init_signature fullTC classDerived
              (ancestorInit [paramInt "x" "x"; paramInOut "into" "y"] true false)
              Chaining Public emptyState eq_refl eq_refl eq_refl)
    as (ctor & st' & Hrun & _ & _ & _ & (Hoverride & _)
        & (_ & _ & Hnames & _)).
  exists ctor, st'. split; [exact Hrun|]. split; [exact Hnames|exact Hoverride].
Defined.

(** ** Implicit initializers *)

Lemma accessMin_rank :
  forall a b,
    accessRank (accessMin a b) = Nat.min (accessRank a) (accessRank b).
Proof. intros a b. destruct a, b; reflexivity. Qed.

Lemma accessMin_either :
  forall a b, accessMin a b = a \/ accessMin a b = b.
Proof. intros a b. destruct a, b; auto. Qed.

(** The loop over the stored properties narrows the access level to the
    lowest level among the start and the properties that get a parameter,
    and validates every property that is not implicit. *)
Lemma memberwiseParams_access :
  forall tc vars accessLevel params st,
    Forall accessComputed vars ->
    exists level paramList st',
      memberwiseParams tc vars accessLevel params st
      = Done ((level, paramList), st') /\
      accessRank level <= accessRank accessLevel /\
      (forall var access,
          In var vars -> memberwiseEligible var = true ->
          sdAccessibility var = Some access ->
          accessRank level <= accessRank access) /\
      (level = accessLevel \/
       exists var, In var vars /\ memberwiseEligible var = true /\
                   sdAccessibility var = Some level) /\
      stRequests st'
      = stRequests st
        ++ map (fun var => ReqValidateDecl (sdID (sdInfo var)))
             (filter (fun var => negb (sdIsImplicit var)) vars) /\
      stDiags st' = stDiags st /\
      stExternalDecls st' = stExternalDecls st /\
      stMembers st' = stMembers st /\
      stNextID st' = stNextID st.
Proof.
  intros tc vars. induction vars as [|var rest IH];
    intros accessLevel params st Hacc.
  - exists accessLevel, params, st. cbn [memberwiseParams filter map].
    rewrite app_nil_r. repeat split; auto.
    intros var access [].
  - inversion Hacc as [|v l Hvar Hrest]; subst.
    cbn [memberwiseParams filter].
    destruct (sdIsImplicit var) eqn:Himp; cbn [negb].
    + destruct (IH accessLevel params st Hrest)
        as (level & ps & st' & Hrun & Hle & Hall & Hone & Hreq & Hframe).
      exists level, ps, st'. split; [exact Hrun|]. split; [exact Hle|].
      split; [|split; [|split; [exact Hreq|exact Hframe]]].
      * intros x access [<-|Hin] Helig Hx.
        -- unfold memberwiseEligible in Helig. rewrite Himp in Helig.
           discriminate.
        -- eapply Hall; eassumption.
      * destruct Hone as [Hsame|(x & Hin & Helig & Hx)]; [left; exact Hsame|].
        right. exists x. repeat split; auto. right. exact Hin.
    + unfold bind at 1. unfold validateDecl, request. cbn [map].
      destruct (sdIsLet (sdInfo var)
                && match sdParentInitializer var with
                   | Some _ => true
                   | None => false
                   end) eqn:Hconst.
      * match goal with
        | |- context [memberwiseParams tc rest accessLevel params ?s] =>
            destruct (IH accessLevel params s Hrest)
              as (level & ps & st' & Hrun & Hle & Hall & Hone & Hreq & Hframe)
        end.
        exists level, ps, st'. split; [exact Hrun|]. split; [exact Hle|].
        split; [|split; [|split; [|exact Hframe]]].
        -- intros x access [<-|Hin] Helig Hx.
           ++ unfold memberwiseEligible, hasInlineInitializer in Helig.
              rewrite Himp, Hconst in Helig. discriminate.
           ++ eapply Hall; eassumption.
        -- destruct Hone as [Hsame|(x & Hin & Helig & Hx)];
             [left; exact Hsame|].
           right. exists x. repeat split; auto. right. exact Hin.
        -- rewrite Hreq. cbn [stRequests]. rewrite <- app_assoc. reflexivity.
      * unfold getFormalAccess. unfold accessComputed in Hvar.
        destruct (sdAccessibility var) as [access|] eqn:Haccess;
          [|congruence].
        unfold bind at 1, ret at 1.
        match goal with
        | |- context [memberwiseParams tc rest ?a ?p ?s] =>
            destruct (IH a p s Hrest)
              as (level & ps & st' & Hrun & Hle & Hall & Hone & Hreq & Hframe)
        end.
        exists level, ps, st'. split; [exact Hrun|].
        rewrite accessMin_rank in Hle.
        split; [lia|].
        split; [|split; [|split; [|exact Hframe]]].
        -- intros x access' [<-|Hin] Helig Hx.
           ++ rewrite Haccess in Hx. injection Hx as <-. lia.
           ++ eapply Hall; eassumption.
        -- destruct Hone as [Hsame|(x & Hin & Helig & Hx)].
           ++ destruct (accessMin_either accessLevel access) as [Hmin|Hmin];
                rewrite Hmin in Hsame; [left; exact Hsame|].
              right. exists var. split; [left; reflexivity|].
              split; [|rewrite Hsame; exact Haccess].
              unfold memberwiseEligible, hasInlineInitializer.
              rewrite Himp, Hconst. reflexivity.
           ++ right. exists x. repeat split; auto. right. exact Hin.
        -- rewrite Hreq. cbn [stRequests]. rewrite <- app_assoc. reflexivity.
Qed.

(** X8.  The implicit initializer of a type is never more accessible than
    the type, never more than internal unless the type is imported, and (for
    a memberwise initializer) never more accessible than a property that
    gets a parameter; its level is one of those.  It is named after its own
    argument labels and carries an [override] attribute exactly for a class
    with a superclass.  A memberwise initializer validates every
    non-implicit stored property before it is queued for type checking; a
    default initializer validates nothing and only queues its own type
    check.  Neither is added to the members of the type, and the
    initializer is registered as an external declaration exactly when the
    type is imported. *)
Theorem implicit_constructor_access :
  forall assertionsEnabled tc decl storedProperties ICK st,
    (ICK = Memberwise -> ntdKind decl = StructDecl) ->
    Forall accessComputed storedProperties ->
    exists ctor st' level,
      createImplicitConstructor assertionsEnabled tc decl storedProperties
        ICK st = Done (ctor, st') /\
      cdAccessibility ctor = Some level /\
      accessRank level <= accessRank (ntdFormalAccess decl) /\
      (ntdHasClangNode decl = false ->
       accessRank level <= accessRank Internal) /\
      (ICK = Memberwise ->
       forall var access,
         In var storedProperties -> memberwiseEligible var = true ->
         sdAccessibility var = Some access ->
         accessRank level <= accessRank access) /\
      (level = ntdFormalAccess decl \/
       (ntdHasClangNode decl = false /\ level = Internal) \/
       (ICK = Memberwise /\
        exists var, In var storedProperties /\ memberwiseEligible var = true /\
                    sdAccessibility var = Some level)) /\
      cdFullName ctor = CompoundName "init" (map pdArgumentName (cdParams ctor)) /\
      (ICK = Default -> cdParams ctor = []) /\
      hasAttribute OverrideAttr (cdAttrs ctor)
      = match ntdKind decl with
        | ClassDecl => ntdHasSuperclass decl
        | _ => false
        end /\
      cdID ctor = stNextID st /\
      stNextID st' = S (stNextID st) /\
      stDiags st' = stDiags st /\
      stMembers st' = stMembers st /\
      stRequests st'
      = stRequests st
        ++ (match ICK with
            | Memberwise =>
                map (fun var => ReqValidateDecl (sdID (sdInfo var)))
                  (filter (fun var => negb (sdIsImplicit var)) storedProperties)
            | Default => []
            end)
        ++ [ReqTypeCheckDecl (stNextID st) true] /\
      stExternalDecls st'
      = stExternalDecls st
        ++ (if ntdHasClangNode decl then [stNextID st] else []).
Proof.
  intros ae tc decl props ICK st Hkind Hacc.
  set (start := if negb (ntdHasClangNode decl)
                then accessMin (ntdFormalAccess decl) Internal
                else ntdFormalAccess decl).
  assert (Hstart : accessRank start <= accessRank (ntdFormalAccess decl) /\
                   (ntdHasClangNode decl = false ->
                    accessRank start <= accessRank Internal) /\
                   (start = ntdFormalAccess decl \/
                    (ntdHasClangNode decl = false /\ start = Internal))).
  { unfold start. destruct (ntdHasClangNode decl); cbn [negb].
    - repeat split; auto. discriminate.
    - rewrite accessMin_rank.
      split; [lia|]. split; [intros _; lia|].
      destruct (accessMin_either (ntdFormalAccess decl) Internal) as [H|H];
        rewrite H; auto. }
  destruct Hstart as (Hle0 & Hint0 & Hone0).
  unfold createImplicitConstructor. fold start.
  destruct ICK.
  - unfold ConstructorDecl_new. run_sema.
    destruct (ntdKind decl), (ntdHasSuperclass decl), (ntdHasClangNode decl);
      (eexists; eexists; exists start; split; [reflexivity|]);
      cbn; rewrite ?app_nil_r;
      (split; [reflexivity|]); (split; [exact Hle0|]);
      (split; [exact Hint0|]); (split; [discriminate|]);
      (split; [destruct Hone0 as [H|H]; auto|]);
      repeat split; reflexivity.
  - rewrite (Hkind eq_refl).
    unfold bind at 1. unfold bind at 1.
    assert (Hassert : forall s, assert_ ae true
              "Only struct have memberwise constructor" s = Done (tt, s)).
    { intros s. unfold assert_. simpl. rewrite andb_false_r. reflexivity. }
    rewrite Hassert.
    destruct (memberwiseParams_access tc props start [] st Hacc)
      as (level & ps & st1 & Hrun & Hle & Hall & Hone & Hreq & Hd & He & Hm & Hn).
    rewrite Hrun. unfold ConstructorDecl_new. run_sema.
    destruct (ntdHasClangNode decl) eqn:Hclang;
      (eexists; eexists; exists level; split; [reflexivity|]);
      cbn; rewrite ?app_nil_r, ?Hreq, ?Hd, ?He, ?Hm, ?Hn, <- ?app_assoc;
      (split; [reflexivity|]); (split; [lia|]);
      (split; [intros H; try discriminate H; specialize (Hint0 H);
               change (accessRank Internal) with 1 in Hint0; lia|]);
      (split; [intros _; exact Hall|]);
      (split;
       [destruct Hone as [->|Hvar];
        [destruct Hone0 as [H|H]; auto|right; right; split; [reflexivity|exact Hvar]]
       |]);
      (split; [reflexivity|]); (split; [discriminate|]);
      repeat split; reflexivity.
Qed.

Lemma implicit_constructor_access_witness :
  exists ctor st',
    createImplicitConstructor true fullTC structPoint pointProperties
      Memberwise emptyState = Done (ctor, st') /\
    exists level, cdAccessibility ctor = Some level /\
                  accessRank level <= accessRank Internal.
Proof.
  assert (Hacc : Forall accessComputed pointProperties).
  { repeat constructor; discriminate. }
  destruct (implicit_constructor_access true fullTC structPoint
              pointProperties Memberwise emptyState (fun _ => eq_refl) Hacc)
    as (ctor & st' & level & Hrun & Hlevel & _ & Hinternal & _).
  exists ctor, st'. split; [exact Hrun|].
  exists level. split; [exact Hlevel|]. apply Hinternal. reflexivity.
Defined.

(** X9.  A memberwise initializer is for structs only: asked for another
    kind of type, a checked build stops at the assertion before anything is
    created, while an unchecked build goes on and returns an initializer
    marked memberwise (with an [override] attribute if the type is a class
    with a superclass). *)
Theorem memberwise_initializer_requires_struct :
  forall tc decl storedProperties st,
    ntdKind decl <> StructDecl ->
    Forall accessComputed storedProperties ->
    createImplicitConstructor true tc decl storedProperties Memberwise st
    = Aborted "Only struct have memberwise constructor" /\
    exists ctor st',
      createImplicitConstructor false tc decl storedProperties Memberwise st
      = Done (ctor, st') /\
      cdIsMemberwiseInitializer ctor = true /\
      cdDeclContext ctor = decl /\
      hasAttribute OverrideAttr (cdAttrs ctor)
      = match ntdKind decl with
        | ClassDecl => ntdHasSuperclass decl
        | _ => false
        end.
Proof.
  intros tc decl props st Hkind Hacc. split.
  - unfold createImplicitConstructor, assert_.
    destruct (ntdKind decl); try congruence; reflexivity.
  - unfold createImplicitConstructor, assert_. cbn [andb].
    unfold bind at 1. unfold bind at 1. unfold ret at 1.
    match goal with
    | |- context [memberwiseParams tc props ?a [] st] =>
        destruct (memberwiseParams_access tc props a [] st Hacc)
          as (level & ps & st1 & Hrun & _)
    end.
    rewrite Hrun. unfold ConstructorDecl_new. run_sema.
    destruct (ntdKind decl), (ntdHasSuperclass decl), (ntdHasClangNode decl);
      try congruence;
      (eexists; eexists; split; [reflexivity|]); repeat split.
Qed.

Lemma memberwise_initializer_requires_struct_witness :
  createImplicitConstructor true fullTC classBase [] Memberwise emptyState
  = Aborted "Only struct have memberwise constructor".
Proof.
  apply (memberwise_initializer_requires_struct fullTC classBase [] emptyState).
  - discriminate.
  - constructor.
Defined.

(** ** Accessors of a witness *)

Lemma synthesizeWitnessAccessors_adds :
  forall assertionsEnabled TC storage setter st,
    sdSetter storage = Some setter ->
    runsTo
      (bind (addMaterializeForSet assertionsEnabled TC storage)
         (fun ms =>
            let '(materializeForSet, storage) := ms in
            bind (synthesizeMaterializeForSet materializeForSet storage)
              (fun materializeForSet =>
                 bind (typeCheckDecl (fnID materializeForSet) false)
                   (fun _ =>
                      ret (sdSetMaterializeForSetFunc storage
                             (Some materializeForSet)))))) st
      (fun storage' st' =>
         (exists m,
             storage' = sdSetMaterializeForSetFunc storage (Some m) /\
             fnAccessorKind m = IsMaterializeForSet /\
             fnID m = stNextID st /\ fnBody m = None) /\
         stNextID st' = S (stNextID st) /\ stDiags st' = stDiags st).
Proof.
  intros ae TC storage setter st Hsetter.
  eapply runsTo_bind;
    [apply (addMaterializeForSet_spec ae TC storage setter st Hsetter)|].
  intros [m s1] st1 (Hid & Hd & Hk & HmID & Hbody & Hs).
  cbn [fst snd] in *. subst s1.
  eapply runsTo_bind; [apply synthesizeMaterializeForSet_spec|].
  intros m' st2 (Hid2 & Hd2 & (HsID & HsK & _ & _) & Hb2).
  eapply runsTo_bind; [apply runsTo_typeCheckDecl|].
  intros _ st3 [Hid3 Hd3]. apply runsTo_ret.
  unfold allocatesOne, allocatesNothing in *.
  split; [|split; congruence].
  exists m'. repeat split; congruence.
Qed.

(** X10.  For a witness that already has accessors and a setter,
    [synthesizeWitnessAccessorsForStorage] adds a materializeForSet exactly
    when the requirement is settable, is not ObjC, and the witness has none
    yet; the getter, the setter and the storage kind are left as they are,
    nothing is diagnosed, and a second call changes nothing. *)
Theorem witness_accessors_materializeForSet :
  forall assertionsEnabled TC requirement storage setter st,
    hasAccessorFunctions storage = true ->
    sdSetter storage = Some setter ->
    exists storage' st',
      synthesizeWitnessAccessorsForStorage assertionsEnabled TC requirement
        storage st = Done (storage', st') /\
      (if negb (sdIsObjC (sdInfo requirement)) && hasSetter requirement
          && negb (hasMaterializeForSet storage)
       then
         (exists m,
             sdMaterializeForSetFunc storage' = Some m /\
             fnAccessorKind m = IsMaterializeForSet /\
             fnID m = stNextID st /\ fnBody m = None) /\
         stNextID st' = S (stNextID st)
       else storage' = storage /\ st' = st) /\
      sdGetter storage' = sdGetter storage /\
      sdSetter storage' = sdSetter storage /\
      sdStorageKind storage' = sdStorageKind storage /\
      stDiags st' = stDiags st /\
      synthesizeWitnessAccessorsForStorage assertionsEnabled TC requirement
        storage' st' = Done (storage', st').
Proof.
  intros ae TC requirement storage setter st Hacc Hsetter.
  assert (Hdone :
    forall s,
      hasAccessorFunctions s = true ->
      negb (sdIsObjC (sdInfo requirement)) && hasSetter requirement
      && negb (hasMaterializeForSet s) = false ->
      forall st0,
        synthesizeWitnessAccessorsForStorage ae TC requirement s st0
        = Done (s, st0)).
  { intros s Hs Hcond st0. unfold synthesizeWitnessAccessorsForStorage.
    rewrite Hs. cbn [negb].
    unfold hasSetter, hasMaterializeForSet in Hcond.
    destruct (sdMaterializeForSetFunc s); cbn [negb] in Hcond;
      rewrite ?andb_false_r in *; [reflexivity|].
    rewrite andb_true_r in Hcond. rewrite Hcond. reflexivity. }
  destruct (negb (sdIsObjC (sdInfo requirement)) && hasSetter requirement
            && negb (hasMaterializeForSet storage)) eqn:Hcond.
  - destruct (synthesizeWitnessAccessors_adds ae TC storage setter st Hsetter)
      as (storage' & st' & Hrun & (m & -> & Hk & Hid & Hbody) & Hnext & Hdiags).
    exists (sdSetMaterializeForSetFunc storage (Some m)), st'.
    split.
    { unfold synthesizeWitnessAccessorsForStorage. rewrite Hacc. cbn [negb].
      unfold hasSetter, hasMaterializeForSet in Hcond.
      destruct (sdMaterializeForSetFunc storage); cbn [negb] in Hcond;
        rewrite ?andb_false_r in Hcond; [discriminate|].
      rewrite andb_true_r in *. rewrite Hcond. exact Hrun. }
    split.
    { split; [|exact Hnext]. exists m. repeat split; assumption. }
    split; [reflexivity|]. split; [reflexivity|]. split; [reflexivity|].
    split; [exact Hdiags|].
    apply Hdone; [exact Hacc|].
    unfold hasMaterializeForSet. cbn. apply andb_false_r.
  - exists storage, st.
    split; [apply Hdone; assumption|].
    split; [split; reflexivity|].
    repeat split. apply Hdone; assumption.
Qed.

Lemma witness_accessors_materializeForSet_witness :
  exists storage' st',
    synthesizeWitnessAccessorsForStorage true fullTC computedInStruct
      computedInStruct emptyState = Done (storage', st') /\
    hasMaterializeForSet storage' = true /\
    synthesizeWitnessAccessorsForStorage true fullTC computedInStruct
      storage' st' = Done (storage', st').
Proof.
  destruct (sdSetter computedInStruct) as [setter|] eqn:Hsetter;
    [|discriminate].
  destruct (witness_accessors_materializeForSet true fullTC computedInStruct
              computedInStruct setter emptyState eq_refl Hsetter)
    as (storage' & st' & Hrun & Hadded & _ & _ & _ & _ & Hagain).
  exists storage', st'. split; [exact Hrun|]. split; [|exact Hagain].
  cbn in Hadded. destruct Hadded as [(m & Hm & _) _].
  unfold hasMaterializeForSet. rewrite Hm. reflexivity.
Defined.

(** ** The setter of mutable addressed storage *)

(** X11.  For a property with a mutable addressor whose setter has no body
    yet, [synthesizeSetterForMutableAddressedStorage] fills in the setter:
    its body is the one direct store of the first parameter (copied first
    for an NSCopying property), or stays empty if the property is invalid.
    Nothing is created; the getter, the storage kind and the
    materializeForSet slot are left as they are. *)
Theorem addressed_setter_synthesis :
  forall assertionsEnabled TC storage setter valueDecl st,
    sdStorageKind storage = ComputedWithMutableAddress ->
    sdSetter storage = Some setter ->
    fnBody setter = None ->
    isPropertyOverProperty storage = true ->
    nth_error (last (fnParameterLists setter) []) 0 = Some valueDecl ->
    exists storage' st' setter',
      synthesizeSetterForMutableAddressedStorage assertionsEnabled TC storage st
      = Done (storage', st') /\
      sdSetter storage' = Some setter' /\
      sameAccessor setter setter' /\
      fnBody setter'
      = (if sdIsInvalid (sdInfo storage) then None
         else Some [NodeExpr
                      (AssignExpr
                         (propertyReference setter storage DirectToStorage)
                         (storedValue TC
                            (DeclRefExpr (VRParam valueDecl) Ordinary)
                            storage))]) /\
      sdGetter storage' = sdGetter storage /\
      sdMaterializeForSetFunc storage' = sdMaterializeForSetFunc storage /\
      sdStorageKind storage' = ComputedWithMutableAddress /\
      stNextID st' = stNextID st.
Proof.
  intros ae TC storage setter valueDecl st Hkind Hsetter Hbody Hprop Hvalue.
  assert (Hset :
    runsTo (synthesizeTrivialSetter ae TC setter storage valueDecl) st
      (fun setter' st' =>
         allocatesNothing st st' /\ sameAccessor setter setter' /\
         fnBody setter'
         = (if sdIsInvalid (sdInfo storage) then None
            else Some [NodeExpr
                         (AssignExpr
                            (propertyReference setter storage DirectToStorage)
                            (storedValue TC
                               (DeclRefExpr (VRParam valueDecl) Ordinary)
                               storage))]))).
  { destruct (sdIsInvalid (sdInfo storage)) eqn:Hinvalid.
    - unfold synthesizeTrivialSetter. rewrite Hinvalid. apply runsTo_ret.
      split; [reflexivity|]. split; [apply sameAccessor_refl|exact Hbody].
    - eapply runsTo_weaken;
        [apply (synthesizeTrivialSetter_property ae TC setter storage
                  valueDecl st Hprop)|].
      intros setter' st' (Hid & Hsame & Hstore).
      split; [exact Hid|]. split; [exact Hsame|]. apply Hstore.
      exact Hinvalid. }
  assert (Hrun :
    runsTo (synthesizeSetterForMutableAddressedStorage ae TC storage) st
      (fun storage' st' =>
         exists setter',
           storage' = sdSetSetter storage (Some setter') /\
           sameAccessor setter setter' /\
           fnBody setter'
           = (if sdIsInvalid (sdInfo storage) then None
              else Some [NodeExpr
                           (AssignExpr
                              (propertyReference setter storage DirectToStorage)
                              (storedValue TC
                                 (DeclRefExpr (VRParam valueDecl) Ordinary)
                                 storage))]) /\
           stNextID st' = stNextID st)).
  { unfold synthesizeSetterForMutableAddressedStorage.
    rewrite Hsetter, Hbody, Hkind.
    eapply runsTo_bind with (R := fun _ st1 => st1 = st);
      [apply runsTo_assert_true; reflexivity|].
    intros _ st0 ->.
    eapply runsTo_bind with (R := fun _ st1 => st1 = st);
      [apply runsTo_assert_true; reflexivity|].
    intros _ st0 ->.
    eapply runsTo_bind with (R := fun _ st1 => st1 = st);
      [apply runsTo_assert_true; reflexivity|].
    intros _ st0 ->.
    eapply runsTo_bind with (R := fun p st1 => p = valueDecl /\ st1 = st).
    { unfold getFirstParamDecl, getParamDeclAtIndex. rewrite Hvalue.
      apply runsTo_ret. split; reflexivity. }
    intros p st0 [-> ->].
    eapply runsTo_bind; [exact Hset|].
    intros setter' st1 (Hid1 & Hsame & Hstore).
    eapply runsTo_bind; [apply runsTo_typeCheckDecl|].
    intros _ st2 [Hid2 _].
    eapply runsTo_bind; [apply runsTo_typeCheckDecl|].
    intros _ st3 [Hid3 _]. apply runsTo_ret.
    exists setter'. unfold allocatesNothing in *.
    repeat split; try assumption; try apply Hsame. congruence. }
  destruct Hrun as (storage' & st' & Hrun & setter' & -> & Hsame & Hstore & Hid).
  exists (sdSetSetter storage (Some setter')), st', setter'.
  split; [exact Hrun|]. split; [reflexivity|]. split; [exact Hsame|].
  split; [exact Hstore|]. repeat split; try assumption.
Qed.

Definition addressedCell : AbstractStorageDecl :=
  withAccessors ComputedWithMutableAddress
    (plainVar 48 "cell" (NominalDC structPoint) false [] None).

Lemma addressed_setter_synthesis_witness :
  exists storage' st' setter',
    synthesizeSetterForMutableAddressedStorage true fullTC addressedCell
      emptyState = Done (storage', st') /\
    sdSetter storage' = Some setter' /\
    fnBody setter'
    = Some [NodeExpr
              (AssignExpr
                 (MemberRefExpr
                    (DeclRefExpr
                       (VRParam (createSelfParam (NominalDC structPoint) false))
                       Ordinary) 48 DirectToStorage)
                 (DeclRefExpr
                    (VRParam (buildLetArgument "value" (TyNominal "Int")))
                    Ordinary))].
Proof.
  destruct (addressed_setter_synthesis true fullTC addressedCell _ _
              emptyState eq_refl eq_refl eq_refl eq_refl eq_refl)
    as (storage' & st' & setter' & Hrun & Hsetter & _ & Hbody & _).
  exists storage', st', setter'.
  split; [exact Hrun|]. split; [exact Hsetter|]. exact Hbody.
Defined.

(** ** Synthesis only adds *)

(** X12.  Whenever an entry point of accessor or initializer synthesis
    completes, the state has only grown: no member of a type is removed or
    moved, no diagnostic, external definition, derived declaration or
    type-checking request is dropped or reordered, and no declaration
    identity is given back.  Diagnostics are added only by the store of an
    NSCopying property and by initializer overrides; every other entry
    point leaves the diagnostics as they are. *)
Theorem synthesis_only_adds :
  forall assertionsEnabled TC,
    (forall enclosingFile var,
        keeps (grows (negb (mayCopy var)))
          (maybeAddAccessorsToVariable assertionsEnabled TC enclosingFile var)) /\
    (forall storage,
        keeps (grows (negb (mayCopy storage)))
          (addTrivialAccessorsToStorage assertionsEnabled TC storage)) /\
    (forall VD,
        keeps (grows (negb (mayCopy VD)))
          (synthesizeObservingAccessors assertionsEnabled TC VD)) /\
    (forall requirement storage,
        keeps (grows (negb (mayCopy storage)))
          (synthesizeWitnessAccessorsForStorage assertionsEnabled TC
             requirement storage)) /\
    (forall storage,
        keeps (grows (negb (mayCopy storage)))
          (synthesizeSetterForMutableAddressedStorage assertionsEnabled TC
             storage)) /\
    (forall storage,
        keeps (grows true)
          (maybeAddMaterializeForSet assertionsEnabled TC storage)) /\
    (forall VD,
        keeps (grows true)
          (completeLazyVarImplementation assertionsEnabled TC VD)) /\
    (forall VD,
        keeps (grows true)
          (convertNSManagedStoredVarToComputed assertionsEnabled TC VD)) /\
    (forall VD,
        keeps (grows true) (convertStoredVarInProtocolToComputed TC VD)) /\
    (forall decl storedProperties ICK,
        keeps (grows true)
          (createImplicitConstructor assertionsEnabled TC decl
             storedProperties ICK)) /\
    (forall classDecl superclassCtor kind,
        keeps (grows false)
          (createDesignatedInitOverride TC classDecl superclassCtor kind)) /\
    (forall CD, keeps (grows true) (addImplicitDestructor CD)).
Proof.
  intros ae TC.
  assert (Hquiet : forall s, negb (mayCopy s) = true -> mayCopy s = false).
  { intros s H. apply negb_true_iff. exact H. }
  repeat match goal with |- _ /\ _ => split end; intros.
  - apply keeps_maybeAddAccessorsToVariable. apply Hquiet.
  - apply keeps_addTrivialAccessorsToStorage. apply Hquiet.
  - apply keeps_synthesizeObservingAccessors. apply Hquiet.
  - apply keeps_synthesizeWitnessAccessorsForStorage. apply Hquiet.
  - apply keeps_synthesizeSetterForMutableAddressedStorage. apply Hquiet.
  - apply keeps_maybeAddMaterializeForSet.
  - apply keeps_completeLazyVarImplementation.
  - apply keeps_convertNSManagedStoredVarToComputed.
  - apply keeps_convertStoredVarInProtocolToComputed.
  - apply keeps_createImplicitConstructor.
  - apply keeps_createDesignatedInitOverride.
  - apply keeps_addImplicitDestructor.
Qed.

Lemma synthesis_only_adds_witness :
  exists var' st',
    maybeAddAccessorsToVariable true fullTC None baseCount
      (mkState [] [] [20; 5] [] [] 100) = Done (var', st') /\
    Subsequence [20; 5] (stMembers st') /\
    stDiags st' = [].
Proof.
  assert (Hruns :
    exists var' st',
      maybeAddAccessorsToVariable true fullTC None baseCount
        (mkState [] [] [20; 5] [] [] 100) = Done (var', st')).
  { eexists. eexists. vm_compute. reflexivity. }
  destruct Hruns as (var' & st' & Hrun).
  exists var', st'. split; [exact Hrun|].
  destruct (synthesis_only_adds true fullTC) as (Hadds & _).
  destruct (Hadds None baseCount _ _ _ Hrun) as [_ Hq _ Hmembers _ _ _].
  split; [exact Hmembers|]. apply Hq. reflexivity.
Defined.

(** ** Index parameters, from prototype to reference *)

Lemma createMaterializeForSetPrototype_params :
  forall assertionsEnabled TC storage setter st,
    sdSetter storage = Some setter ->
    runsTo (createMaterializeForSetPrototype assertionsEnabled TC storage) st
      (fun m st' =>
         last (fnParameterLists m) []
         = [buildLetArgument "buffer" TyRawPointer;
            buildInOutArgument "callbackStorage" TyUnsafeValueBuffer]
           ++ storageIndices storage).
Proof.
  intros ae TC storage setter st Hsetter.
  unfold createMaterializeForSetPrototype.
  destruct (createMaterializeForSetReturnType_runs ae TC storage st)
    as (ty & Hty).
  eapply runsTo_bind with (R := fun _ st1 => st1 = st);
    [eapply runsTo_eq; [exact Hty|reflexivity]|].
  intros retTy st1 Hst1. subst st1.
  eapply runsTo_bind with
    (R := fun f st1 =>
            last (fnParameterLists f) []
            = [buildLetArgument "buffer" TyRawPointer;
               buildInOutArgument "callbackStorage" TyUnsafeValueBuffer]
              ++ storageIndices storage).
  { unfold FuncDecl_create. eapply runsTo_eq; [reflexivity|].
    cbn [fnParameterLists]. rewrite last_last.
    apply index_forwarding_param_list. }
  intros f st1 Hparams.
  rewrite Hsetter.
  eapply runsTo_bind; [apply runsTo_when_external|].
  intros _ st2 _. apply runsTo_ret.
  unfold makeFinalFunc.
  repeat match goal with
         | |- context [if ?b then _ else _] => destruct b
         end; simpl; exact Hparams.
Qed.

(** X13.  The prototypes of a storage entity and the index reference of an
    accessor body agree on the index parameters: stripping the value of a
    setter, or the buffer and the callback storage of a materializeForSet,
    from the prototype's parameters leaves the entity's own index
    parameters, so the three accessors forward the same indices.  With a
    variadic index all three fail alike: the assertion in checked builds, a
    null index expression otherwise.  The first parameter of the setter is
    its value parameter. *)
Theorem prototypes_forward_storage_indices :
  forall (assertionsEnabled : bool) TC storage st,
    let forwarded (st1 : SemaState) : Outcome (option Expr * SemaState) :=
      match buildArgumentForwardingExpr (storageIndices storage) with
      | Some e => Done (Some e, st1)
      | None => if assertionsEnabled
                then Aborted "FIXME: Cannot forward varargs"
                else Done (None, st1)
      end in
    (exists getter st1,
        createGetterPrototype TC storage st = Done (getter, st1) /\
        buildSubscriptIndexReference assertionsEnabled
          (fnSetAccessorKind getter IsGetter) st1 = forwarded st1) /\
    (exists setter value st1,
        createSetterPrototype TC storage st = Done ((setter, value), st1) /\
        getFirstParamDecl setter st1 = Done (value, st1) /\
        buildSubscriptIndexReference assertionsEnabled
          (fnSetAccessorKind setter IsSetter) st1 = forwarded st1 /\
        exists materializeForSet st2,
          createMaterializeForSetPrototype assertionsEnabled TC
            (sdSetSetter storage (Some (fnSetAccessorKind setter IsSetter))) st1
          = Done (materializeForSet, st2) /\
          buildSubscriptIndexReference assertionsEnabled
            (fnSetAccessorKind materializeForSet IsMaterializeForSet) st2
          = forwarded st2).
Proof.
  intros ae TC storage st forwarded. split.
  - destruct (createGetterPrototype_spec TC storage st)
      as (getter & st1 & Hrun & _ & _ & _ & _ & _ & Hparams).
    exists getter, st1. split; [exact Hrun|].
    apply (index_reference_strips_prefix ae _ [] (storageIndices storage));
      [exact Hparams|reflexivity].
  - destruct (createSetterPrototype_spec TC storage st)
      as ([setter value] & st1 & Hrun & _ & _ & _ & _ & _ & Hparams).
    cbn [fst snd] in Hparams.
    exists setter, value, st1. split; [exact Hrun|]. split.
    { unfold getFirstParamDecl, getParamDeclAtIndex. rewrite Hparams.
      reflexivity. }
    split.
    { apply (index_reference_strips_prefix ae _ [value]
               (storageIndices storage)); [exact Hparams|reflexivity]. }
    destruct (createMaterializeForSetPrototype_params ae TC
                (sdSetSetter storage (Some (fnSetAccessorKind setter IsSetter)))
                (fnSetAccessorKind setter IsSetter) st1 eq_refl)
      as (m & st2 & Hm & HmParams).
    exists m, st2. split; [exact Hm|].
    apply (index_reference_strips_prefix ae _
             [buildLetArgument "buffer" TyRawPointer;
              buildInOutArgument "callbackStorage" TyUnsafeValueBuffer]
             (storageIndices storage)); [exact HmParams|reflexivity].
Qed.

(** ** What a completed step returns *)

(** [yields Q m]: whenever the step [m] completes, its result satisfies
    [Q]. *)
Definition yields {A} (Q : A -> Prop) (m : Sema A) : Prop :=
  forall st a st', m st = Done (a, st') -> Q a.

Lemma yields_ret : forall A (Q : A -> Prop) a, Q a -> yields Q (ret a).
Proof.
  intros A Q a HQ st a' st' H. unfold ret in H. injection H as <- _. exact HQ.
Qed.

Lemma yields_abort : forall A (Q : A -> Prop) msg, yields Q (@abort A msg).
Proof. intros A Q msg st a st' H. discriminate H. Qed.

Lemma yields_bind :
  forall A B (R : A -> Prop) (Q : B -> Prop) (m : Sema A) (k : A -> Sema B),
    yields R m -> (forall a, R a -> yields Q (k a)) -> yields Q (bind m k).
Proof.
  intros A B R Q m k Hm Hk st b st' H. unfold bind in H.
  destruct (m st) as [[a st1]|msg] eqn:Hrun; [|discriminate H].
  eapply Hk; [eapply Hm; exact Hrun|exact H].
Qed.

Lemma yields_then :
  forall A B (Q : B -> Prop) (m : Sema A) (k : A -> Sema B),
    (forall a, yields Q (k a)) -> yields Q (bind m k).
Proof.
  intros A B Q m k Hk.
  apply yields_bind with (R := fun _ => True); [intros st a st' _; exact I|].
  intros a _. apply Hk.
Qed.

Lemma bind_Done_inv :
  forall A B (m : Sema A) (k : A -> Sema B) st b st',
    bind m k st = Done (b, st') ->
    exists a st1, m st = Done (a, st1) /\ k a st1 = Done (b, st').
Proof.
  intros A B m k st b st' H. unfold bind in H.
  destruct (m st) as [[a st1]|msg]; [|discriminate H].
  exists a, st1. split; [reflexivity|exact H].
Qed.

Lemma assert_Done_inv :
  forall assertionsEnabled cond msg st u st',
    assert_ assertionsEnabled cond msg st = Done (u, st') -> st' = st.
Proof.
  intros ae cond msg st u st' H. unfold assert_ in H.
  destruct (ae && negb cond); [discriminate H|].
  unfold ret in H. injection H as _ <-. reflexivity.
Qed.

(** One step of a proof that a routine yields a result with a property
    that the last [ret] shows. *)
Ltac yields_step :=
  match goal with
  | |- yields _ (bind _ _) => apply yields_then; intros ?
  | |- yields _ (ret _) => apply yields_ret
  | |- yields _ (abort _) => apply yields_abort
  | |- yields _ (unreachable _) => apply yields_abort
  | |- yields _ (let _ := _ in _) => cbv zeta
  | |- yields _ (match ?x with _ => _ end) => destruct x
  end.

Definition hasGetter (s : AbstractStorageDecl) : bool :=
  match sdGetter s with Some _ => true | None => false end.

Lemma yields_addMaterializeForSet :
  forall assertionsEnabled TC storage,
    yields (fun ms => sdGetter (snd ms) = sdGetter storage)
      (addMaterializeForSet assertionsEnabled TC storage).
Proof.
  intros ae TC storage. unfold addMaterializeForSet.
  repeat yields_step; reflexivity.
Qed.

Lemma yields_addTrivialAccessorsToStorage :
  forall assertionsEnabled TC storage,
    yields (fun storage' => hasGetter storage' = true)
      (addTrivialAccessorsToStorage assertionsEnabled TC storage).
Proof.
  intros ae TC storage. unfold addTrivialAccessorsToStorage.
  do 7 yields_step.
  apply yields_bind with (R := fun s => hasGetter s = true).
  { repeat yields_step; reflexivity. }
  intros s Hs. yields_step.
  destruct (sdSetter s); [|apply yields_ret; exact Hs].
  yields_step.
  destruct (isNominalTypeOrNominalTypeExtensionContext _);
    [|apply yields_ret; exact Hs].
  eapply yields_bind; [apply yields_addMaterializeForSet|].
  intros [m s'] Hs'. cbn [snd] in Hs'.
  repeat yields_step. unfold hasGetter in *. cbn. rewrite Hs'. exact Hs.
Qed.

Lemma yields_convertNSManagedStoredVarToComputed :
  forall assertionsEnabled TC VD,
    yields (fun VD' => hasGetter VD' = true)
      (convertNSManagedStoredVarToComputed assertionsEnabled TC VD).
Proof.
  intros ae TC VD. unfold convertNSManagedStoredVarToComputed.
  repeat yields_step; reflexivity.
Qed.

(** ** Accessors of a variable, on demand *)

(** X14.  [maybeAddAccessorsToVariable] is idempotent and restores its
    guard: whenever it completes, either it has changed nothing, or the
    variable now has a getter; the being-type-checked flag is as it was;
    and a second call, on the result, changes nothing. *)
Theorem maybeAddAccessorsToVariable_idempotent :
  forall assertionsEnabled TC enclosingFile var st var' st',
    maybeAddAccessorsToVariable assertionsEnabled TC enclosingFile var st
    = Done (var', st') ->
    maybeAddAccessorsToVariable assertionsEnabled TC enclosingFile var' st'
    = Done (var', st') /\
    ((var' = var /\ st' = st) \/ (hasGetter var = false /\ hasGetter var' = true)) /\
    sdIsBeingTypeChecked var' = sdIsBeingTypeChecked var.
Proof.
  intros ae TC ef var st var' st' H.
  assert (Hcases :
    (var' = var /\ st' = st) \/
    (hasGetter var = false /\ sdIsBeingTypeChecked var = false /\
     hasGetter var' = true /\ sdIsBeingTypeChecked var' = false)).
  { pose proof H as Hrun. unfold maybeAddAccessorsToVariable in Hrun.
    fold (hasGetter var) in Hrun.
    destruct (hasGetter var || sdIsBeingTypeChecked var) eqn:Hguard;
      [left; unfold ret in Hrun; injection Hrun as -> ->; split; reflexivity|].
    apply orb_false_iff in Hguard as [Hget Hbusy].
    destruct (isLocalContext (sdDeclContext (sdInfo var)));
      [left; unfold ret in Hrun; injection Hrun as -> ->; split; reflexivity|].
    apply bind_Done_inv in Hrun as (u & st1 & Hassert & Hrun).
    apply assert_Done_inv in Hassert. subst st1.
    assert (Hwork :
      forall m : Sema AbstractStorageDecl,
        yields (fun v => hasGetter v = true /\ sdIsBeingTypeChecked v = false) m ->
        m st = Done (var', st') ->
        (var' = var /\ st' = st) \/
        (hasGetter var = false /\ sdIsBeingTypeChecked var = false /\
         hasGetter var' = true /\ sdIsBeingTypeChecked var' = false)).
    { intros m Hm Hdone. right. destruct (Hm _ _ _ Hdone) as [Hg Hb].
      repeat split; assumption. }
    assert (Htrivial :
      yields (fun v => hasGetter v = true /\ sdIsBeingTypeChecked v = false)
        (bind (addTrivialAccessorsToStorage ae TC
                 (sdSetIsBeingTypeChecked var true))
           (fun v => ret (sdSetIsBeingTypeChecked v false)))).
    { eapply yields_bind; [apply yields_addTrivialAccessorsToStorage|].
      intros v Hv. apply yields_ret. split; [exact Hv|reflexivity]. }
    destruct (hasAttribute LazyAttr (sdAttrs var)).
    { revert Hrun. apply Hwork. repeat yields_step. split; reflexivity. }
    destruct (sdIsImplicit var);
      [left; unfold ret in Hrun; injection Hrun as -> ->; split; reflexivity|].
    destruct (isNominalTypeOrNominalTypeExtensionContext
                (sdDeclContext (sdInfo var))) as [nominal|].
    - destruct (ntdKind nominal).
      + destruct (ntdHasClangNode nominal);
          [left; unfold ret in Hrun; injection Hrun as -> ->; split; reflexivity|].
        destruct (getParentSourceFile ef (sdDeclContext (sdInfo var)))
          as [[]|];
          first [ left; unfold ret in Hrun; injection Hrun as -> ->;
                  split; reflexivity
                | revert Hrun; apply Hwork; exact Htrivial ].
      + destruct (hasAttribute NSManagedAttr (sdAttrs var)).
        * revert Hrun. apply Hwork.
          eapply yields_bind;
            [apply yields_convertNSManagedStoredVarToComputed|].
          intros v Hv. apply yields_ret. split; [exact Hv|reflexivity].
        * destruct (getParentSourceFile ef (sdDeclContext (sdInfo var)))
            as [[]|];
            first [ left; unfold ret in Hrun; injection Hrun as -> ->;
                    split; reflexivity
                  | revert Hrun; apply Hwork; exact Htrivial ].
      + destruct (getParentSourceFile ef (sdDeclContext (sdInfo var)))
          as [[]|];
          first [ left; unfold ret in Hrun; injection Hrun as -> ->;
                  split; reflexivity
                | revert Hrun; apply Hwork; exact Htrivial ].
      + left. unfold ret in Hrun. injection Hrun as -> ->. split; reflexivity.
    - destruct (sdHasFixedLayout (sdInfo var));
        [left; unfold ret in Hrun; injection Hrun as -> ->; split; reflexivity|].
      destruct (getParentSourceFile ef (sdDeclContext (sdInfo var)))
        as [[]|];
        first [ left; unfold ret in Hrun; injection Hrun as -> ->;
                split; reflexivity
              | revert Hrun; apply Hwork; exact Htrivial ]. }
  destruct Hcases as [[-> ->]|(Hget & Hbusy & Hget' & Hbusy')].
  - split; [exact H|]. split; [left; split; reflexivity|reflexivity].
  - split; [|split; [right; split; assumption|congruence]].
    unfold maybeAddAccessorsToVariable. fold (hasGetter var').
    rewrite Hget'. reflexivity.
Qed.

Lemma maybeAddAccessorsToVariable_idempotent_witness :
  exists var' st',
    maybeAddAccessorsToVariable true fullTC None baseCount emptyState
    = Done (var', st') /\
    maybeAddAccessorsToVariable true fullTC None var' st' = Done (var', st') /\
    stNextID st' = 103.
Proof.
  assert (Hruns :
    exists var' st',
      maybeAddAccessorsToVariable true fullTC None baseCount emptyState
      = Done (var', st') /\ stNextID st' = 103).
  { eexists. eexists. vm_compute. split; reflexivity. }
  destruct Hruns as (var' & st' & Hrun & Hids).
  exists var', st'. split; [exact Hrun|]. split; [|exact Hids].
  apply (maybeAddAccessorsToVariable_idempotent true fullTC None baseCount
           emptyState var' st' Hrun).
Defined.

(** ** A lazy property, from declaration to accessors *)

(** What [maybeAddAccessorsToVariable] leaves of a lazy property: a
    computed property with a getter and a setter that have no body yet. *)
Lemma maybeAddAccessorsToVariable_lazy :
  forall assertionsEnabled TC enclosingFile var access st,
    hasAttribute LazyAttr (sdAttrs var) = true ->
    sdStorageKind var = Stored ->
    sdDeclKind (sdInfo var) = IsVarDecl ->
    sdGetter var = None ->
    sdIsBeingTypeChecked var = false ->
    isTypeContext (sdDeclContext (sdInfo var)) = true ->
    sdAccessibility var = Some access ->
    runsTo (maybeAddAccessorsToVariable assertionsEnabled TC enclosingFile var)
      st
      (fun var1 st1 =>
         exists getter setter value,
           var1
           = sdSetIsBeingTypeChecked
               (makeComputed (sdSetIsBeingTypeChecked var true) getter
                  (Some setter) None) false /\
           fnID getter = stNextID st /\ fnID setter = S (stNextID st) /\
           fnBody getter = None /\ fnBody setter = None /\
           fnAccessibility getter = Some access /\
           (isClassOrClassExtensionContext (sdDeclContext (sdInfo var)) = false ->
            fnIsMutating getter = true) /\
           last (fnParameterLists setter) [] = [value] /\
           stNextID st1 = S (S (stNextID st)) /\
           stDiags st1 = stDiags st).
Proof.
  intros ae TC ef var access st Hlazy Hkind Hvar Hget Hbusy Hctx Haccess.
  unfold maybeAddAccessorsToVariable.
  rewrite Hget, Hbusy. cbn [orb].
  assert (Hlocal : isLocalContext (sdDeclContext (sdInfo var)) = false).
  { destruct (sdDeclContext (sdInfo var)); try discriminate Hctx; reflexivity. }
  rewrite Hlocal.
  eapply runsTo_bind with (R := fun _ st1 => st1 = st).
  { apply runsTo_assert_true; [|reflexivity].
    unfold hasAccessorFunctions. rewrite Hkind. reflexivity. }
  intros _ st0 ->. rewrite Hlazy.
  eapply runsTo_bind; [apply createGetterPrototype_spec|].
  intros getter st1 (Hid1 & Hd1 & HgID & HgBody & _ & _).
  unfold getFormalAccess. cbn [sdAccessibility sdSetIsBeingTypeChecked].
  rewrite Haccess.
  eapply runsTo_bind with (R := fun a st2 => a = access /\ st2 = st1);
    [apply runsTo_ret; split; reflexivity|].
  intros a st2 [-> ->].
  eapply runsTo_bind; [apply createSetterPrototype_spec|].
  intros [setter value] st2 (Hid2 & Hd2 & HsID & HsBody & _ & HsParams).
  cbn [fst snd] in *.
  eapply runsTo_bind; [apply runsTo_validateDecl|].
  intros _ st3 [Hid3 Hd3].
  eapply runsTo_bind; [apply runsTo_validateDecl|].
  intros _ st4 [Hid4 Hd4].
  eapply runsTo_bind; [apply runsTo_addMember|].
  intros _ st5 [Hid5 Hd5].
  eapply runsTo_bind; [apply runsTo_addMember|].
  intros _ st6 [Hid6 Hd6]. apply runsTo_ret.
  unfold allocatesOne, allocatesNothing in *.
  eexists. exists setter, value.
  split; [reflexivity|].
  cbn [sdInfo sdSetIsBeingTypeChecked sdDeclContext].
  split; [destruct (negb _); exact HgID|].
  split; [congruence|].
  split; [destruct (negb _); exact HgBody|].
  split; [exact HsBody|].
  split; [destruct (negb _); reflexivity|].
  split; [intros Hclass; rewrite Hclass; reflexivity|].
  split.
  { rewrite HsParams. unfold storageIndices.
    cbn [sdInfo sdSetIsBeingTypeChecked]. rewrite Hvar. reflexivity. }
  split; congruence.
Qed.

(** The hidden storage that [completeLazyVarImplementation] creates. *)
Lemma yields_completeLazyVarImplementation :
  forall assertionsEnabled TC VD,
    yields
      (fun vs =>
         let Storage := snd vs in
         sdName (sdInfo Storage) = (sdName (sdInfo VD) ++ ".storage")%string /\
         sdDeclContext (sdInfo Storage) = sdDeclContext (sdInfo VD) /\
         sdIsLet (sdInfo Storage) = false /\
         sdIsStatic (sdInfo Storage) = false /\
         sdStorageKind Storage = Stored /\
         sdUserAccessible Storage = false /\
         sdSetterAccessibility Storage = Some Private /\
         sdIsFinal Storage
         = isClassOrClassExtensionContext (sdDeclContext (sdInfo VD)))
      (completeLazyVarImplementation assertionsEnabled TC VD).
Proof.
  intros ae TC VD. unfold completeLazyVarImplementation.
  repeat yields_step.
  cbn [snd]. cbv zeta.
  destruct (isClassOrClassExtensionContext (sdDeclContext (sdInfo VD)));
    repeat split.
Qed.

(** X15.  A lazy stored property of a type goes through two steps.  The
    first makes it a computed property whose getter and setter have no body
    (the getter with the property's access level, and mutating outside
    classes).  The second creates the hidden storage, named after the
    property with the suffix [.storage], of the optional of its type,
    private, implicit, not user-accessible, final exactly in a class, and
    fills in the accessors: the getter caches the initializer in the hidden
    storage, the setter stores its parameter there directly, never a copy,
    whatever attributes the property has.  The property keeps no
    initializer, and neither step emits a diagnostic. *)
Theorem lazy_property_pipeline :
  forall assertionsEnabled TC enclosingFile var initializer access st,
    hasAttribute LazyAttr (sdAttrs var) = true ->
    sdStorageKind var = Stored ->
    sdDeclKind (sdInfo var) = IsVarDecl ->
    sdGetter var = None ->
    sdIsBeingTypeChecked var = false ->
    isTypeContext (sdDeclContext (sdInfo var)) = true ->
    sdIsStatic (sdInfo var) = false ->
    sdAccessibility var = Some access ->
    sdParentInitializer var = Some initializer ->
    exists var1 st1 var2 Storage st2 Get Set_ valueDecl,
      maybeAddAccessorsToVariable assertionsEnabled TC enclosingFile var st
      = Done (var1, st1) /\
      completeLazyVarImplementation assertionsEnabled TC var1 st1
      = Done ((var2, Storage), st2) /\
      (sdStorageKind var1 = Computed /\
       sdGetter var1 = Some Get /\ sdSetter var1 = Some Set_ /\
       sdMaterializeForSetFunc var1 = None /\
       fnID Get = stNextID st /\ fnID Set_ = S (stNextID st) /\
       fnBody Get = None /\ fnBody Set_ = None /\
       fnAccessibility Get = Some access /\
       (isClassOrClassExtensionContext (sdDeclContext (sdInfo var)) = false ->
        fnIsMutating Get = true) /\
       last (fnParameterLists Set_) [] = [valueDecl]) /\
      (sdID (sdInfo Storage) = S (S (stNextID st)) /\
       sdName (sdInfo Storage) = (sdName (sdInfo var) ++ ".storage")%string /\
       sdType (sdInfo Storage) = TyOptional (sdType (sdInfo var)) /\
       sdDeclContext (sdInfo Storage) = sdDeclContext (sdInfo var) /\
       sdIsLet (sdInfo Storage) = false /\
       sdIsStatic (sdInfo Storage) = false /\
       sdStorageKind Storage = Stored /\
       sdIsImplicit Storage = true /\
       sdUserAccessible Storage = false /\
       sdAccessibility Storage = Some Private /\
       sdSetterAccessibility Storage = Some Private /\
       sdIsFinal Storage
       = isClassOrClassExtensionContext (sdDeclContext (sdInfo var))) /\
      (sdParentInitializer var2 = None /\
       (exists Get',
           sdGetter var2 = Some Get' /\
           fnBody Get'
           = Some (lazyGetterBody
                     (backingReference Get (sdID (sdInfo Storage)))
                     (sdType (sdInfo var))
                     (recontextualizeClosures (ParentFunc (fnID Get))
                        initializer))) /\
       (exists Set',
           sdSetter var2 = Some Set' /\
           fnBody Set'
           = Some [NodeExpr
                     (AssignExpr
                        (backingReference Set_ (sdID (sdInfo Storage)))
                        (DeclRefExpr (VRParam valueDecl) Ordinary))])) /\
      stDiags st2 = stDiags st.
Proof.
  intros ae TC ef var initializer access st
    Hlazy Hkind Hvar Hget Hbusy Hctx Hstatic Haccess Hinit.
  destruct (maybeAddAccessorsToVariable_lazy ae TC ef var access st
              Hlazy Hkind Hvar Hget Hbusy Hctx Haccess)
    as (var1 & st1 & Hrun1 & getter & setter & value & Hvar1 & HgID & HsID
        & HgBody & HsBody & HgAccess & HgMut & HsParams & Hid1 & Hd1).
  set (Get := fnSetAccessorKind getter IsGetter).
  set (Set_ := fnSetAccessorKind setter IsSetter).
  assert (Hlazy1 : hasAttribute LazyAttr (sdAttrs var1) = true)
    by (subst var1; exact Hlazy).
  assert (Hkind1 : sdStorageKind var1 = Computed) by (subst var1; reflexivity).
  assert (Hstatic1 : sdIsStatic (sdInfo var1) = false)
    by (subst var1; exact Hstatic).
  assert (Hget1 : sdGetter var1 = Some Get) by (subst var1; reflexivity).
  assert (Hset1 : sdSetter var1 = Some Set_) by (subst var1; reflexivity).
  assert (Hvalue1 : nth_error (last (fnParameterLists Set_) []) 0 = Some value).
  { unfold Set_. cbn [fnParameterLists fnSetAccessorKind]. rewrite HsParams.
    reflexivity. }
  assert (Hinit1 : sdParentInitializer var1 = Some initializer)
    by (subst var1; exact Hinit).
  assert (Hty1 : sdType (sdInfo var1) = sdType (sdInfo var))
    by (subst var1; reflexivity).
  assert (Hname1 : sdName (sdInfo var1) = sdName (sdInfo var))
    by (subst var1; reflexivity).
  assert (Hdc1 : sdDeclContext (sdInfo var1) = sdDeclContext (sdInfo var))
    by (subst var1; reflexivity).
  assert (Hmat1 : sdMaterializeForSetFunc var1 = None)
    by (subst var1; reflexivity).
  assert (Hctx1 : isTypeContext (sdDeclContext (sdInfo var1)) = true)
    by (subst var1; exact Hctx).
  destruct (completeLazyVarImplementation_spec ae TC var1 Get Set_ value
              initializer st1 Hlazy1 Hkind1 Hstatic1 Hget1 Hset1 Hvalue1 Hinit1
              Hctx1)
    as ([var2 Storage] & st2 & Hrun2 & HsID2 & HsTy & HsAcc & HsImpl & Hnoinit
        & Hgetter & Hsetter).
  cbn [fst snd] in *.
  destruct (yields_completeLazyVarImplementation ae TC var1 _ _ _ Hrun2)
    as (Hname & Hdc & Hlet & Hst & Hstored & Huser & Hsacc & Hfinal).
  cbn [snd] in *.
  pose proof (grows_quiet _ _ _
                (keeps_completeLazyVarImplementation ae true TC var1 _ _ _ Hrun2)
                eq_refl) as Hd2.
  exists var1, st1, var2, Storage, st2, Get, Set_, value.
  split; [exact Hrun1|]. split; [exact Hrun2|].
  split.
  { unfold Get, Set_. cbn [fnID fnBody fnAccessibility fnIsMutating
                            fnParameterLists fnSetAccessorKind].
    repeat split; assumption. }
  split.
  { rewrite HsID2, Hid1, Hname, HsTy, Hdc, Hfinal, Hname1, Hty1, Hdc1.
    repeat split; assumption. }
  split.
  { split; [exact Hnoinit|].
    rewrite HsID2, <- Hty1. split; [exact Hgetter|exact Hsetter]. }
  congruence.
Qed.

Lemma lazy_property_pipeline_witness :
  exists var1 st1 var2 Storage st2,
    maybeAddAccessorsToVariable true fullTC None
      (sdSetParentInitializer
         (plainVar 44 "norm" (NominalDC structPoint) false
            [LazyAttr; NSCopyingAttr] None)
         (Some (UserExpr 2 []))) emptyState = Done (var1, st1) /\
    completeLazyVarImplementation true fullTC var1 st1
    = Done ((var2, Storage), st2) /\
    sdName (sdInfo Storage) = "norm.storage"%string /\
    sdIsFinal Storage = false /\
    stDiags st2 = [].
Proof.
  destruct (lazy_property_pipeline true fullTC None
              (sdSetParentInitializer
                 (plainVar 44 "norm" (NominalDC structPoint) false
                    [LazyAttr; NSCopyingAttr] None)
                 (Some (UserExpr 2 [])))
              (UserExpr 2 []) Internal emptyState
              eq_refl eq_refl eq_refl eq_refl eq_refl eq_refl eq_refl eq_refl
              eq_refl)
    as (var1 & st1 & var2 & Storage & st2 & Get & Set_ & value & Hrun1 & Hrun2
        & _ & (_ & Hname & _ & _ & _ & _ & _ & _ & _ & _ & _ & Hfinal) & _
        & Hdiags).
  exists var1, st1, var2, Storage, st2.
  split; [exact Hrun1|]. split; [exact Hrun2|].
  split; [exact Hname|]. split; [exact Hfinal|exact Hdiags].
Defined.

(** ** Observers *)

Lemma finalizeObserver_spec :
  forall VD VD0 observer,
    sdDeclContext (sdInfo VD0) = sdDeclContext (sdInfo VD) ->
    fnID (finalizeObserver VD0 observer) = fnID observer /\
    fnBody (finalizeObserver VD0 observer) = fnBody observer /\
    fnAccessorKind (finalizeObserver VD0 observer) = fnAccessorKind observer /\
    fnIsFinal (finalizeObserver VD0 observer)
    = fnIsFinal observer
      || isClassOrClassExtensionContext (sdDeclContext (sdInfo VD)).
Proof.
  intros VD VD0 observer Hdc. unfold finalizeObserver, makeFinalFunc.
  rewrite Hdc.
  destruct (fnIsFinal observer) eqn:Hfinal; cbn [negb andb orb].
  - repeat split. exact Hfinal.
  - destruct (isClassOrClassExtensionContext (sdDeclContext (sdInfo VD)));
      repeat split. exact Hfinal.
Qed.

(** What an observer slot holds after synthesis: the same observer, final
    now if it was or if the property lives in a class. *)
Definition observerFinalized (VD : AbstractStorageDecl)
    (before after : option FuncDecl) : Prop :=
  match before, after with
  | Some observer, Some observer' =>
      fnID observer' = fnID observer /\
      fnBody observer' = fnBody observer /\
      fnAccessorKind observer' = fnAccessorKind observer /\
      fnIsFinal observer'
      = fnIsFinal observer
        || isClassOrClassExtensionContext (sdDeclContext (sdInfo VD))
  | None, None => True
  | _, _ => False
  end.

(** X16.  Besides the setter body, [synthesizeObservingAccessors] gives the
    getter the one-statement body that returns the direct load of the
    property (through the superclass for an override), and leaves each
    observer in its slot, unchanged but for being final: an observer ends
    up final iff it was final already or the property lives in a class or
    a class extension.  Nothing is created and the storage kind stays. *)
Theorem observers_final_in_classes :
  forall assertionsEnabled TC VD Get Set_ ValueDecl st,
    hasObservers VD = true ->
    isPropertyOverProperty VD = true ->
    sdGetter VD = Some Get ->
    sdSetter VD = Some Set_ ->
    fnBody Get = None ->
    fnBody Set_ = None ->
    nth_error (last (fnParameterLists Set_) []) 0 = Some ValueDecl ->
    exists VD' st' Get',
      synthesizeObservingAccessors assertionsEnabled TC VD st = Done (VD', st') /\
      sdGetter VD' = Some Get' /\
      sameAccessor Get Get' /\
      fnBody Get'
      = Some [NodeReturnStmt (propertyReference Get VD DirectToStorage)] /\
      observerFinalized VD (sdWillSetFunc VD) (sdWillSetFunc VD') /\
      observerFinalized VD (sdDidSetFunc VD) (sdDidSetFunc VD') /\
      sdStorageKind VD' = sdStorageKind VD /\
      sdMaterializeForSetFunc VD' = sdMaterializeForSetFunc VD /\
      stNextID st' = stNextID st.
Proof.
  intros ae TC VD Get Set_ ValueDecl st Hobs Hprop Hget Hset HgetBody
         HsetBody Hvalue.
  assert (Hrun :
    runsTo (synthesizeObservingAccessors ae TC VD) st
      (fun VD' st' =>
         exists Get',
           sdGetter VD' = Some Get' /\
           sameAccessor Get Get' /\
           fnBody Get'
           = Some [NodeReturnStmt (propertyReference Get VD DirectToStorage)] /\
           observerFinalized VD (sdWillSetFunc VD) (sdWillSetFunc VD') /\
           observerFinalized VD (sdDidSetFunc VD) (sdDidSetFunc VD') /\
           sdStorageKind VD' = sdStorageKind VD /\
           sdMaterializeForSetFunc VD' = sdMaterializeForSetFunc VD /\
           stNextID st' = stNextID st)).
  { unfold synthesizeObservingAccessors.
    eapply runsTo_bind with (R := fun _ st1 => st1 = st).
    { apply runsTo_assert_true; [exact Hobs|reflexivity]. }
    intros _ st0 ->.
    eapply runsTo_bind with (R := fun _ st1 => st1 = st).
    { apply runsTo_assert_true; [|reflexivity].
      rewrite Hget, Hset, HgetBody, HsetBody. reflexivity. }
    intros _ st0 ->. rewrite Hget, Hset.
    eapply runsTo_bind;
      [apply (synthesizeTrivialGetter_property ae Get VD st Hprop)|].
    intros Get' st1 (Hid1 & _ & Hsame & Hbody).
    unfold getParamDeclAtIndex. rewrite Hvalue.
    eapply runsTo_bind with (R := fun p st2 => p = ValueDecl /\ st2 = st1).
    { apply runsTo_ret. split; reflexivity. }
    intros p st2 [-> ->].
    eapply runsTo_bind with (R := fun _ st2 => st2 = st1).
    { cbn [sdDidSetFunc sdSetGetter].
      destruct (sdDidSetFunc VD) as [didSet|].
      - unfold createPropertyLoadOrCallSuperclassGetter.
        eapply runsTo_bind with (R := fun _ st2 => st2 = st1).
        + eapply runsTo_eq; [apply buildStorageReference_property|].
          * exact Hprop.
          * reflexivity.
        + intros e st3 ->. apply runsTo_ret. reflexivity.
      - apply runsTo_ret. reflexivity. }
    intros body st3 ->.
    cbn [sdWillSetFunc sdSetGetter].
    unfold allocatesNothing in Hid1.
    destruct (sdWillSetFunc VD) as [willSet|] eqn:Hwill;
      (eapply runsTo_bind;
       [apply createPropertyStore_property; exact Hprop|]);
      intros body' st4 [Hid4 _]; unfold allocatesNothing in Hid4;
      cbn [sdDidSetFunc sdSetWillSetFunc sdSetGetter];
      destruct (sdDidSetFunc VD) as [didSet|] eqn:Hdid;
      (eapply runsTo_eq; [reflexivity|]);
      exists Get'; cbn -[finalizeObserver];
      rewrite ?Hwill, ?Hdid;
      (split; [reflexivity|]); (split; [exact Hsame|]);
      (split; [exact Hbody|]);
      (split; [try exact I; apply (finalizeObserver_spec VD); reflexivity|]);
      (split; [try exact I; apply (finalizeObserver_spec VD); reflexivity|]);
      (split; [reflexivity|]); (split; [reflexivity|]); congruence. }
  destruct Hrun as (VD' & st' & Hrun & Get' & Hfacts).
  exists VD', st', Get'. split; [exact Hrun|]. exact Hfacts.
Qed.

Lemma observers_final_in_classes_witness :
  exists VD' st' willSet didSet,
    synthesizeObservingAccessors true fullTC observedCount emptyState
    = Done (VD', st') /\
    sdWillSetFunc VD' = Some willSet /\ fnIsFinal willSet = true /\
    sdDidSetFunc VD' = Some didSet /\ fnIsFinal didSet = true.
Proof.
  destruct (observers_final_in_classes true fullTC observedCount _ _ _
              emptyState eq_refl eq_refl eq_refl eq_refl eq_refl eq_refl eq_refl)
    as (VD' & st' & Get' & Hrun & _ & _ & _ & Hwill & Hdid & _).
  cbn [observedCount sdWillSetFunc sdDidSetFunc sdSetDidSetFunc
       sdSetWillSetFunc] in Hwill, Hdid.
  unfold observerFinalized in Hwill, Hdid.
  destruct (sdWillSetFunc VD') as [willSet|] eqn:HwillSet; [|contradiction].
  destruct (sdDidSetFunc VD') as [didSet|] eqn:HdidSet; [|contradiction].
  exists VD', st', willSet, didSet.
  split; [exact Hrun|].
  destruct Hwill as (_ & _ & _ & Hw). destruct Hdid as (_ & _ & _ & Hd).
  split; [exact HwillSet|]. split; [exact Hw|].
  split; [exact HdidSet|exact Hd].
Defined.

(** ** The bodies of trivial accessors *)

Lemma runsTo_yields :
  forall A (Q : A -> Prop) (m : Sema A),
    (forall st, runsTo m st (fun a _ => Q a)) -> yields Q m.
Proof.
  intros A Q m Hruns st a st' Hrun.
  destruct (Hruns st) as (a0 & st0 & Hrun0 & HQ).
  rewrite Hrun in Hrun0. injection Hrun0 as <- _. exact HQ.
Qed.

Lemma propertyReference_same :
  forall f f' storage semantics,
    sameAccessor f f' ->
    propertyReference f' storage semantics
    = propertyReference f storage semantics.
Proof.
  intros f f' storage semantics (_ & _ & Hparams & Hdc).
  unfold propertyReference, getImplicitSelfDecl. now rewrite Hparams, Hdc.
Qed.

Lemma sameAccessor_trans :
  forall f g h, sameAccessor f g -> sameAccessor g h -> sameAccessor f h.
Proof.
  intros f g h (H1 & H2 & H3 & H4) (K1 & K2 & K3 & K4).
  repeat split; congruence.
Qed.

Lemma yields_FuncDecl_create :
  forall params resultTy dc,
    yields (fun f => fnAttrs f = [] /\ fnParameterLists f = params)
      (FuncDecl_create params resultTy dc).
Proof.
  intros params resultTy dc. unfold FuncDecl_create.
  repeat yields_step. split; reflexivity.
Qed.

(** A prototype carries no [dynamic] attribute. *)
Lemma yields_createGetterPrototype :
  forall TC storage,
    yields (fun getter => hasAttribute DynamicAttr (fnAttrs getter) = false)
      (createGetterPrototype TC storage).
Proof.
  intros TC storage. unfold createGetterPrototype.
  eapply yields_bind; [apply yields_FuncDecl_create|].
  intros f [Hattrs _]. apply yields_ret. unfold makeFinalFunc, fnIsFinal.
  repeat match goal with
         | |- context [if ?b then _ else _] => destruct b
         end;
    cbn [fnAttrs fnSetStatic fnSetMutating fnAddAttr]; rewrite Hattrs;
    reflexivity.
Qed.

Lemma yields_createSetterPrototype :
  forall TC storage,
    sdDeclKind (sdInfo storage) = IsVarDecl ->
    yields
      (fun sv =>
         hasAttribute DynamicAttr (fnAttrs (fst sv)) = false /\
         nth_error (last (fnParameterLists (fst sv)) []) 0 = Some (snd sv))
      (createSetterPrototype TC storage).
Proof.
  intros TC storage Hvar. unfold createSetterPrototype.
  eapply yields_bind; [apply yields_FuncDecl_create|].
  intros f [Hattrs Hparams]. apply yields_ret. cbn [fst snd].
  unfold makeFinalFunc, fnIsFinal. split.
  - repeat match goal with
           | |- context [if ?b then _ else _] => destruct b
           end;
      cbn [fnAttrs fnSetStatic fnSetMutating fnAddAttr]; rewrite Hattrs;
      reflexivity.
  - repeat match goal with
           | |- context [if ?b then _ else _] => destruct b
           end;
      cbn [fnParameterLists fnSetStatic fnSetMutating fnAddAttr];
      rewrite Hparams, last_last, index_forwarding_param_list;
      unfold storageIndices; rewrite Hvar; reflexivity.
Qed.

(** The trivial accessors of a property, as the result shows them. *)
Definition trivialBodies (TC : TypeChecker) (storage storage' : AbstractStorageDecl)
  : Prop :=
  let dynamic := sdIsDynamic storage && sdIsObjC (sdInfo storage) in
  (exists getter,
      sdGetter storage' = Some getter /\
      fnAccessorKind getter = IsGetter /\
      hasAttribute DynamicAttr (fnAttrs getter) = dynamic /\
      fnBody getter
      = Some [NodeReturnStmt (propertyReference getter storage DirectToStorage)]) /\
  match sdSetter storage' with
  | Some setter =>
      exists value,
        nth_error (last (fnParameterLists setter) []) 0 = Some value /\
        fnAccessorKind setter = IsSetter /\
        hasAttribute DynamicAttr (fnAttrs setter) = dynamic /\
        fnBody setter
        = if sdIsInvalid (sdInfo storage) then None
          else Some [NodeExpr
                       (AssignExpr
                          (propertyReference setter storage DirectToStorage)
                          (storedValue TC
                             (DeclRefExpr (VRParam value) Ordinary) storage))]
  | None => True
  end /\
  match sdMaterializeForSetFunc storage' with
  | Some materializeForSet =>
      fnAccessorKind materializeForSet = IsMaterializeForSet /\
      fnBody materializeForSet = None
  | None => True
  end.

Lemma yields_synthesizeTrivialGetter :
  forall assertionsEnabled getter storage,
    isPropertyOverProperty storage = true ->
    yields
      (fun getter' =>
         sameAccessor getter getter' /\
         hasAttribute DynamicAttr (fnAttrs getter')
         = hasAttribute DynamicAttr (fnAttrs getter) /\
         fnBody getter'
         = Some [NodeReturnStmt
                   (propertyReference getter storage DirectToStorage)])
      (synthesizeTrivialGetter assertionsEnabled getter storage).
Proof.
  intros ae getter storage Hprop. unfold synthesizeTrivialGetter.
  eapply yields_bind with
    (R := fun e => e = propertyReference getter storage DirectToStorage).
  { apply runsTo_yields. intros st.
    unfold createPropertyLoadOrCallSuperclassGetter.
    eapply runsTo_eq; [apply buildStorageReference_property; exact Hprop|].
    reflexivity. }
  intros e ->. yields_step. yields_step.
  split; [|split].
  - eapply sameAccessor_trans; [|apply sameAccessor_transparent].
    repeat split.
  - unfold maybeMarkTransparent.
    destruct (isNominalTypeOrNominalTypeExtensionContext _) as [nominal|];
      [destruct (ntdHasFixedLayout nominal)|]; reflexivity.
  - unfold maybeMarkTransparent.
    destruct (isNominalTypeOrNominalTypeExtensionContext _) as [nominal|];
      [destruct (ntdHasFixedLayout nominal)|]; reflexivity.
Qed.

Lemma yields_synthesizeTrivialSetter :
  forall assertionsEnabled TC setter storage valueVar,
    isPropertyOverProperty storage = true ->
    yields
      (fun setter' =>
         sameAccessor setter setter' /\
         hasAttribute DynamicAttr (fnAttrs setter')
         = hasAttribute DynamicAttr (fnAttrs setter) /\
         fnBody setter'
         = if sdIsInvalid (sdInfo storage) then fnBody setter
           else Some [NodeExpr
                        (AssignExpr
                           (propertyReference setter storage DirectToStorage)
                           (storedValue TC
                              (DeclRefExpr (VRParam valueVar) Ordinary)
                              storage))])
      (synthesizeTrivialSetter assertionsEnabled TC setter storage valueVar).
Proof.
  intros ae TC setter storage valueVar Hprop. unfold synthesizeTrivialSetter.
  destruct (sdIsInvalid (sdInfo storage)).
  { apply yields_ret. split; [apply sameAccessor_refl|]. split; reflexivity. }
  eapply yields_bind.
  { apply runsTo_yields. intros st.
    eapply runsTo_weaken;
      [apply (createPropertyStore_property ae TC setter
                (DeclRefExpr (VRParam valueVar) Ordinary) storage [] st Hprop)|].
    intros body st' [_ Hbody]. exact Hbody. }
  intros body ->. yields_step. yields_step.
  split; [|split].
  - eapply sameAccessor_trans; [|apply sameAccessor_transparent].
    repeat split.
  - unfold maybeMarkTransparent.
    destruct (isNominalTypeOrNominalTypeExtensionContext _) as [nominal|];
      [destruct (ntdHasFixedLayout nominal)|]; reflexivity.
  - unfold maybeMarkTransparent.
    destruct (isNominalTypeOrNominalTypeExtensionContext _) as [nominal|];
      [destruct (ntdHasFixedLayout nominal)|]; reflexivity.
Qed.

Lemma yields_addMaterializeForSet_slot :
  forall assertionsEnabled TC storage setter,
    sdSetter storage = Some setter ->
    yields
      (fun ms =>
         fnAccessorKind (fst ms) = IsMaterializeForSet /\
         fnBody (fst ms) = None /\
         snd ms = sdSetMaterializeForSetFunc storage (Some (fst ms)))
      (addMaterializeForSet assertionsEnabled TC storage).
Proof.
  intros ae TC storage setter Hsetter. apply runsTo_yields. intros st.
  eapply runsTo_weaken;
    [apply (addMaterializeForSet_spec ae TC storage setter st Hsetter)|].
  intros ms st' (_ & _ & Hk & _ & Hbody & Hs). repeat split; assumption.
Qed.

Lemma yields_synthesizeMaterializeForSet :
  forall materializeForSet storage,
    yields
      (fun m =>
         fnAccessorKind m = fnAccessorKind materializeForSet /\
         fnBody m = fnBody materializeForSet)
      (synthesizeMaterializeForSet materializeForSet storage).
Proof.
  intros m storage. apply runsTo_yields. intros st.
  eapply runsTo_weaken; [apply synthesizeMaterializeForSet_spec|].
  intros m' st' (_ & _ & (_ & Hk & _) & Hbody). split; assumption.
Qed.

Lemma yields_addTrivialAccessorsToStorage_bodies :
  forall assertionsEnabled TC storage,
    sdDeclKind (sdInfo storage) = IsVarDecl ->
    isPropertyOverProperty storage = true ->
    yields (trivialBodies TC storage)
      (addTrivialAccessorsToStorage assertionsEnabled TC storage).
Proof.
  intros ae TC storage Hvar Hprop. unfold addTrivialAccessorsToStorage.
  yields_step.
  eapply yields_bind; [apply yields_createGetterPrototype|].
  intros getter Hgdyn.
  yields_step.
  eapply yields_bind with
    (R := fun sv =>
            match sv with
            | Some (s, v) =>
                hasAttribute DynamicAttr (fnAttrs s) = false /\
                fnBody s = None /\
                nth_error (last (fnParameterLists s) []) 0 = Some v
            | None => True
            end).
  { match goal with
    | |- yields _ (if ?b then _ else _) => destruct b
    end; [|apply yields_ret; exact I].
    eapply yields_bind with
      (R := fun sv =>
              hasAttribute DynamicAttr (fnAttrs (fst sv)) = false /\
              fnBody (fst sv) = None /\
              nth_error (last (fnParameterLists (fst sv)) []) 0
              = Some (snd sv)).
    { intros st sv st' Hrun.
      destruct (yields_createSetterPrototype TC storage Hvar st sv st' Hrun)
        as [Hdyn Hvalue].
      destruct (createSetterPrototype_spec TC storage st)
        as (sv0 & st0 & Hrun0 & _ & _ & _ & Hbody & _).
      rewrite Hrun in Hrun0. injection Hrun0 as <- _.
      repeat split; assumption. }
    intros [s v] H. apply yields_ret. exact H. }
  intros sv Hsv.
  set (dynamic := sdIsDynamic storage && sdIsObjC (sdInfo storage)).
  change (sdIsDynamic
            (addTrivialAccessors storage getter (option_map fst sv) None)
          && sdIsObjC
               (sdInfo
                  (addTrivialAccessors storage getter (option_map fst sv) None)))
    with dynamic.
  eapply yields_bind.
  { apply yields_synthesizeTrivialGetter. exact Hprop. }
  intros getter' (HsameG & HdynG & HbodyG).
  assert (Hgetter :
    fnAccessorKind getter' = IsGetter /\
    hasAttribute DynamicAttr (fnAttrs getter') = dynamic /\
    fnBody getter'
    = Some [NodeReturnStmt (propertyReference getter' storage DirectToStorage)]).
  { split; [|split].
    - destruct HsameG as (_ & Hk & _). rewrite Hk.
      destruct dynamic; reflexivity.
    - rewrite HdynG. destruct dynamic; cbn; [reflexivity|exact Hgdyn].
    - rewrite HbodyG.
      rewrite <- (propertyReference_same _ _
                    (addTrivialAccessors storage getter (option_map fst sv) None)
                    DirectToStorage HsameG).
      reflexivity. }
  clear HsameG HdynG HbodyG.
  yields_step. yields_step.
  eapply yields_bind with
    (R := fun s3 =>
            sdGetter s3 = Some getter' /\
            sdMaterializeForSetFunc s3 = None /\
            match sdSetter s3 with
            | Some setter =>
                exists value,
                  nth_error (last (fnParameterLists setter) []) 0 = Some value /\
                  fnAccessorKind setter = IsSetter /\
                  hasAttribute DynamicAttr (fnAttrs setter) = dynamic /\
                  fnBody setter
                  = if sdIsInvalid (sdInfo storage) then None
                    else Some [NodeExpr
                                 (AssignExpr
                                    (propertyReference setter storage
                                       DirectToStorage)
                                    (storedValue TC
                                       (DeclRefExpr (VRParam value) Ordinary)
                                       storage))]
            | None => True
            end).
  { destruct sv as [[s v]|]; [|apply yields_ret; repeat split].
    destruct Hsv as (Hsdyn & Hsbody & Hvalue).
    eapply yields_bind.
    { apply yields_synthesizeTrivialSetter. exact Hprop. }
    intros setter' (HsameS & HdynS & HbodyS).
    yields_step. yields_step. apply yields_ret.
    split; [reflexivity|]. split; [reflexivity|].
    cbn [sdSetter sdSetSetter].
    exists v. split; [|split; [|split]].
    - destruct HsameS as (_ & _ & Hp & _). rewrite Hp.
      destruct dynamic; exact Hvalue.
    - destruct HsameS as (_ & Hk & _). rewrite Hk.
      destruct dynamic; reflexivity.
    - rewrite HdynS. destruct dynamic; cbn; [reflexivity|exact Hsdyn].
    - rewrite HbodyS.
      change (sdIsInvalid (sdInfo (sdSetGetter
                (addTrivialAccessors storage getter (option_map fst (Some (s, v)))
                   None) (Some getter'))))
        with (sdIsInvalid (sdInfo storage)).
      destruct (sdIsInvalid (sdInfo storage)).
      + destruct dynamic; exact Hsbody.
      + rewrite <- (propertyReference_same _ _
                      (sdSetGetter
                         (addTrivialAccessors storage getter
                            (option_map fst (Some (s, v))) None)
                         (Some getter'))
                      DirectToStorage HsameS).
        reflexivity. }
  intros s3 (Hget3 & Hmat3 & Hset3).
  yields_step.
  destruct (sdSetter s3) as [setter|] eqn:Hsetter3.
  - yields_step.
    destruct (isNominalTypeOrNominalTypeExtensionContext _).
    + eapply yields_bind;
        [apply (yields_addMaterializeForSet_slot ae TC s3 setter Hsetter3)|].
      intros [m s4] (Hmk & Hmbody & Hs4). cbn [fst snd] in *. subst s4.
      eapply yields_bind; [apply yields_synthesizeMaterializeForSet|].
      intros m' (Hmk' & Hmbody'). yields_step. apply yields_ret.
      unfold trivialBodies. fold dynamic.
      cbn [sdGetter sdSetter sdMaterializeForSetFunc
           sdSetMaterializeForSetFunc].
      rewrite Hget3, Hsetter3.
      split; [exists getter'; split; [reflexivity|exact Hgetter]|].
      split; [exact Hset3|]. split; congruence.
    + apply yields_ret. unfold trivialBodies. fold dynamic.
      rewrite Hget3, Hsetter3, Hmat3.
      split; [exists getter'; split; [reflexivity|exact Hgetter]|].
      split; [exact Hset3|exact I].
  - apply yields_ret. unfold trivialBodies. fold dynamic.
    rewrite Hget3, Hsetter3, Hmat3.
    split; [exists getter'; split; [reflexivity|exact Hgetter]|].
    split; exact I.
Qed.

(** X17.  The trivial accessors of a stored or addressed property (one that
    does not override a subscript): the getter's body is the one return of
    the direct load of the property (of the superclass property for an
    override); the setter's body, if a setter is made, is the one direct
    store of its first parameter (of its copy for an NSCopying property),
    and stays empty if the property is invalid, while the getter gets its
    body all the same; a materializeForSet, if made, has no body.  Getter
    and setter are [dynamic] exactly when the property is dynamic and
    ObjC. *)
Theorem trivial_accessor_bodies :
  forall assertionsEnabled TC storage st,
    plainStorage storage ->
    isPropertyOverProperty storage = true ->
    exists storage' st',
      addTrivialAccessorsToStorage assertionsEnabled TC storage st
      = Done (storage', st') /\
      trivialBodies TC storage storage'.
Proof.
  intros ae TC storage st Hplain Hprop.
  assert (Hvar : sdDeclKind (sdInfo storage) = IsVarDecl).
  { unfold isPropertyOverProperty, isSubscriptDecl in Hprop.
    destruct (sdDeclKind (sdInfo storage)); [reflexivity|discriminate Hprop]. }
  assert (Hfwd : indicesForwardable storage = true).
  { unfold indicesForwardable, storageIndices. rewrite Hvar. reflexivity. }
  destruct (addTrivialAccessorsToStorage_spec ae TC storage st Hplain Hfwd)
    as (storage' & st' & Hrun & _).
  exists storage', st'. split; [exact Hrun|].
  exact (yields_addTrivialAccessorsToStorage_bodies ae TC storage Hvar Hprop
           _ _ _ Hrun).
Qed.

Lemma trivial_accessor_bodies_witness :
  exists storage' st' setter,
    addTrivialAccessorsToStorage true fullTC copiedTitle emptyState
    = Done (storage', st') /\
    sdSetter storage' = Some setter /\
    fnBody setter
    = Some [NodeExpr
              (AssignExpr
                 (propertyReference setter copiedTitle DirectToStorage)
                 (OptionalEvaluationExpr
                    (ConditionalCheckedCastExpr
                       (copyWithZoneCall
                          (BindOptionalExpr
                             (DeclRefExpr
                                (VRParam
                                   (buildLetArgument "value"
                                      (TyOptional (TyNominal "NSString"))))
                                Ordinary) 0))
                       (TyNominal "NSString"))))].
Proof.
  assert (Hplain : plainStorage copiedTitle).
  { constructor; [reflexivity|intros _; reflexivity|intros _; reflexivity]. }
  destruct (trivial_accessor_bodies true fullTC copiedTitle emptyState Hplain
              eq_refl)
    as (storage' & st' & Hrun & _ & Hsetter & _).
  assert (Hhas : exists setter, sdSetter storage' = Some setter).
  { assert (Hruns :
      exists s t, addTrivialAccessorsToStorage true fullTC copiedTitle emptyState
                  = Done (s, t) /\ hasSetter s = true).
    { eexists. eexists. vm_compute. split; reflexivity. }
    destruct Hruns as (s & t & Hrun' & Hs). rewrite Hrun in Hrun'.
    injection Hrun' as <- _. unfold hasSetter in Hs.
    destruct (sdSetter storage') as [setter|]; [|discriminate Hs].
    exists setter. reflexivity. }
  destruct Hhas as (setter & Hset). rewrite Hset in Hsetter.
  destruct Hsetter as (value & Hvalue & _ & _ & Hbody).
  exists storage', st', setter.
  split; [exact Hrun|]. split; [exact Hset|].
  rewrite Hbody. cbn [copiedTitle typedVar sdInfo sdIsInvalid].
  assert (Hv : value = buildLetArgument "value" (TyOptional (TyNominal "NSString"))).
  { assert (Hruns :
      exists s t setter0,
        addTrivialAccessorsToStorage true fullTC copiedTitle emptyState
        = Done (s, t) /\ sdSetter s = Some setter0 /\
        nth_error (last (fnParameterLists setter0) []) 0
        = Some (buildLetArgument "value" (TyOptional (TyNominal "NSString")))).
    { eexists. eexists. eexists. vm_compute. repeat split. }
    destruct Hruns as (s & t & setter0 & Hrun' & Hs0 & Hp0).
    rewrite Hrun in Hrun'. injection Hrun' as <- _.
    rewrite Hset in Hs0. injection Hs0 as <-. congruence. }
  subst value. reflexivity.
Defined.

(** ** What trivial-accessor synthesis does to the state *)

(** The state once [d] is registered as an external definition, if it has
    to be. *)
Definition registered (needed : bool) (d : DeclID) (st : SemaState)
  : SemaState :=
  if needed
  then mkState (stDiags st) (stExternalDecls st ++ [d]) (stMembers st)
         (stDerivedDecls st) (stRequests st) (stNextID st)
  else st.

(** The state once the store of [storage] is built: a diagnostic is added
    if the property is NSCopying and its type does not conform. *)
Definition copyDiagnosed (TC : TypeChecker) (storage : AbstractStorageDecl)
    (st : SemaState) : SemaState :=
  if mayCopy storage && negb (conformsToNSCopying TC storage)
  then mkState
         (stDiags st ++ [nscopying_doesnt_conform (sdID (sdInfo storage))])
         (stExternalDecls st) (stMembers st) (stDerivedDecls st)
         (stRequests st) (stNextID st)
  else st.

Lemma fnID_maybeMarkTransparent :
  forall f storage, fnID (maybeMarkTransparent f storage) = fnID f.
Proof.
  intros f storage. unfold maybeMarkTransparent.
  destruct (isNominalTypeOrNominalTypeExtensionContext _) as [nominal|];
    [destruct (ntdHasFixedLayout nominal)|]; reflexivity.
Qed.

Lemma createGetterPrototype_run :
  forall TC storage st,
    exists getter,
      createGetterPrototype TC storage st
      = Done (getter,
              mkState (stDiags st) (stExternalDecls st) (stMembers st)
                (stDerivedDecls st) (stRequests st) (S (stNextID st))) /\
      fnID getter = stNextID st.
Proof.
  intros TC storage st. unfold createGetterPrototype, FuncDecl_create.
  eexists. split; [reflexivity|]. unfold makeFinalFunc.
  repeat match goal with
         | |- context [if ?b then _ else _] => destruct b
         end; reflexivity.
Qed.

Lemma createSetterPrototype_run :
  forall TC storage st,
    exists setter value,
      createSetterPrototype TC storage st
      = Done ((setter, value),
              mkState (stDiags st) (stExternalDecls st) (stMembers st)
                (stDerivedDecls st) (stRequests st) (S (stNextID st))) /\
      fnID setter = stNextID st.
Proof.
  intros TC storage st. unfold createSetterPrototype, FuncDecl_create.
  eexists. eexists. split; [reflexivity|]. unfold makeFinalFunc.
  repeat match goal with
         | |- context [if ?b then _ else _] => destruct b
         end; reflexivity.
Qed.

Lemma synthesizeTrivialGetter_run :
  forall assertionsEnabled getter storage st,
    isPropertyOverProperty storage = true ->
    exists getter',
      synthesizeTrivialGetter assertionsEnabled getter storage st
      = Done (getter',
              registered (needsToBeRegisteredAsExternalDecl storage)
                (fnID getter) st) /\
      fnID getter' = fnID getter.
Proof.
  intros ae getter storage st Hprop.
  unfold synthesizeTrivialGetter, createPropertyLoadOrCallSuperclassGetter.
  unfold bind at 1.
  rewrite (buildStorageReference_property ae getter storage DirectToStorage st
             Hprop).
  rewrite fnID_maybeMarkTransparent. cbn [fnID fnSetBody].
  eexists. split.
  - unfold registered.
    destruct (needsToBeRegisteredAsExternalDecl storage); reflexivity.
  - rewrite fnID_maybeMarkTransparent. reflexivity.
Qed.

Lemma createPropertyStore_run :
  forall assertionsEnabled TC accessor value storage body st,
    isPropertyOverProperty storage = true ->
    createPropertyStoreOrCallSuperclassSetter assertionsEnabled TC accessor
      value storage body st
    = Done (body
            ++ [NodeExpr
                  (AssignExpr
                     (propertyReference accessor storage DirectToStorage)
                     (storedValue TC value storage))],
            copyDiagnosed TC storage st).
Proof.
  intros ae TC accessor value storage body st Hprop.
  unfold createPropertyStoreOrCallSuperclassSetter, storedValue, copyDiagnosed,
    mayCopy.
  destruct (negb (isSubscriptDecl storage)
            && hasAttribute NSCopyingAttr (sdAttrs storage)); cbn [andb].
  - destruct (conformsToNSCopying TC storage) eqn:Hconf; cbn [negb];
      unfold bind at 1;
      [rewrite (copyWithZone_conforming TC value storage st Hconf)
      |rewrite (copyWithZone_not_conforming TC value storage st Hconf)];
      unfold bind;
      rewrite buildStorageReference_property by exact Hprop; reflexivity.
  - unfold bind, ret.
    rewrite buildStorageReference_property by exact Hprop. reflexivity.
Qed.

Lemma synthesizeTrivialSetter_run :
  forall assertionsEnabled TC setter storage valueVar st,
    isPropertyOverProperty storage = true ->
    exists setter',
      synthesizeTrivialSetter assertionsEnabled TC setter storage valueVar st
      = Done (setter',
              if sdIsInvalid (sdInfo storage) then st
              else registered (needsToBeRegisteredAsExternalDecl storage)
                     (fnID setter) (copyDiagnosed TC storage st)) /\
      fnID setter' = fnID setter.
Proof.
  intros ae TC setter storage valueVar st Hprop.
  unfold synthesizeTrivialSetter.
  destruct (sdIsInvalid (sdInfo storage)).
  { eexists. split; reflexivity. }
  unfold bind at 1.
  rewrite (createPropertyStore_run ae TC setter _ storage [] st Hprop).
  rewrite fnID_maybeMarkTransparent. cbn [fnID fnSetBody].
  eexists. split.
  - unfold registered.
    destruct (needsToBeRegisteredAsExternalDecl storage); reflexivity.
  - rewrite fnID_maybeMarkTransparent. reflexivity.
Qed.

Lemma createMaterializeForSetPrototype_run :
  forall assertionsEnabled TC storage setter st,
    sdSetter storage = Some setter ->
    exists materializeForSet,
      createMaterializeForSetPrototype assertionsEnabled TC storage st
      = Done (materializeForSet,
              registered (needsToBeRegisteredAsExternalDecl storage)
                (stNextID st)
                (mkState (stDiags st) (stExternalDecls st) (stMembers st)
                   (stDerivedDecls st) (stRequests st) (S (stNextID st)))) /\
      fnID materializeForSet = stNextID st.
Proof.
  intros ae TC storage setter st Hsetter.
  unfold createMaterializeForSetPrototype.
  destruct (createMaterializeForSetReturnType_runs ae TC storage st)
    as (ty & Hty).
  unfold bind at 1. rewrite Hty. unfold FuncDecl_create.
  unfold bind at 1. unfold bind at 1. unfold allocDecl at 1. unfold ret at 1.
  rewrite Hsetter.
  assert (Hid :
    forall f : FuncDecl,
      fnID
        (fnSetAvailableAs
           (if needsDynamicMaterializeForSet storage
            then fnSetForcedStaticDispatch
                   (if sdIsFinal storage then makeFinalFunc f else f) true
            else if sdIsFinal storage then makeFinalFunc f else f)
           ([sdID (sdInfo storage)]
            ++ match sdGetter storage with
               | Some g => [fnID g]
               | None => []
               end ++ [fnID setter]))
      = fnID f).
  { intros f. unfold makeFinalFunc.
    repeat match goal with
           | |- context [if ?b then _ else _] => destruct b
           end; reflexivity. }
  unfold bind at 1. rewrite Hid. cbn [fnID fnSetStatic fnSetMutating].
  eexists. split.
  - unfold registered.
    destruct (needsToBeRegisteredAsExternalDecl storage); reflexivity.
  - rewrite Hid. reflexivity.
Qed.

Lemma insertAfter_last :
  forall hint d x l,
    ~ In hint l -> x <> hint ->
    insertAfter hint d (l ++ [x; hint]) = Some (l ++ [x; hint; d]).
Proof.
  intros hint d x l Hnot Hx. induction l as [|y r IH]; cbn [app insertAfter].
  - destruct (Nat.eqb x hint) eqn:Heq.
    + apply Nat.eqb_eq in Heq. contradiction.
    + rewrite Nat.eqb_refl. reflexivity.
  - destruct (Nat.eqb y hint) eqn:Heq.
    + apply Nat.eqb_eq in Heq. subst y. exfalso. apply Hnot. left. reflexivity.
    + rewrite IH; [reflexivity|]. intros Hin. apply Hnot. right. exact Hin.
Qed.

Ltac invert_bind H a s Hsub :=
  apply bind_Done_inv in H; destruct H as (a & s & Hsub & H).

(** X18.  What trivial-accessor synthesis does around a mutable, valid
    property of a type, in full: three declarations are created, the
    getter, the setter and the materializeForSet, in this order, and
    appended in this order to the members of the type; the getter and the
    setter are queued for both type-checking passes, the materializeForSet
    for the computation of its access level, for validation and for both
    passes; if accessors of the property have to be registered as external
    definitions, the getter and the setter are registered once and the
    materializeForSet twice; and the only diagnostic possible is the one of
    an NSCopying property whose type does not conform. *)
Theorem trivial_accessors_effects :
  forall assertionsEnabled TC storage st,
    plainStorage storage ->
    isPropertyOverProperty storage = true ->
    isDeclaredMutable storage = true ->
    sdIsInvalid (sdInfo storage) = false ->
    isTypeContext (sdDeclContext (sdInfo storage)) = true ->
    Forall (fun d => d < stNextID st) (stMembers st) ->
    exists storage' st',
      addTrivialAccessorsToStorage assertionsEnabled TC storage st
      = Done (storage', st') /\
      let n := stNextID st in
      option_map fnID (sdGetter storage') = Some n /\
      option_map fnID (sdSetter storage') = Some (n + 1) /\
      option_map fnID (sdMaterializeForSetFunc storage') = Some (n + 2) /\
      stNextID st' = n + 3 /\
      stMembers st' = stMembers st ++ [n; n + 1; n + 2] /\
      stDerivedDecls st' = stDerivedDecls st /\
      stRequests st'
      = stRequests st
        ++ [ReqTypeCheckDecl n true; ReqTypeCheckDecl n false;
            ReqTypeCheckDecl (n + 1) true; ReqTypeCheckDecl (n + 1) false;
            ReqComputeAccessibility (n + 2); ReqValidateDecl (n + 2);
            ReqTypeCheckDecl (n + 2) true; ReqTypeCheckDecl (n + 2) false] /\
      stExternalDecls st'
      = stExternalDecls st
        ++ (if needsToBeRegisteredAsExternalDecl storage
            then [n; n + 1; n + 2; n + 2] else []) /\
      stDiags st'
      = stDiags st
        ++ (if mayCopy storage && negb (conformsToNSCopying TC storage)
            then [nscopying_doesnt_conform (sdID (sdInfo storage))] else []).
Proof.
  intros ae TC storage st Hplain Hprop Hmut Hvalid Hctx Hmembers.
  assert (Hvar : sdDeclKind (sdInfo storage) = IsVarDecl).
  { unfold isPropertyOverProperty, isSubscriptDecl in Hprop.
    destruct (sdDeclKind (sdInfo storage)); [reflexivity|discriminate Hprop]. }
  assert (Hfwd : indicesForwardable storage = true).
  { unfold indicesForwardable, storageIndices. rewrite Hvar. reflexivity. }
  destruct (addTrivialAccessorsToStorage_spec ae TC storage st Hplain Hfwd)
    as (storage' & st' & Hrun & _).
  exists storage', st'. split; [exact Hrun|].
  assert (Hfresh : ~ In (S (stNextID st)) (stMembers st)).
  { intros Hin. rewrite Forall_forall in Hmembers.
    specialize (Hmembers _ Hin). lia. }
  assert (Hdc :
    exists nominal,
      isNominalTypeOrNominalTypeExtensionContext (sdDeclContext (sdInfo storage))
      = Some nominal /\
      forall d hint s,
        addMemberToContextIfNeeded (AFuncDecl d)
          (sdDeclContext (sdInfo storage)) hint s
        = Done (tt, mkState (stDiags s) (stExternalDecls s)
                      (addMember d hint (stMembers s)) (stDerivedDecls s)
                      (stRequests s) (stNextID s))).
  { destruct (sdDeclContext (sdInfo storage)) as [nominal|nominal| | |];
      try discriminate Hctx; exists nominal; split; reflexivity. }
  destruct Hdc as (nominal & Hnominal & Hadd).
  assert (Hids :
    forall (b : bool) f k,
      fnID (if b then fnAddAttr (fnSetAccessorKind f k) DynamicAttr
            else fnSetAccessorKind f k) = fnID f).
  { intros b f k. destruct b; reflexivity. }
  assert (Hreg :
    forall (b : bool) d s,
      (if b then addExternalDecl d else ret tt) s = Done (tt, registered b d s)).
  { intros b d s. destruct b; reflexivity. }
  assert (Hinsert :
    insertAfter (S (stNextID st)) (S (S (stNextID st)))
      (stMembers st ++ [stNextID st; S (stNextID st)])
    = Some (stMembers st
            ++ [stNextID st; S (stNextID st); S (S (stNextID st))])).
  { apply insertAfter_last; [exact Hfresh|lia]. }
  destruct st as [diags externals members derived requests next].
  cbn [stNextID stMembers stDiags stExternalDecls stDerivedDecls stRequests]
    in *.
  replace (next + 1) with (S next) by lia.
  replace (next + 2) with (S (S next)) by lia.
  replace (next + 3) with (S (S (S next))) by lia.
  unfold addTrivialAccessorsToStorage in Hrun.
  invert_bind Hrun u s1 H1. apply assert_Done_inv in H1. subst s1.
  (* the getter prototype *)
  invert_bind Hrun getter s2 H2.
  destruct (createGetterPrototype_run TC storage
              (mkState diags externals members derived requests next))
    as (g0 & E2 & Hg).
  cbn [stNextID stMembers stDiags stExternalDecls stDerivedDecls stRequests]
    in E2, Hg.
  rewrite E2 in H2. injection H2 as <- <-. clear E2.
  invert_bind Hrun needSetter s3 H3.
  rewrite (doesStorageNeedSetter_plain ae storage _ Hplain) in H3.
  rewrite Hmut in H3. injection H3 as <- <-.
  (* the setter prototype *)
  invert_bind Hrun sv s4 H4.
  invert_bind H4 sv0 s4' H4'.
  destruct (createSetterPrototype_run TC storage
              (mkState diags externals members derived requests (S next)))
    as (s0 & v0 & E4 & Hs).
  cbn [stNextID stMembers stDiags stExternalDecls stDerivedDecls stRequests]
    in E4, Hs.
  rewrite E4 in H4'. injection H4' as <- <-. clear E4.
  unfold ret in H4. injection H4 as <- <-.
  cbn [option_map fst] in Hrun.
  set (storage1 := addTrivialAccessors storage g0 (Some s0) None) in *.
  assert (Hprop1 : isPropertyOverProperty storage1 = true) by exact Hprop.
  set (dynamic := sdIsDynamic storage1 && sdIsObjC (sdInfo storage1)) in *.
  destruct (needsToBeRegisteredAsExternalDecl storage) eqn:Hext;
    destruct (mayCopy storage && negb (conformsToNSCopying TC storage))
      eqn:Hcopy.
  (* the body of the getter *)
  all: invert_bind Hrun getter' s5 H5.
  all: match type of H5 with
       | synthesizeTrivialGetter _ ?g ?s ?t = _ =>
           destruct (synthesizeTrivialGetter_run ae g s t Hprop1)
             as (g1 & E5 & Hg1)
       end.
  all: change (needsToBeRegisteredAsExternalDecl storage1)
         with (needsToBeRegisteredAsExternalDecl storage) in E5.
  all: rewrite Hext, Hids, Hg in E5; rewrite Hids, Hg in Hg1.
  all: cbn [registered stNextID stMembers stDiags stExternalDecls
            stDerivedDecls stRequests] in E5.
  all: rewrite E5 in H5; injection H5 as <- <-; clear E5.
  all: rewrite ?Hg1 in Hrun.
  all: invert_bind Hrun u6 s6 H6; invert_bind Hrun u7 s7 H7.
  all: unfold typeCheckDecl, request in H6, H7.
  all: cbn [stNextID stMembers stDiags stExternalDecls stDerivedDecls
            stRequests] in H6.
  all: injection H6 as _ <-.
  all: cbn [stNextID stMembers stDiags stExternalDecls stDerivedDecls
            stRequests] in H7.
  all: injection H7 as _ <-.
  (* the body of the setter *)
  all: set (storage2 := sdSetGetter storage1 (Some g1)) in *.
  all: invert_bind Hrun storage3 s8 H8.
  all: invert_bind H8 setter' s8' H8'.
  all: match type of H8' with
       | synthesizeTrivialSetter _ _ ?f ?s ?v ?t = _ =>
           destruct (synthesizeTrivialSetter_run ae TC f s v t Hprop)
             as (s1 & E8 & Hs1)
       end.
  all: change (sdIsInvalid (sdInfo (storage2)))
         with (sdIsInvalid (sdInfo storage)) in E8.
  all: change (needsToBeRegisteredAsExternalDecl (storage2))
         with (needsToBeRegisteredAsExternalDecl storage) in E8.
  all: unfold copyDiagnosed in E8.
  all: change (mayCopy (storage2)) with (mayCopy storage) in E8.
  all: change (conformsToNSCopying TC (storage2))
         with (conformsToNSCopying TC storage) in E8.
  all: change (sdID (sdInfo (storage2))) with (sdID (sdInfo storage)) in E8.
  all: rewrite Hvalid, Hext, Hcopy, Hids, Hs in E8; rewrite Hids, Hs in Hs1.
  all: cbn [registered stNextID stMembers stDiags stExternalDecls
            stDerivedDecls stRequests] in E8.
  all: rewrite E8 in H8'; injection H8' as <- <-; clear E8.
  all: rewrite ?Hs1 in H8.
  all: invert_bind H8 u9 s9 H9; invert_bind H8 u10 s10 H10.
  all: unfold typeCheckDecl, request in H9, H10.
  all: cbn [stNextID stMembers stDiags stExternalDecls stDerivedDecls
            stRequests] in H9.
  all: injection H9 as _ <-.
  all: cbn [stNextID stMembers stDiags stExternalDecls stDerivedDecls
            stRequests] in H10.
  all: injection H10 as _ <-.
  all: unfold ret in H8; injection H8 as <- <-.
  all: set (storageS := sdSetSetter (storage2) (Some s1)) in *.
  all: change (sdDeclContext (sdInfo storageS))
         with (sdDeclContext (sdInfo storage)) in Hrun.
  all: change (sdSetter storageS) with (Some s1) in Hrun; cbv iota in Hrun.
  all: rewrite ?Hs1 in Hrun.
  (* the members *)
  all: invert_bind Hrun u11 s11 H11; rewrite Hadd in H11.
  all: cbn [stNextID stMembers stDiags stExternalDecls stDerivedDecls
            stRequests addMember] in H11.
  all: injection H11 as _ <-.
  all: invert_bind Hrun u12 s12 H12; rewrite Hadd in H12.
  all: cbn [stNextID stMembers stDiags stExternalDecls stDerivedDecls
            stRequests addMember] in H12.
  all: injection H12 as _ <-.
  all: rewrite Hnominal in Hrun.
  (* the materializeForSet *)
  all: invert_bind Hrun ms s13 H13.
  all: unfold addMaterializeForSet in H13.
  all: invert_bind H13 m s13' H13'.
  all: match type of H13' with
       | createMaterializeForSetPrototype _ _ _ ?t = _ =>
           destruct (createMaterializeForSetPrototype_run ae TC storageS s1 t
                       eq_refl) as (m0 & E13 & Hm0)
       end.
  all: change (needsToBeRegisteredAsExternalDecl storageS)
         with (needsToBeRegisteredAsExternalDecl storage) in E13.
  all: rewrite Hext in E13.
  all: cbn [registered stNextID stMembers stDiags stExternalDecls
            stDerivedDecls stRequests] in E13, Hm0.
  all: rewrite E13 in H13'; injection H13' as <- <-; clear E13.
  all: rewrite ?Hm0 in H13.
  all: change (sdDeclContext (sdInfo storageS))
         with (sdDeclContext (sdInfo storage)) in H13.
  all: change (sdSetter storageS) with (Some s1) in H13.
  all: cbn [option_map] in H13.
  all: invert_bind H13 u14 s14 H14; rewrite Hadd in H14.
  all: rewrite ?Hs1 in H14.
  all: cbn [stNextID stMembers stDiags stExternalDecls stDerivedDecls
            stRequests addMember] in H14.
  all: rewrite <- !app_assoc in H14; cbn [app] in H14.
  all: match type of H14 with
       | context [insertAfter ?h ?d ?l] =>
           rewrite (Hinsert : insertAfter h d l = _) in H14
       end.
  all: injection H14 as _ <-.
  all: invert_bind H13 u15 s15 H15; invert_bind H13 u16 s16 H16.
  all: unfold validateDecl, request in H15, H16.
  all: cbn [stNextID stMembers stDiags stExternalDecls stDerivedDecls
            stRequests] in H15.
  all: injection H15 as _ <-.
  all: cbn [stNextID stMembers stDiags stExternalDecls stDerivedDecls
            stRequests] in H16.
  all: injection H16 as _ <-.
  all: change (sdMaterializeForSetFunc (setMaterializeForSetFunc storageS m0))
         with (Some (fnSetAccessorKind m0 IsMaterializeForSet)) in H13.
  all: cbv iota in H13; unfold ret in H13; injection H13 as <- <-.
  all: invert_bind Hrun m' s17 H17.
  all: unfold synthesizeMaterializeForSet in H17.
  all: invert_bind H17 u18 s18 H18; unfold typeCheckDecl, request in H18.
  all: rewrite fnID_maybeMarkTransparent in H18.
  all: cbn [stNextID stMembers stDiags stExternalDecls stDerivedDecls
            stRequests fnID fnSetAccessorKind] in H18.
  all: rewrite ?Hm0 in H18.
  all: injection H18 as _ <-.
  all: invert_bind H17 u19 s19 H19; rewrite Hreg in H19.
  all: change (needsToBeRegisteredAsExternalDecl
                 (setMaterializeForSetFunc storageS m0))
         with (needsToBeRegisteredAsExternalDecl storage) in H19.
  all: rewrite Hext, fnID_maybeMarkTransparent in H19.
  all: cbn [registered stNextID stMembers stDiags stExternalDecls
            stDerivedDecls stRequests fnID fnSetAccessorKind] in H19.
  all: rewrite ?Hm0 in H19.
  all: injection H19 as _ <-.
  all: unfold ret in H17; injection H17 as <- <-.
  all: invert_bind Hrun u20 s20 H20; unfold typeCheckDecl, request in H20.
  all: rewrite fnID_maybeMarkTransparent in H20.
  all: cbn [stNextID stMembers stDiags stExternalDecls stDerivedDecls
            stRequests fnID fnSetAccessorKind] in H20.
  all: rewrite ?Hm0 in H20.
  all: injection H20 as _ <-.
  all: unfold ret in Hrun; injection Hrun as <- <-.
  all: rewrite ?fnID_maybeMarkTransparent.
  all: cbn [fnID fnSetAccessorKind sdGetter sdSetter sdMaterializeForSetFunc
            sdSetMaterializeForSetFunc sdSetSetter sdSetGetter option_map
            setMaterializeForSetFunc storageS storage2 storage1
            stNextID stMembers stDiags stExternalDecls stDerivedDecls
            stRequests].
  all: rewrite ?fnID_maybeMarkTransparent; cbn [fnID fnSetAccessorKind].
  all: rewrite ?Hg1, ?Hs1, ?Hm0, <- ?app_assoc; cbn [app].
  all: repeat split; try reflexivity; rewrite ?app_nil_r; reflexivity.
Qed.

Lemma trivial_accessors_effects_witness :
  exists storage' st',
    addTrivialAccessorsToStorage true fullTC baseCount
      (mkState [] [] [20; 5] [] [] 100) = Done (storage', st') /\
    stMembers st' = [20; 5; 100; 101; 102] /\
    stExternalDecls st' = [] /\
    stNextID st' = 103.
Proof.
  assert (Hplain : plainStorage baseCount).
  { constructor; [reflexivity|intros _; reflexivity|intros H; discriminate H]. }
  assert (Hmembers :
    Forall (fun d => d < stNextID (mkState [] [] [20; 5] [] [] 100))
      (stMembers (mkState [] [] [20; 5] [] [] 100))).
  { repeat constructor; cbn; lia. }
  destruct (trivial_accessors_effects true fullTC baseCount
              (mkState [] [] [20; 5] [] [] 100) Hplain eq_refl eq_refl eq_refl
              eq_refl Hmembers)
    as (storage' & st' & Hrun & _ & _ & _ & Hids & Hmem & _ & _ & Hext & _).
  exists storage', st'. split; [exact Hrun|].
  split; [exact Hmem|]. split; [exact Hext|exact Hids].
Defined.

(** ** NSManaged properties *)

(** X19.  A stored NSManaged property of a class becomes a computed
    property whose getter and setter have no body and stay without one:
    the two prototypes are created, validated (not type-checked) and
    appended to the members, in this order; no materializeForSet is made,
    nothing is diagnosed or registered, and the being-type-checked flag is
    off again at the end. *)
Theorem nsmanaged_property_accessors_without_bodies :
  forall assertionsEnabled TC enclosingFile var nominal st,
    sdGetter var = None ->
    sdIsBeingTypeChecked var = false ->
    sdStorageKind var = Stored ->
    hasAttribute LazyAttr (sdAttrs var) = false ->
    sdIsImplicit var = false ->
    hasAttribute NSManagedAttr (sdAttrs var) = true ->
    isNominalTypeOrNominalTypeExtensionContext (sdDeclContext (sdInfo var))
    = Some nominal ->
    ntdKind nominal = ClassDecl ->
    exists var' st' Get Set_,
      maybeAddAccessorsToVariable assertionsEnabled TC enclosingFile var st
      = Done (var', st') /\
      sdStorageKind var' = Computed /\
      sdGetter var' = Some Get /\ sdSetter var' = Some Set_ /\
      sdMaterializeForSetFunc var' = None /\
      fnAccessorKind Get = IsGetter /\ fnAccessorKind Set_ = IsSetter /\
      fnBody Get = None /\ fnBody Set_ = None /\
      fnID Get = stNextID st /\ fnID Set_ = S (stNextID st) /\
      sdIsBeingTypeChecked var' = false /\
      stNextID st' = S (S (stNextID st)) /\
      stMembers st' = stMembers st ++ [stNextID st; S (stNextID st)] /\
      stRequests st'
      = stRequests st
        ++ [ReqValidateDecl (stNextID st); ReqValidateDecl (S (stNextID st))] /\
      stDiags st' = stDiags st /\
      stExternalDecls st' = stExternalDecls st /\
      stDerivedDecls st' = stDerivedDecls st.
Proof.
  intros ae TC ef var nominal st Hget Hbusy Hkind Hlazy Himpl Hmanaged Hdc
         Hclass.
  set (busy := sdSetIsBeingTypeChecked var true).
  assert (Hadd :
    forall d hint s,
      addMemberToContextIfNeeded (AFuncDecl d) (sdDeclContext (sdInfo var))
        hint s
      = Done (tt, mkState (stDiags s) (stExternalDecls s)
                    (addMember d hint (stMembers s)) (stDerivedDecls s)
                    (stRequests s) (stNextID s))).
  { destruct (sdDeclContext (sdInfo var)) as [n|n| | |];
      try discriminate Hdc; reflexivity. }
  assert (Hlocal : isLocalContext (sdDeclContext (sdInfo var)) = false).
  { destruct (sdDeclContext (sdInfo var)); try discriminate Hdc; reflexivity. }
  assert (Hassert :
    forall (msg : string) (s : SemaState), assert_ ae true msg s = Done (tt, s)).
  { intros msg s. unfold assert_. cbn [negb]. rewrite andb_false_r.
    reflexivity. }
  destruct (createGetterPrototype_spec TC busy st)
    as (Get & st1 & Hrun1 & _ & _ & HgID & HgBody & _).
  destruct (createGetterPrototype_run TC busy st) as (g0 & E1 & _).
  pose proof Hrun1 as Hsame1. rewrite E1 in Hsame1.
  injection Hsame1 as Hg0 Hst1. subst g0 st1. clear E1.
  destruct (createSetterPrototype_spec TC busy
              (mkState (stDiags st) (stExternalDecls st) (stMembers st)
                 (stDerivedDecls st) (stRequests st) (S (stNextID st))))
    as ([Set_ value] & st2 & Hrun2 & _ & _ & HsID & HsBody & _).
  destruct (createSetterPrototype_run TC busy
              (mkState (stDiags st) (stExternalDecls st) (stMembers st)
                 (stDerivedDecls st) (stRequests st) (S (stNextID st))))
    as (s0 & v0 & E2 & _).
  pose proof Hrun2 as Hsame2. rewrite E2 in Hsame2.
  injection Hsame2 as Hs0 Hv0 Hst2. subst s0 v0 st2. clear E2.
  cbn [fst snd stNextID stDiags stExternalDecls stMembers stDerivedDecls
       stRequests] in *.
  exists (sdSetIsBeingTypeChecked (makeComputed busy Get (Some Set_) None) false).
  eexists. exists (fnSetAccessorKind Get IsGetter),
    (fnSetAccessorKind Set_ IsSetter).
  split.
  { unfold maybeAddAccessorsToVariable.
    rewrite Hget, Hbusy, Hlocal. cbn [orb].
    unfold hasAccessorFunctions. rewrite Hkind. cbn [negb].
    unfold bind at 1. rewrite Hassert.
    rewrite Hlazy, Himpl, Hdc, Hclass, Hmanaged.
    unfold convertNSManagedStoredVarToComputed. fold busy.
    change (sdStorageKind busy) with (sdStorageKind var). rewrite Hkind.
    unfold bind at 1. unfold bind at 1. rewrite Hassert.
    unfold bind at 1. rewrite Hrun1.
    unfold bind at 1. rewrite Hrun2. cbn [fst].
    change (sdDeclContext (sdInfo (makeComputed busy Get (Some Set_) None)))
      with (sdDeclContext (sdInfo var)).
    unfold bind, validateDecl, request, ret. rewrite !Hadd. reflexivity. }
  cbn [sdStorageKind sdGetter sdSetter sdMaterializeForSetFunc
       sdIsBeingTypeChecked sdSetIsBeingTypeChecked makeComputed
       installAccessors sdSetMaterializeForSetFunc sdSetSetter sdSetGetter
       sdSetStorageKind option_map fnAccessorKind fnBody fnID fnSetAccessorKind
       stNextID stDiags stExternalDecls stMembers stDerivedDecls stRequests
       addMember].
  rewrite HgID, HsID, <- !app_assoc. cbn [app].
  repeat split; assumption.
Qed.

Lemma nsmanaged_property_accessors_without_bodies_witness :
  exists var' st',
    maybeAddAccessorsToVariable true fullTC None
      (plainVar 24 "entity" (NominalDC classBase) false [NSManagedAttr] None)
      emptyState = Done (var', st') /\
    sdStorageKind var' = Computed /\
    stRequests st' = [ReqValidateDecl 100; ReqValidateDecl 101].
Proof.
  destruct (nsmanaged_property_accessors_without_bodies true fullTC None
              (plainVar 24 "entity" (NominalDC classBase) false [NSManagedAttr]
                 None)
              classBase emptyState
              eq_refl eq_refl eq_refl eq_refl eq_refl eq_refl eq_refl eq_refl)
    as (var' & st' & Get & Set_ & Hrun & Hkind & _ & _ & _ & _ & _ & _ & _ & _
        & _ & _ & _ & _ & Hreq & _).
  exists var', st'. split; [exact Hrun|]. split; [exact Hkind|exact Hreq].
Defined.
